(** * searxng-mcp: a shallow embedding of the search client, the response
    normalizer, the rate limiter, the Markdown cleaner and the web_search
    handler, with the properties the specification states about them.

    Conventions of the embedding.
    - A Go [int] (64 bits on the supported platforms), a [time.Duration] and
      an instant of the clock are integers of [Z]; arithmetic that can leave
      the 64-bit range is written with [wrap64].
    - A Go [string] is a [string] of the standard library, byte per byte.
    - A Go slice is a [slice A]: [None] is the nil slice, [Some l] a non-nil
      slice with the elements [l].
    - An [error] is a tree: sentinels, opaque library errors, and errors that
      wrap others, as [fmt.Errorf] builds them with the verb %w.
    - Library code that is not part of the repository (URL parsing, the HTTP
      transport, the JSON codec, the parsing of dates) is a parameter of the
      model: the classes [Library] and [Codec], and the [world] a call runs in.
    - Several structs of the source have fields of the same name; the fields
      carry a prefix of their struct where they would clash. *)

From Stdlib Require Import ZArith List String Ascii Bool Lia Arith.
From Stdlib Require Import DecimalString.
Import ListNotations.

Open Scope string_scope.
Open Scope list_scope.
Open Scope Z_scope.

(** ** Machine integers *)

Definition minInt64 : Z := -9223372036854775808.
Definition maxInt64 : Z := 9223372036854775807.

(** Two's-complement wrap-around of a 64-bit signed integer. *)
Definition wrap64 (z : Z) : Z := (z + 2 ^ 63) mod 2 ^ 64 - 2 ^ 63.

Definition inInt64 (z : Z) : Prop := minInt64 <= z <= maxInt64.

(** [strconv.Itoa], and the verb %d of [fmt]. *)
Definition strconv_Itoa (z : Z) : string := NilZero.string_of_int (Z.to_int z).

(** A Go slice: nil, or a non-nil slice with its elements. *)
Definition slice (A : Type) : Type := option (list A).

Definition len {A : Type} (s : slice A) : nat :=
  match s with
  | None => 0%nat
  | Some l => List.length l
  end.

(** The elements a [for ... range] loop visits, in order. *)
Definition elems {A : Type} (s : slice A) : list A :=
  match s with
  | None => []
  | Some l => l
  end.

Definition isNil {A : Type} (s : slice A) : bool :=
  match s with
  | None => true
  | Some _ => false
  end.

(** ** Errors *)

(** The error values the client compares against with [errors.Is]: the four
    package-level errors of the client and the two of package [context]. *)
Inductive sentinel : Type :=
| SInvalidURL
| SRequestFailed
| SInvalidResponse
| STimeout
| SCanceled
| SDeadlineExceeded.

Definition sentinel_eqb (a b : sentinel) : bool :=
  match a, b with
  | SInvalidURL, SInvalidURL
  | SRequestFailed, SRequestFailed
  | SInvalidResponse, SInvalidResponse
  | STimeout, STimeout
  | SCanceled, SCanceled
  | SDeadlineExceeded, SDeadlineExceeded => true
  | _, _ => false
  end.

#[warnings="-register-all"]
Inductive error : Type :=
| Sentinel (s : sentinel)
| Opaque (msg : string)
| Wrapped (msg : string) (inner : list error).

Definition sentinel_msg (s : sentinel) : string :=
  match s with
  | SInvalidURL => "invalid searxng instance URL"
  | SRequestFailed => "search request failed"
  | SInvalidResponse => "invalid response from searxng"
  | STimeout => "request timeout"
  | SCanceled => "context canceled"
  | SDeadlineExceeded => "context deadline exceeded"
  end.

Definition ErrInvalidURL : error := Sentinel SInvalidURL.
Definition ErrRequestFailed : error := Sentinel SRequestFailed.
Definition ErrInvalidResponse : error := Sentinel SInvalidResponse.
Definition ErrTimeout : error := Sentinel STimeout.
Definition context_Canceled : error := Sentinel SCanceled.
Definition context_DeadlineExceeded : error := Sentinel SDeadlineExceeded.

(** The method [Error()]. *)
Definition Error (e : error) : string :=
  match e with
  | Sentinel s => sentinel_msg s
  | Opaque m => m
  | Wrapped m _ => m
  end.

(** [errors.Is err target]: the error itself, or one it wraps, at any depth. *)
Fixpoint errors_Is (e : error) (target : sentinel) : bool :=
  match e with
  | Sentinel s => sentinel_eqb s target
  | Opaque _ => false
  | Wrapped _ inner =>
      (fix any (l : list error) : bool :=
         match l with
         | [] => false
         | x :: r => errors_Is x target || any r
         end) inner
  end.

(** [fmt.Errorf(prefix + "%w", err)]. *)
Definition Errorf_w (prefix : string) (err : error) : error :=
  Wrapped (prefix ++ Error err)%string [err].

(** [fmt.Errorf("%w: %w", a, b)] where [b] may be the nil error: a nil
    operand prints as %!w(<nil>) and is not wrapped. *)
Definition Errorf_ww (a : error) (b : option error) : error :=
  match b with
  | Some e => Wrapped (Error a ++ ": " ++ Error e)%string [a; e]
  | None => Wrapped (Error a ++ ": %!w(<nil>)")%string [a]
  end.

(** What a call that returns [(value, error)] can do in the model: return a
    value, return an error, panic, or exhaust the fuel of a loop. *)
Inductive outcome (A : Type) : Type :=
| Ret (a : A)
| Fail (e : error)
| Panic
| OutOfFuel.

Arguments Ret {A} a.
Arguments Fail {A} e.
Arguments Panic {A}.
Arguments OutOfFuel {A}.

(** ** The rate limiter (client.go, [rateLimiter]) *)

(** The field [mu] is left out: the model runs one caller at a time, which is
    what the mutex grants each pass through the loop body. *)
Record rateLimiter : Type := mkRateLimiter {
  tokens : Z;
  maxTokens : Z;
  refillRate : Z;
  lastRefill : Z
}.

Definition newRateLimiter (maxTokens refillRate now : Z) : rateLimiter :=
  {| tokens := maxTokens;
     maxTokens := maxTokens;
     refillRate := refillRate;
     lastRefill := now |}.

(** [t.Sub(u)]: the difference, saturated to the range of a Duration. *)
Definition time_Sub (t u : Z) : Z := Z.max minInt64 (Z.min maxInt64 (t - u)).

Definition millisecond : Z := 1000000.
Definition second : Z := 1000000000.

(** [elapsed / rl.refillRate] on int64: the quotient truncated toward zero. *)
Definition tokensToAdd (rl : rateLimiter) (now : Z) : Z :=
  wrap64 (Z.quot (time_Sub now (lastRefill rl)) (refillRate rl)).

(** Lines 52 to 60 of [wait]: the refill. Dividing by a zero [refillRate]
    panics, which is [None] here. *)
Definition refill (rl : rateLimiter) (now : Z) : option rateLimiter :=
  if refillRate rl =? 0 then None
  else
    let k := tokensToAdd rl now in
    if 0 <? k then
      Some {| tokens := Z.min (maxTokens rl) (wrap64 (tokens rl + k));
              maxTokens := maxTokens rl;
              refillRate := refillRate rl;
              lastRefill := now |}
    else Some rl.

(** What the [select] of [wait] picks. *)
Inductive selected : Type :=
| TimerFired
| CtxDone (err : error).

(** What one caller of [wait] observes from outside: the reading of the clock
    at each pass through the loop, and the branch the [select] takes at the
    end of each pass that found no token. *)
Record waitEnv : Type := mkWaitEnv {
  clock : nat -> Z;
  selectAt : nat -> selected
}.

(** [rateLimiter.wait], from pass [i] on. The result is the returned error
    ([Ret tt] for nil) and the limiter as the call leaves it. *)
Fixpoint wait (fuel : nat) (env : waitEnv) (i : nat) (rl : rateLimiter)
  : outcome unit * rateLimiter :=
  match fuel with
  | O => (OutOfFuel, rl)
  | S fuel' =>
      match refill rl (clock env i) with
      | None => (Panic, rl)
      | Some rl1 =>
          if 0 <? tokens rl1 then
            (Ret tt, {| tokens := tokens rl1 - 1;
                        maxTokens := maxTokens rl1;
                        refillRate := refillRate rl1;
                        lastRefill := lastRefill rl1 |})
          else
            match selectAt env i with
            | TimerFired => wait fuel' env (S i) rl1
            | CtxDone err => (Fail err, rl1)
            end
      end
  end.

(** ** Timestamps and [time.Parse] *)

(** A parsed [time.Time]: the civil date and time as written, and the offset
    of its zone east of UTC in seconds. *)
Record Time : Type := mkTime {
  Year : Z;
  Month : Z;
  Day : Z;
  Hour : Z;
  Minute : Z;
  Second : Z;
  Nanosecond : Z;
  ZoneOffset : Z
}.

(** The layouts [parsePublishedDate] tries. *)
Definition time_RFC3339 : string := "2006-01-02T15:04:05Z07:00".
Definition layoutNoZone : string := "2006-01-02T15:04:05Z".
Definition layoutSpace : string := "2006-01-02 15:04:05".
Definition layoutDate : string := "2006-01-02".

Module GoTime.

(** Go's [time.Parse] is library code outside the repository. This module
    follows the library's documented behaviour on the four layouts above,
    element by element; it is only used to run [parsePublishedDate] on
    concrete strings. *)
Inductive chunk : Type :=
| Lit (c : ascii)
| LongYear
| ZeroMonth
| ZeroDay
| HourOfDay
| ZeroMinute
| ZeroSecond
| ColonTZ.

Definition isDigit (c : ascii) : bool :=
  let n := nat_of_ascii c in (48 <=? n)%nat && (n <=? 57)%nat.

Definition digit (c : ascii) : Z := Z.of_nat (nat_of_ascii c) - 48.

(** The elements of a layout, as the library cuts it. *)
Definition chunks (layout : string) : option (list chunk) :=
  if String.eqb layout time_RFC3339 then
    Some [LongYear; Lit "-"; ZeroMonth; Lit "-"; ZeroDay; Lit "T"; HourOfDay;
          Lit ":"; ZeroMinute; Lit ":"; ZeroSecond; ColonTZ]
  else if String.eqb layout layoutNoZone then
    Some [LongYear; Lit "-"; ZeroMonth; Lit "-"; ZeroDay; Lit "T"; HourOfDay;
          Lit ":"; ZeroMinute; Lit ":"; ZeroSecond; Lit "Z"]
  else if String.eqb layout layoutSpace then
    Some [LongYear; Lit "-"; ZeroMonth; Lit "-"; ZeroDay; Lit " "; HourOfDay;
          Lit ":"; ZeroMinute; Lit ":"; ZeroSecond]
  else if String.eqb layout layoutDate then
    Some [LongYear; Lit "-"; ZeroMonth; Lit "-"; ZeroDay]
  else None.

Fixpoint cutspace (s : string) : string :=
  match s with
  | String " " r => cutspace r
  | _ => s
  end.

(** A literal byte of the layout against the value: a space stands for any
    run of spaces, every other byte for itself. *)
Definition skip (c : ascii) (value : string) : option string :=
  match value with
  | EmptyString => if Ascii.eqb c " " then Some value else None
  | String d v =>
      if Ascii.eqb c " " then
        if Ascii.eqb d " " then Some (cutspace value) else None
      else if Ascii.eqb c d then Some v else None
  end.

(** One or two digits; exactly two when [fixed]. *)
Definition getnum (s : string) (fixed : bool) : option (Z * string) :=
  match s with
  | String a (String b r) =>
      if isDigit a then
        if isDigit b then Some (digit a * 10 + digit b, r)
        else if fixed then None else Some (digit a, String b r)
      else None
  | String a EmptyString =>
      if isDigit a && negb fixed then Some (digit a, EmptyString) else None
  | EmptyString => None
  end.

Fixpoint leadingDigits (s : string) : string * string :=
  match s with
  | String c r =>
      if isDigit c then let (d, rest) := leadingDigits r in (String c d, rest)
      else (EmptyString, s)
  | EmptyString => (EmptyString, EmptyString)
  end.

(** The value of at most nine digits after the decimal mark, in nanoseconds. *)
Fixpoint nanos (digits : string) (scale : Z) : Z :=
  match digits with
  | String c r => if scale =? 0 then 0 else digit c * scale + nanos r (scale / 10)
  | EmptyString => 0
  end.

Definition isLeap (year : Z) : bool :=
  (year mod 4 =? 0) && (negb (year mod 100 =? 0) || (year mod 400 =? 0)).

Definition daysIn (month year : Z) : Z :=
  if month =? 2 then (if isLeap year then 29 else 28)
  else if (month =? 4) || (month =? 6) || (month =? 9) || (month =? 11) then 30
  else 31.

(** The zone element: Z, or a sign, two digits, a colon and two digits. *)
Definition zone (value : string) : option (Z * string) :=
  match value with
  | String "Z" r => Some (0, r)
  | String sg (String h1 (String h2 (String ":" (String m1 (String m2 r))))) =>
      if isDigit h1 && isDigit h2 && isDigit m1 && isDigit m2 then
        let hr := digit h1 * 10 + digit h2 in
        let mm := digit m1 * 10 + digit m2 in
        if (24 <? hr) || (60 <? mm) then None
        else if Ascii.eqb sg "+" then Some ((hr * 60 + mm) * 60, r)
        else if Ascii.eqb sg "-" then Some (- ((hr * 60 + mm) * 60), r)
        else None
      else None
  | _ => None
  end.

(** One element of the layout, against the value and the time built so far. *)
Definition step (c : chunk) (t : Time) (value : string) : option (Time * string) :=
  match c with
  | Lit p =>
      match skip p value with
      | Some v => Some (t, v)
      | None => None
      end
  | LongYear =>
      match value with
      | String a (String b (String c (String d r))) =>
          if isDigit a && isDigit b && isDigit c && isDigit d then
            Some (mkTime (((digit a * 10 + digit b) * 10 + digit c) * 10 + digit d)
                         (Month t) (Day t) (Hour t) (Minute t) (Second t)
                         (Nanosecond t) (ZoneOffset t), r)
          else None
      | _ => None
      end
  | ZeroMonth =>
      match getnum value true with
      | Some (m, r) =>
          if (m <=? 0) || (12 <? m) then None
          else Some (mkTime (Year t) m (Day t) (Hour t) (Minute t) (Second t)
                            (Nanosecond t) (ZoneOffset t), r)
      | None => None
      end
  | ZeroDay =>
      match getnum value true with
      | Some (d, r) =>
          Some (mkTime (Year t) (Month t) d (Hour t) (Minute t) (Second t)
                       (Nanosecond t) (ZoneOffset t), r)
      | None => None
      end
  | HourOfDay =>
      match getnum value false with
      | Some (h, r) =>
          if 24 <=? h then None
          else Some (mkTime (Year t) (Month t) (Day t) h (Minute t) (Second t)
                            (Nanosecond t) (ZoneOffset t), r)
      | None => None
      end
  | ZeroMinute =>
      match getnum value true with
      | Some (m, r) =>
          if 60 <=? m then None
          else Some (mkTime (Year t) (Month t) (Day t) (Hour t) m (Second t)
                            (Nanosecond t) (ZoneOffset t), r)
      | None => None
      end
  | ZeroSecond =>
      match getnum value true with
      | Some (s, r) =>
          if 60 <=? s then None
          else
            let t1 := mkTime (Year t) (Month t) (Day t) (Hour t) (Minute t) s
                             (Nanosecond t) (ZoneOffset t) in
            match r with
            | String p (String d r') =>
                if (Ascii.eqb p "." || Ascii.eqb p ",") && isDigit d then
                  let (ds, rest) := leadingDigits (String d r') in
                  Some (mkTime (Year t) (Month t) (Day t) (Hour t) (Minute t) s
                               (nanos ds 100000000) (ZoneOffset t), rest)
                else Some (t1, r)
            | _ => Some (t1, r)
            end
      | None => None
      end
  | ColonTZ =>
      match zone value with
      | Some (off, r) =>
          Some (mkTime (Year t) (Month t) (Day t) (Hour t) (Minute t) (Second t)
                       (Nanosecond t) off, r)
      | None => None
      end
  end.

Fixpoint run (cs : list chunk) (t : Time) (value : string) : option Time :=
  match cs with
  | [] => match value with EmptyString => Some t | _ => None end
  | c :: cs' =>
      match step c t value with
      | Some (t1, v) => run cs' t1 v
      | None => None
      end
  end.

(** [time.Parse layout value], for the four layouts. A field the layout does
    not have keeps its zero value: month and day 1, the rest 0, zone UTC. *)
Definition Parse (layout value : string) : option Time :=
  match chunks layout with
  | None => None
  | Some cs =>
      match run cs (mkTime 0 1 1 0 0 0 0 0) value with
      | Some t =>
          if (Day t <? 1) || (daysIn (Month t) (Year t) <? Day t) then None
          else Some t
      | None => None
      end
  end.

End GoTime.

(** ** Query strings ([net/url]) *)

Module URLValues.

(** [url.Values]: the values of each key, in the order they were added. *)
Definition Values : Type := list (string * list string).

Fixpoint Set_ (v : Values) (key value : string) : Values :=
  match v with
  | [] => [(key, [value])]
  | (k, xs) :: r =>
      if String.eqb k key then (k, [value]) :: r else (k, xs) :: Set_ r key value
  end.

Fixpoint Add (v : Values) (key value : string) : Values :=
  match v with
  | [] => [(key, [value])]
  | (k, xs) :: r =>
      if String.eqb k key then (k, xs ++ [value]) :: r else (k, xs) :: Add r key value
  end.

Definition hexDigit (n : nat) : ascii :=
  ascii_of_nat (if (n <? 10)%nat then 48 + n else 55 + n).

Definition unreserved (c : ascii) : bool :=
  let n := nat_of_ascii c in
  ((48 <=? n) && (n <=? 57) || (65 <=? n) && (n <=? 90) || (97 <=? n) && (n <=? 122)
   || (n =? 45) || (n =? 95) || (n =? 46) || (n =? 126))%nat.

(** [url.QueryEscape]. *)
Fixpoint QueryEscape (s : string) : string :=
  match s with
  | EmptyString => EmptyString
  | String c r =>
      if unreserved c then String c (QueryEscape r)
      else if Ascii.eqb c " " then String "+" (QueryEscape r)
      else
        let n := nat_of_ascii c in
        String "%" (String (hexDigit (n / 16)) (String (hexDigit (n mod 16)) (QueryEscape r)))
  end.

Fixpoint insertKey (e : string * list string) (v : Values) : Values :=
  match v with
  | [] => [e]
  | f :: r => if String.leb (fst e) (fst f) then e :: f :: r else f :: insertKey e r
  end.

Definition sortKeys (v : Values) : Values := fold_right insertKey [] v.

Definition pairs (v : Values) : list string :=
  flat_map (fun e => map (fun x => (QueryEscape (fst e) ++ "=" ++ QueryEscape x)%string) (snd e))
           (sortKeys v).

(** [Values.Encode]: key=value pairs sorted by key, joined by an ampersand. *)
Definition Encode (v : Values) : string := String.concat "&" (pairs v).

End URLValues.

(** ** The Markdown cleaner (reader.go, [cleanMarkdown]) *)

Module Reader.

(** The bytes of a Go string. *)
Definition bytes : Type := list ascii.

Definition newline : ascii := ascii_of_nat 10.

Definition b (n : nat) : ascii := ascii_of_nat n.

(** The UTF-8 encodings of the code points [unicode.IsSpace] accepts: tab,
    line feed, vertical tab, form feed, carriage return, space, U+0085,
    U+00A0, U+1680, U+2000 to U+200A, U+2028, U+2029, U+202F, U+205F and
    U+3000. The library decodes one code point at either end of the string
    and drops it when it is one of these; a byte that does not decode is not
    white space. *)
Definition spaces : list bytes :=
  [[b 9]; [b 10]; [b 11]; [b 12]; [b 13]; [b 32];
   [b 194; b 133]; [b 194; b 160];
   [b 225; b 154; b 128];
   [b 226; b 128; b 128]; [b 226; b 128; b 129]; [b 226; b 128; b 130];
   [b 226; b 128; b 131]; [b 226; b 128; b 132]; [b 226; b 128; b 133];
   [b 226; b 128; b 134]; [b 226; b 128; b 135]; [b 226; b 128; b 136];
   [b 226; b 128; b 137]; [b 226; b 128; b 138];
   [b 226; b 128; b 168]; [b 226; b 128; b 169]; [b 226; b 128; b 175];
   [b 226; b 129; b 159];
   [b 227; b 128; b 128]].

(** [Some rest] when [p] is a prefix of [s] and [rest] follows it. *)
Fixpoint stripPrefix (p s : bytes) : option bytes :=
  match p, s with
  | [], _ => Some s
  | c :: p', d :: s' => if Ascii.eqb c d then stripPrefix p' s' else None
  | _ :: _, [] => None
  end.

(** Drops one of the patterns from the front of [s], if one is there. *)
Fixpoint stripOne (ps : list bytes) (s : bytes) : option bytes :=
  match ps with
  | [] => None
  | p :: ps' =>
      match stripPrefix p s with
      | Some r => Some r
      | None => stripOne ps' s
      end
  end.

Fixpoint trimLeftWith (ps : list bytes) (fuel : nat) (s : bytes) : bytes :=
  match fuel with
  | O => s
  | S fuel' =>
      match stripOne ps s with
      | Some r => trimLeftWith ps fuel' r
      | None => s
      end
  end.

(** [strings.TrimLeftFunc(s, unicode.IsSpace)]: at most one code point goes
    per byte of [s], so the length of [s] is fuel enough. *)
Definition trimLeft (s : bytes) : bytes := trimLeftWith spaces (List.length s) s.

(** [strings.TrimRightFunc(s, unicode.IsSpace)]: the same from the end. *)
Definition trimRight (s : bytes) : bytes :=
  rev (trimLeftWith (map (@rev ascii) spaces) (List.length s) (rev s)).

(** [strings.TrimSpace]. The library has a fast path for ASCII that computes
    the same string. *)
Definition TrimSpace (s : bytes) : bytes := trimRight (trimLeft s).

(** [strings.Split(s, "\n")]. *)
Fixpoint Split (s : bytes) : list bytes :=
  match s with
  | [] => [[]]
  | c :: r =>
      if Ascii.eqb c newline then [] :: Split r
      else
        match Split r with
        | l :: ls => (c :: l) :: ls
        | [] => [[c]]
        end
  end.

(** [strings.Join(lines, "\n")]. *)
Fixpoint Join (lines : list bytes) : bytes :=
  match lines with
  | [] => []
  | [l] => l
  | l :: ls => l ++ newline :: Join ls
  end.

Definition isEmpty (s : bytes) : bool :=
  match s with
  | [] => true
  | _ :: _ => false
  end.

(** The body of the first loop, on the pair of [emptyCount] and [cleaned].
    [emptyCount] is a Go int; it counts lines of one string in memory, so it
    stays far below 2^63 and the increment is written without wrap-around. *)
Definition keepLine (st : Z * list bytes) (line : bytes) : Z * list bytes :=
  let (emptyCount, cleaned) := st in
  let trimmed := TrimSpace line in
  if isEmpty trimmed then
    if emptyCount + 1 <=? 2 then (emptyCount + 1, cleaned ++ [[]])
    else (emptyCount + 1, cleaned)
  else (0, cleaned ++ [trimmed]).

(** The second loop: empty lines go from the front. *)
Fixpoint dropLeadingEmpty (cleaned : list bytes) : list bytes :=
  match cleaned with
  | l :: ls => if isEmpty l then dropLeadingEmpty ls else cleaned
  | [] => []
  end.

(** The third loop: empty lines go from the back. *)
Definition dropTrailingEmpty (cleaned : list bytes) : list bytes :=
  rev (dropLeadingEmpty (rev cleaned)).

Definition cleanLines (markdown : bytes) : list bytes :=
  let lines := Split markdown in
  let cleaned := snd (fold_left keepLine lines (0, [])) in
  dropTrailingEmpty (dropLeadingEmpty cleaned).

Definition cleanBytes (markdown : bytes) : bytes := Join (cleanLines markdown).

End Reader.

Definition cleanMarkdown (markdown : string) : string :=
  string_of_list_ascii (Reader.cleanBytes (list_ascii_of_string markdown)).

(** ** The data model (types.go) and the client (client.go) *)

(** The library code the model runs on: the type of Go's float64 values
    with the conversions [int(f)] and [float64(n)], [time.Parse layout value]
    and [t.Format(layout)], the parsed URLs of [net/url], and the error, if
    any, of [http.NewRequestWithContext method url]. *)
Class Library : Type := {
  float64 : Type;
  int_of_float64 : float64 -> Z;
  float64_of_int : Z -> float64;
  time_Parse : string -> string -> option Time;
  time_Format : Time -> string -> string;
  url : Type;
  url_Parse : string -> error + url;
  url_ResolveReference : url -> url -> url;
  url_String : url -> string;
  http_NewRequestErr : string -> string -> option error
}.

Section Searxng.

Context {lib : Library}.

Record SearchRequest : Type := mkSearchRequest {
  req_Query : string;
  req_Limit : Z;
  req_Page : Z;
  req_TimeRange : string;
  req_Category : string;
  req_Language : string;
  req_Engines : slice string
}.

Record APIRequest : Type := mkAPIRequest {
  areq_Query : string;
  areq_Category : string;
  areq_Engines : slice string;
  areq_Language : string;
  areq_Pageno : Z;
  areq_TimeRange : string;
  areq_Format : string
}.

Record SearchResult : Type := mkSearchResult {
  sr_URL : string;
  sr_Title : string;
  sr_Content : string;
  sr_PublishedDate : option Time;
  sr_Engine : string;
  sr_Category : string;
  sr_Score : float64;
  sr_Thumbnail : string;
  sr_ImageSrc : string;
  sr_Engines : slice string;
  sr_Positions : slice Z
}.

Record APIResult : Type := mkAPIResult {
  ar_URL : string;
  ar_Title : string;
  ar_Content : string;
  ar_PublishedDate : string;
  ar_Engine : string;
  ar_Category : string;
  ar_Score : float64;
  ar_Thumbnail : string;
  ar_ImgSrc : string;
  ar_Engines : slice string;
  ar_Positions : slice Z
}.

Record InfoboxImage : Type := mkInfoboxImage {
  ii_URL : string;
  ii_Alt : string;
  ii_ThumbnailURL : string
}.

Record InfoboxRelatedTopic : Type := mkInfoboxRelatedTopic {
  irt_Name : string;
  irt_URL : string
}.

Record InfoboxURL : Type := mkInfoboxURL {
  iu_URL : string;
  iu_Title : string;
  iu_Engine : string;
  iu_Category : string;
  iu_ImgSrc : string
}.

Record Infobox : Type := mkInfobox {
  ib_Content : string;
  ib_Engine : string;
  ib_Attribution : string;
  ib_Images : slice InfoboxImage;
  ib_Label : string;
  ib_RelatedTopics : slice InfoboxRelatedTopic;
  ib_Urls : slice InfoboxURL
}.

Record UnresponsiveEngine : Type := mkUnresponsiveEngine {
  ue_Name : string;
  ue_Error : string
}.

Record SearchResponse : Type := mkSearchResponse {
  Query : string;
  NumberOfResults : Z;
  Results : slice SearchResult;
  Answers : slice string;
  Corrections : slice string;
  Infoboxes : slice Infobox;
  Suggestions : slice string;
  UnresponsiveEngines : slice UnresponsiveEngine
}.

(** The decoded wire payload. A key that is missing from the JSON object, or
    whose value is null, leaves its slice nil. *)
Record APIResponse : Type := mkAPIResponse {
  api_Query : string;
  api_NumberOfResults : Z;
  api_Results : slice APIResult;
  api_Answers : slice string;
  api_Corrections : slice string;
  api_Infoboxes : slice Infobox;
  api_Suggestions : slice string;
  api_UnresponsiveEngines : slice UnresponsiveEngine
}.

(** The values an [interface{}] of a decoded request can hold. A map is the
    list of its entries; the nil map is the empty list, which a lookup
    cannot tell from it. *)
#[warnings="-register-all"]
Inductive any : Type :=
| ANil
| ABool (v : bool)
| AInt (v : Z)
| AFloat64 (v : float64)
| AString (v : string)
| ASlice (v : list any)
| AMap (v : list (string * any)).

(** The index expression [m[key]]: the value of the key, or nil. *)
Fixpoint mapIndex (m : list (string * any)) (key : string) : any :=
  match m with
  | [] => ANil
  | (k, v) :: r => if String.eqb k key then v else mapIndex r key
  end.

(** The type assertions [x.(string)] and [x.(float64)]. *)
Definition asString (x : any) : option string :=
  match x with
  | AString s => Some s
  | _ => None
  end.

Definition asFloat64 (x : any) : option float64 :=
  match x with
  | AFloat64 f => Some f
  | _ => None
  end.

(** The JSON codec: [json.NewDecoder(body).Decode(&apiResp)],
    [json.Marshal(apiReq)] and [json.MarshalIndent(v, "", "  ")]. *)
Class Codec : Type := {
  json_Decode : string -> error + APIResponse;
  json_Marshal : APIRequest -> error + string;
  json_MarshalIndent : any -> error + string
}.

Context {codec : Codec}.

Definition formats : list string :=
  [time_RFC3339; layoutNoZone; layoutSpace; layoutDate].

(** The loop of [parsePublishedDate] over the layouts that are left. *)
Fixpoint tryFormats (fs : list string) (dateStr : string) : option Time :=
  match fs with
  | [] => None
  | format :: rest =>
      match time_Parse format dateStr with
      | Some t => Some t
      | None => tryFormats rest dateStr
      end
  end.

Definition parsePublishedDate (dateStr : string) : option Time :=
  if String.eqb dateStr "" then None else tryFormats formats dateStr.

Definition toSearchResult (r : APIResult) : SearchResult :=
  {| sr_URL := ar_URL r;
     sr_Title := ar_Title r;
     sr_Content := ar_Content r;
     sr_PublishedDate := parsePublishedDate (ar_PublishedDate r);
     sr_Engine := ar_Engine r;
     sr_Category := ar_Category r;
     sr_Score := ar_Score r;
     sr_Thumbnail := ar_Thumbnail r;
     sr_ImageSrc := ar_ImgSrc r;
     sr_Engines := ar_Engines r;
     sr_Positions := ar_Positions r |}.

(** [results] is made with [make], so it is never nil; the other slices are
    the payload's own. *)
Definition toSearchResponse (r : APIResponse) : SearchResponse :=
  {| Query := api_Query r;
     NumberOfResults := api_NumberOfResults r;
     Results := Some (map toSearchResult (elems (api_Results r)));
     Answers := api_Answers r;
     Corrections := api_Corrections r;
     Infoboxes := api_Infoboxes r;
     Suggestions := api_Suggestions r;
     UnresponsiveEngines := api_UnresponsiveEngines r |}.

(** *** Configuration and the outside world *)

Record Config : Type := mkConfig {
  BaseURL : string;
  Timeout : Z;
  MaxRetries : Z;
  UserAgent : string
}.

Definition DefaultInstanceURL : string := "https://searxng.example.com".

Definition DefaultConfig : Config :=
  {| BaseURL := DefaultInstanceURL;
     Timeout := 30 * second;
     MaxRetries := 3;
     UserAgent := "searxng-mcp/1.0" |}.

Record httpRequest : Type := mkHttpRequest {
  hr_Method : string;
  hr_URL : string;
  hr_Header : list (string * string);
  hr_Body : option string
}.

(** What [httpClient.Do] returns: an error, or a response with its status
    code and body. *)
Inductive httpResult : Type :=
| DoErr (err : error)
| DoResp (StatusCode : Z) (body : string).

(** Everything one call of the client observes from outside: the clock and
    the cancellation signal while it waits for a token, and the answer of
    the transport to the n-th request the call sends. *)
Record world : Type := mkWorld {
  w_env : waitEnv;
  w_Do : nat -> httpRequest -> httpResult
}.

Inductive logValue : Type :=
| LString (s : string)
| LInt (z : Z).

(** What a call does that is visible from outside, in order: a call of the
    logger at debug level with its fields (printed only when the level of the
    logger allows), a call of [time.Sleep], a request handed to
    [httpClient.Do]. *)
Inductive event : Type :=
| EvDebug (msg : string) (fields : list (string * logValue))
| EvSleep (d : Z)
| EvHTTP (req : httpRequest).

Record Client : Type := mkClient {
  config : Config;
  limiter : rateLimiter
}.

Definition NewClient (cfg : option Config) (now : Z) : error + Client :=
  let config := match cfg with Some c => c | None => DefaultConfig end in
  match url_Parse (BaseURL config) with
  | inl err => inl (Errorf_ww ErrInvalidURL (Some err))
  | inr _ =>
      inr {| config := config;
             limiter := newRateLimiter 10 (100 * millisecond) now |}
  end.

(** The first lines of [Search] and of [SearchJSON]: the defaults. *)
Definition applyDefaults (req : SearchRequest) : SearchRequest :=
  let limit1 := if req_Limit req <=? 0 then 5 else req_Limit req in
  let limit2 := if 20 <? limit1 then 20 else limit1 in
  let page := if req_Page req <=? 0 then 1 else req_Page req in
  {| req_Query := req_Query req;
     req_Limit := limit2;
     req_Page := page;
     req_TimeRange := req_TimeRange req;
     req_Category := req_Category req;
     req_Language := req_Language req;
     req_Engines := req_Engines req |}.

(** The request [req] with its field [Limit] set to [limit]. *)
Definition withLimit (req : SearchRequest) (limit : Z) : SearchRequest :=
  {| req_Query := req_Query req;
     req_Limit := limit;
     req_Page := req_Page req;
     req_TimeRange := req_TimeRange req;
     req_Category := req_Category req;
     req_Language := req_Language req;
     req_Engines := req_Engines req |}.

(** [baseURL.ResolveReference(searchPath)], with [searchPath] the result of
    parsing "/search", whose error the code drops: a nil [searchPath] would
    be dereferenced. *)
Definition searchEndpoint (baseURL : url) : outcome url :=
  match url_Parse "/search" with
  | inl _ => Panic
  | inr searchPath => Ret (url_ResolveReference baseURL searchPath)
  end.

Definition queryParams (req : SearchRequest) : URLValues.Values :=
  let q0 := URLValues.Set_ [] "q" (req_Query req) in
  let q1 := URLValues.Set_ q0 "format" "json" in
  let q2 := if String.eqb (req_Category req) "" then q1
            else URLValues.Set_ q1 "category" (req_Category req) in
  let q3 := if String.eqb (req_Language req) "" then q2
            else URLValues.Set_ q2 "language" (req_Language req) in
  let q4 := if 1 <? req_Page req
            then URLValues.Set_ q3 "pageno" (strconv_Itoa (req_Page req)) else q3 in
  let q5 := if String.eqb (req_TimeRange req) "" then q4
            else URLValues.Set_ q4 "time_range" (req_TimeRange req) in
  fold_left (fun q engine => URLValues.Add q "engines" engine) (elems (req_Engines req)) q5.

Definition buildSearchURL (c : Client) (req : SearchRequest) : outcome string :=
  match url_Parse (BaseURL (config c)) with
  | inl err => Fail err
  | inr baseURL =>
      match searchEndpoint baseURL with
      | Ret apiURL =>
          Ret (url_String apiURL ++ "?" ++ URLValues.Encode (queryParams req))%string
      | Fail err => Fail err
      | Panic => Panic
      | OutOfFuel => OutOfFuel
      end
  end.

Definition headers (c : Client) (extra : list (string * string)) : list (string * string) :=
  (if String.eqb (UserAgent (config c)) "" then []
   else [("User-Agent", UserAgent (config c))])
  ++ [("Accept", "application/json")] ++ extra.

(** The part of [doSearchRequest] and [doSearchJSONRequest] after the
    request is sent: the status check and the decoding. *)
Definition readResponse (r : httpResult) : error + SearchResponse :=
  match r with
  | DoErr err => inl (Errorf_w "HTTP request failed: " err)
  | DoResp status body =>
      if (status <? 200) || (300 <=? status) then
        inl (Opaque ("HTTP " ++ strconv_Itoa status ++ ": " ++ body)%string)
      else
        match json_Decode body with
        | inl err => inl (Errorf_ww ErrInvalidResponse (Some err))
        | inr apiResp => inr (toSearchResponse apiResp)
        end
  end.

(** One attempt: the result, the events it adds, and whether a request went
    out. [calls] counts the requests this call of the client has sent. *)
Definition doRequest (c : Client) (w : world) (calls : nat) (req : httpRequest)
  : (error + SearchResponse) * list event * nat :=
  match http_NewRequestErr (hr_Method req) (hr_URL req) with
  | Some err => (inl (Errorf_w "failed to create request: " err), [], calls)
  | None => (readResponse (w_Do w calls req), [EvHTTP req], S calls)
  end.

(** The request [doSearchRequest] builds, and the one of
    [doSearchJSONRequest]. *)
Definition getRequest (c : Client) (searchURL : string) : httpRequest :=
  {| hr_Method := "GET"; hr_URL := searchURL;
     hr_Header := headers c []; hr_Body := None |}.

Definition postRequest (c : Client) (apiURL body : string) : httpRequest :=
  {| hr_Method := "POST"; hr_URL := apiURL;
     hr_Header := headers c [("Content-Type", "application/json")];
     hr_Body := Some body |}.

Definition doSearchRequest (c : Client) (w : world) (calls : nat) (searchURL : string)
  : (error + SearchResponse) * list event * nat :=
  doRequest c w calls (getRequest c searchURL).

Definition doSearchJSONRequest (c : Client) (w : world) (calls : nat)
  (apiURL body : string) : (error + SearchResponse) * list event * nat :=
  doRequest c w calls (postRequest c apiURL body).

Definition isContextError (e : error) : bool :=
  errors_Is e SCanceled || errors_Is e SDeadlineExceeded.

(** The retry loops of [Search] and [SearchJSON], which differ in the attempt
    they make and in the text they log. The loop is entered with the value
    of [attempt], the last error, the requests sent and the events so far. *)
Fixpoint retryLoop (fuel : nat) (c : Client)
  (attemptOnce : nat -> (error + SearchResponse) * list event * nat) (logMsg : string)
  (attempt : Z) (lastErr : option error) (calls : nat) (tr : list event)
  : outcome SearchResponse * list event :=
  match fuel with
  | O => (OutOfFuel, tr)
  | S fuel' =>
      if attempt <=? MaxRetries (config c) then
        let tr1 :=
          if 0 <? attempt then
            tr ++ [EvDebug logMsg [("attempt", LInt attempt)];
                   EvSleep (wrap64 (attempt * second))]
          else tr in
        match attemptOnce calls with
        | (inr resp, evs, _) => (Ret resp, tr1 ++ evs)
        | (inl err, evs, calls') =>
            if isContextError err then (Fail err, tr1 ++ evs)
            else retryLoop fuel' c attemptOnce logMsg (wrap64 (attempt + 1)) (Some err)
                           calls' (tr1 ++ evs)
        end
      else (Fail (Errorf_ww ErrRequestFailed lastErr), tr)
  end.

(** What a call of [Search] or [SearchJSON] leaves behind: its result, the
    events in order, and the rate limiter of the client. *)
Record run : Type := mkRun {
  result : outcome SearchResponse;
  trace : list event;
  limiterAfter : rateLimiter
}.

Definition logFields (req : SearchRequest) : list (string * logValue) :=
  [("query", LString (req_Query req)); ("limit", LInt (req_Limit req));
   ("page", LInt (req_Page req))].

Definition Search (fuel : nat) (c : Client) (w : world) (req0 : SearchRequest) : run :=
  let req := applyDefaults req0 in
  match wait fuel (w_env w) 0 (limiter c) with
  | (Fail err, rl) => mkRun (Fail (Errorf_ww ErrTimeout (Some err))) [] rl
  | (Panic, rl) => mkRun Panic [] rl
  | (OutOfFuel, rl) => mkRun OutOfFuel [] rl
  | (Ret _, rl) =>
      let tr := [EvDebug "performing search" (logFields req)] in
      match buildSearchURL c req with
      | Fail err => mkRun (Fail (Errorf_w "failed to build search URL: " err)) tr rl
      | Panic => mkRun Panic tr rl
      | OutOfFuel => mkRun OutOfFuel tr rl
      | Ret apiURL =>
          let (r, tr') :=
            retryLoop fuel c (fun calls => doSearchRequest c w calls apiURL)
                      "retrying search request" 0 None 0%nat tr in
          mkRun r tr' rl
      end
  end.

Definition toAPIRequest (req : SearchRequest) : APIRequest :=
  {| areq_Query := req_Query req;
     areq_Category := req_Category req;
     areq_Engines := req_Engines req;
     areq_Language := req_Language req;
     areq_Pageno := req_Page req;
     areq_TimeRange := req_TimeRange req;
     areq_Format := "json" |}.

Definition SearchJSON (fuel : nat) (c : Client) (w : world) (req0 : SearchRequest) : run :=
  let req := applyDefaults req0 in
  match wait fuel (w_env w) 0 (limiter c) with
  | (Fail err, rl) => mkRun (Fail (Errorf_ww ErrTimeout (Some err))) [] rl
  | (Panic, rl) => mkRun Panic [] rl
  | (OutOfFuel, rl) => mkRun OutOfFuel [] rl
  | (Ret _, rl) =>
      let tr := [EvDebug "performing JSON search" (logFields req)] in
      match url_Parse (BaseURL (config c)) with
      | inl err => mkRun (Fail err) tr rl
      | inr baseURL =>
          match searchEndpoint baseURL with
          | Fail err => mkRun (Fail err) tr rl
          | Panic => mkRun Panic tr rl
          | OutOfFuel => mkRun OutOfFuel tr rl
          | Ret u =>
              let apiURL := url_String u in
              match json_Marshal (toAPIRequest req) with
              | inl err => mkRun (Fail (Errorf_w "failed to marshal request: " err)) tr rl
              | inr body =>
                  let (r, tr') :=
                    retryLoop fuel c
                      (fun calls => doSearchJSONRequest c w calls apiURL body)
                      "retrying JSON search request" 0 None 0%nat tr in
                  mkRun r tr' rl
              end
          end
      end
  end.

(** *** What a trace shows *)

(** The number of requests sent, and the durations slept, in order. *)
Fixpoint requestsSent (tr : list event) : nat :=
  match tr with
  | [] => 0%nat
  | EvHTTP _ :: r => S (requestsSent r)
  | _ :: r => requestsSent r
  end.

Fixpoint sleeps (tr : list event) : list Z :=
  match tr with
  | [] => []
  | EvSleep d :: r => d :: sleeps r
  | _ :: r => sleeps r
  end.

Fixpoint requests (tr : list event) : list httpRequest :=
  match tr with
  | [] => []
  | EvHTTP q :: r => q :: requests r
  | _ :: r => requests r
  end.

(** The events of attempt number [a] of a retry loop that sends [req]: the
    first attempt sends at once, a later one logs and sleeps first. *)
Definition oneAttempt (logMsg : string) (req : httpRequest) (a : nat) : list event :=
  match a with
  | O => [EvHTTP req]
  | S _ => [EvDebug logMsg [("attempt", LInt (Z.of_nat a))];
            EvSleep (wrap64 (Z.of_nat a * second));
            EvHTTP req]
  end.

(** The events of [count] attempts in a row, from attempt [from] on. *)
Definition attemptsTrace (logMsg : string) (req : httpRequest) (from count : nat)
  : list event :=
  flat_map (oneAttempt logMsg req) (seq from count).

(** What a call leaves, apart from its log lines: the result, the requests
    sent and the limiter. *)
Definition observable (r : run) : outcome SearchResponse * list httpRequest * rateLimiter :=
  (result r, requests (trace r), limiterAfter r).

(** *** The web_search tool (server.go) *)

Record TextContent : Type := mkTextContent {
  tc_Type : string;
  tc_Text : string
}.

Record CallToolResult : Type := mkCallToolResult {
  Content : list TextContent;
  IsError : bool
}.

Definition NewToolResultError (text : string) : CallToolResult :=
  {| Content := [{| tc_Type := "text"; tc_Text := text |}]; IsError := true |}.

Definition NewToolResultText (text : string) : CallToolResult :=
  {| Content := [{| tc_Type := "text"; tc_Text := text |}]; IsError := false |}.

Definition formatResult (r : SearchResult) : any :=
  AMap ([("title", AString (sr_Title r));
         ("url", AString (sr_URL r));
         ("snippet", AString (sr_Content r))]
        ++ match sr_PublishedDate r with
           | Some t => [("published_date", AString (time_Format t "2006-01-02"))]
           | None => []
           end).

Definition optionalStrings (key : string) (xs : slice string) : list (string * any) :=
  if (0 <? len xs)%nat then [(key, ASlice (map AString (elems xs)))] else [].

Definition formatSearchResults (resp : SearchResponse) : any :=
  AMap ([("query", AString (Query resp));
         ("total_results", AFloat64 (float64_of_int (NumberOfResults resp)));
         ("results", ASlice (map formatResult (elems (Results resp))))]
        ++ optionalStrings "suggestions" (Suggestions resp)
        ++ optionalStrings "answers" (Answers resp)
        ++ optionalStrings "corrections" (Corrections resp)).

(** The request the handler builds from the arguments. *)
Definition requestOf (query : string) (args : list (string * any)) : SearchRequest :=
  {| req_Query := query;
     req_Limit := match asFloat64 (mapIndex args "limit") with
                  | Some limit => int_of_float64 limit
                  | None => 0
                  end;
     req_Page := match asFloat64 (mapIndex args "page") with
                 | Some page => int_of_float64 page
                 | None => 0
                 end;
     req_TimeRange := match asString (mapIndex args "time_range") with
                      | Some timeRange => timeRange
                      | None => ""
                      end;
     req_Category := match asString (mapIndex args "category") with
                     | Some category => category
                     | None => ""
                     end;
     req_Language := "";
     req_Engines := None |}.

(** [handleWebSearch] on the value of [request.Params.Arguments]. The result
    is [Ret r] when the handler returns [(r, nil)] and [Fail e] when it
    returns an error of its own; the second component is [None] when the
    client was not called, and what the call of [Search] left otherwise.
    The log lines of the handler are left out. *)
Definition handleWebSearch (fuel : nat) (c : Client) (w : world) (arguments : any)
  : outcome CallToolResult * option run :=
  match arguments with
  | AMap args =>
      match asString (mapIndex args "query") with
      | None => (Ret (NewToolResultError "query is required"), None)
      | Some query =>
          if String.eqb query "" then
            (Ret (NewToolResultError "query is required"), None)
          else
            let r := Search fuel c w (requestOf query args) in
            match result r with
            | Fail err =>
                (Ret (NewToolResultError ("search failed: " ++ Error err)%string), Some r)
            | Panic => (Panic, Some r)
            | OutOfFuel => (OutOfFuel, Some r)
            | Ret resp =>
                match json_MarshalIndent (formatSearchResults resp) with
                | inl err =>
                    (Ret (NewToolResultError
                            ("failed to format results: " ++ Error err)%string), Some r)
                | inr resultJSON => (Ret (NewToolResultText resultJSON), Some r)
                end
            end
      end
  | _ => (Ret (NewToolResultError "invalid arguments format"), None)
  end.

(** *** Notions the properties are stated with *)

(** The layout does not accept the string. *)
Definition fails (dateStr layout : string) : Prop := time_Parse layout dateStr = None.

(** The error the loop holds after [rem] failed attempts from attempt [a]. *)
Definition lastErrAfter (cause : nat -> error) (lastErr : option error) (a rem : nat)
  : option error :=
  match rem with
  | O => lastErr
  | S r => Some (cause (a + r)%nat)
  end.

End Searxng.

(** ** Notions about lines *)

Definition noNewline (l : Reader.bytes) : Prop := ~ In Reader.newline l.

(** The lines the first loop keeps, when it starts with the given count of
    empty lines just seen. *)
Fixpoint collapse (emptyCount : Z) (lines : list Reader.bytes) : list Reader.bytes :=
  match lines with
  | [] => []
  | line :: rest =>
      if Reader.isEmpty (Reader.TrimSpace line) then
        if emptyCount + 1 <=? 2 then [] :: collapse (emptyCount + 1) rest
        else collapse (emptyCount + 1) rest
      else Reader.TrimSpace line :: collapse 0 rest
  end.

(** A list of lines that starts with at most [k] empty lines and has no run
    of more than two anywhere. *)
Fixpoint okRuns (k : nat) (ls : list Reader.bytes) : Prop :=
  match ls with
  | [] => True
  | l :: rest =>
      if Reader.isEmpty l then
        match k with
        | O => False
        | S k' => okRuns k' rest
        end
      else okRuns 2 rest
  end.

(** The numbers of empty lines before each line that is not empty: the
    first is counted from [n], the others from the line of text before. *)
Fixpoint gapsFrom (n : nat) (ls : list Reader.bytes) : list nat :=
  match ls with
  | [] => []
  | l :: rest =>
      if Reader.isEmpty l then gapsFrom (S n) rest else n :: gapsFrom 0 rest
  end.

(** The numbers of empty lines between two lines of text that follow each
    other: the empty lines before the first line of text and after the last
    are not counted. *)
Definition gaps (ls : list Reader.bytes) : list nat := tl (gapsFrom 0 ls).

(** The lines of the cleaned document, as [strings.Split] on a line feed
    gives them. *)
Definition outputLines (markdown : string) : list Reader.bytes :=
  Reader.Split (list_ascii_of_string (cleanMarkdown markdown)).

(** * A concrete library *)

(** Stand-ins for the library, to run the model: floats are integers, a URL
    is its own text, every request can be built, dates are parsed as the Go
    library parses them, and no body decodes. *)
Definition exLibrary : Library :=
  {| float64 := Z;
     int_of_float64 := fun f => f;
     float64_of_int := fun z => z;
     time_Parse := GoTime.Parse;
     time_Format := fun t layout => strconv_Itoa (Year t);
     url := string;
     url_Parse := fun s => inr s;
     url_ResolveReference := fun base ref => (base ++ ref)%string;
     url_String := fun u => u;
     http_NewRequestErr := fun method u => None |}.

Definition exCodec : @Codec exLibrary :=
  {| json_Decode :=
       fun body => inl (Opaque "invalid character 'i' looking for beginning of value");
     json_Marshal := fun r => inr "{}";
     json_MarshalIndent := fun v => inr "{}" |}.

Definition exSearch (fuel : nat) (c : Client) (w : world) (req : SearchRequest)
  : @run exLibrary :=
  @Search exLibrary exCodec fuel c w req.

Definition exSearchJSON (fuel : nat) (c : Client) (w : world) (req : SearchRequest)
  : @run exLibrary :=
  @SearchJSON exLibrary exCodec fuel c w req.

Definition exHandleWebSearch (fuel : nat) (c : Client) (w : world)
  (arguments : @any exLibrary) : outcome CallToolResult * option (@run exLibrary) :=
  @handleWebSearch exLibrary exCodec fuel c w arguments.

(** The client of [NewClient] with the default configuration, made at time
    0, and the same client once its ten tokens are spent. *)
Definition exClient : Client :=
  {| config := DefaultConfig; limiter := newRateLimiter 10 (100 * millisecond) 0 |}.

Definition exClientEmpty : Client :=
  {| config := DefaultConfig;
     limiter := {| tokens := 0; maxTokens := 10;
                   refillRate := 100 * millisecond; lastRefill := 0 |} |}.

Definition exRequest : SearchRequest :=
  {| req_Query := "test"; req_Limit := 0; req_Page := 0; req_TimeRange := "";
     req_Category := ""; req_Language := ""; req_Engines := None |}.

(** A backend that answers every request with status 500. *)
Definition exWorld500 : world :=
  {| w_env := {| clock := fun _ => 0; selectAt := fun _ => TimerFired |};
     w_Do := fun _ _ => DoResp 500 "Internal Server Error" |}.

(** A backend that answers 500 once and then fails with a cancelled context. *)
Definition exWorldCancelled : world :=
  {| w_env := {| clock := fun _ => 0; selectAt := fun _ => TimerFired |};
     w_Do := fun n _ =>
               match n with
               | O => DoResp 500 "Internal Server Error"
               | S _ => DoErr (Wrapped "Get https://searxng.example.com/search: context canceled"
                                       [context_Canceled])
               end |}.

(** A context that is cancelled while the caller waits for a token, 50 ms
    after the limiter was last refilled. *)
Definition exWorldWaiting : world :=
  {| w_env := {| clock := fun _ => 50 * millisecond;
                 selectAt := fun _ => CtxDone context_Canceled |};
     w_Do := fun _ _ => DoResp 200 "{}" |}.

(** A payload in which every sequence is missing. *)
Definition exPayload : @APIResponse exLibrary :=
  {| api_Query := "test"; api_NumberOfResults := 0; api_Results := None;
     api_Answers := None; api_Corrections := None; api_Infoboxes := None;
     api_Suggestions := None; api_UnresponsiveEngines := None |}.

(** * More of the code *)

(** ** The rate limiter, call after call *)

(** The states the limiter is in between calls: a positive interval that is
    a Duration, a token count between 0 and the capacity, and a capacity
    small enough for the sum of the tokens and of a refill to stay a Go
    int. *)
Definition limiterOK (rl : rateLimiter) : Prop :=
  0 < refillRate rl <= maxInt64
  /\ 0 <= tokens rl <= maxTokens rl
  /\ maxTokens rl + maxInt64 / refillRate rl <= maxInt64.

(** Calls of [wait] one after the other, each with what it observes and with
    fuel for a single pass: a call that has to wait shows as [OutOfFuel]. *)
Fixpoint waitEach (envs : list waitEnv) (rl : rateLimiter)
  : list (outcome unit) * rateLimiter :=
  match envs with
  | [] => ([], rl)
  | env :: rest =>
      let (o, rl1) := wait 1 env 0 rl in
      let (os, rl2) := waitEach rest rl1 in
      (o :: os, rl2)
  end.

(** ** Errors of the client *)

(** The error [doSearchRequest] makes of a status outside 200 to 299. *)
Definition statusError (status : Z) (body : string) : error :=
  Opaque ("HTTP " ++ strconv_Itoa status ++ ": " ++ body)%string.

(** ** The commands (cmd/root.go, cmd/serve.go, cmd/search.go) *)

(** The configuration the commands serve and search hand to [NewClient]:
    the two fields they set, and the zero value of the others. *)
Definition commandConfig (instanceURL : string) (timeout : Z) : Config :=
  {| BaseURL := instanceURL;
     Timeout := timeout;
     MaxRetries := 0;
     UserAgent := "" |}.

(** [PersistentPreRunE] of the root command on the values of the flags
    instance-url and timeout: the error, or the instance URL and the timeout
    the commands go on with. *)
Definition persistentPreRunE (flagInstanceURL : string) (flagTimeout : Z)
  : error + string * Z :=
  let instanceURL := flagInstanceURL in
  let timeout := flagTimeout in
  if String.eqb instanceURL "" then inl (Opaque "instance URL cannot be empty")
  else inr (instanceURL, if timeout =? 0 then 30 * second else timeout).

(** [PreRunE] of the command serve on the values of the flags transport and
    port. *)
Definition servePreRunE (flagTransport : string) (flagPort : Z) : option error :=
  if negb (String.eqb flagTransport "stdio") && negb (String.eqb flagTransport "http") then
    Some (Opaque ("invalid transport: " ++ flagTransport
                  ++ " (must be 'stdio' or 'http')")%string)
  else if String.eqb flagTransport "http" && ((flagPort <? 1) || (65535 <? flagPort)) then
    Some (Opaque ("invalid port: " ++ strconv_Itoa flagPort)%string)
  else None.

(** What [RunE] of the command serve starts. *)
Inductive serving : Type :=
| ServeHTTP (addr : string)
| ServeStdio.

(** [RunE] of the command serve up to the call that serves: the error of
    [NewClient], or the client and the server that is started on it. *)
Definition serveRunE {lib : Library} (instanceURL : string) (timeout : Z) (now : Z)
  (flagTransport : string) (flagPort : Z) : error + Client * serving :=
  match NewClient (Some (commandConfig instanceURL timeout)) now with
  | inl err => inl (Errorf_w "failed to create searxng client: " err)
  | inr client =>
      inr (client,
           if String.eqb flagTransport "http"
           then ServeHTTP (":" ++ strconv_Itoa flagPort)%string
           else ServeStdio)
  end.

(** A codec that decodes every body into the same payload, to run calls
    that succeed. *)
Definition exCodecOK : @Codec exLibrary :=
  {| json_Decode := fun body => inr exPayload;
     json_Marshal := fun r => inr "{}";
     json_MarshalIndent := fun v => inr "{}" |}.

(** A backend that answers 500 to the first request and 200 from then on. *)
Definition exWorldRecovers : world :=
  {| w_env := {| clock := fun _ => 0; selectAt := fun _ => TimerFired |};
     w_Do := fun n _ =>
               match n with
               | O => DoResp 500 "Internal Server Error"
               | S _ => DoResp 200 "{}"
               end |}.

(** A backend that answers every request with status 200. *)
Definition exWorld200 : world :=
  {| w_env := {| clock := fun _ => 0; selectAt := fun _ => TimerFired |};
     w_Do := fun _ _ => DoResp 200 "{}" |}.

(** A backend that answers every request with status 404. *)
Definition exWorld404 : world :=
  {| w_env := {| clock := fun _ => 0; selectAt := fun _ => TimerFired |};
     w_Do := fun _ _ => DoResp 404 "Not Found" |}.

(** A client whose configuration asks for a negative number of retries, and
    the client the commands build. *)
Definition exClientNoAttempt : Client :=
  {| config := {| BaseURL := DefaultInstanceURL; Timeout := 30 * second;
                  MaxRetries := -1; UserAgent := "" |};
     limiter := newRateLimiter 10 (100 * millisecond) 0 |}.

Definition exCommandClient : Client :=
  {| config := commandConfig DefaultInstanceURL (30 * second);
     limiter := newRateLimiter 10 (100 * millisecond) 0 |}.

(** ** Query parameters, looked up *)


(** ** The web_read tool (reader.go [fetchURLContent], server.go
    [handleWebRead]) *)

(** [strings.Contains s sub]. *)
Fixpoint hasPrefix (sub s : string) : bool :=
  match sub, s with
  | EmptyString, _ => true
  | String a sub', String b s' => Ascii.eqb a b && hasPrefix sub' s'
  | String _ _, EmptyString => false
  end.

Fixpoint strings_Contains (s sub : string) : bool :=
  hasPrefix sub s ||
  match s with
  | EmptyString => false
  | String _ s' => strings_Contains s' sub
  end.

(** The library code [fetchURLContent] runs on, besides that of the client:
    the scheme of a parsed URL, the body of a response as a reader with
    [io.ReadAll], the documents of goquery with
    [goquery.NewDocumentFromReader], the removal of the elements a selector
    finds and [doc.Html()], and [conv.ConvertString] of the converter with
    the base and commonmark plugins. *)
Class Fetcher {lib : Library} : Type := {
  url_Scheme : url -> string;
  Body : Type;
  io_ReadAll : Body -> error + string;
  document : Type;
  goquery_NewDocumentFromReader : Body -> error + document;
  removeAll : string -> document -> document;
  doc_Html : document -> error + string;
  conv_ConvertString : string -> error + string
}.

Section WebRead.

Context {lib : Library} {fetcher : Fetcher}.

(** What [client.Do] returns to [fetchURLContent]: an error, or the response
    it ended on, with its status code, its status line, its Content-Type
    header and its body. *)
Inductive fetchResult : Type :=
| FetchErr (err : error)
| FetchResp (StatusCode : Z) (Status : string) (ContentType : string) (body : Body).

(** The policy [fetchURLContent] gives the client for redirects, on the
    number of requests made so far. *)
Definition checkRedirect (via : nat) : option error :=
  if (10 <=? via)%nat then Some (Opaque "too many redirects") else None.

(** The transport of [fetchURLContent]: what one call of [client.Do] returns
    for a request under a policy for redirects, which is an error, or the
    response the client ended on after the redirects it followed. *)
Definition fetchWorld : Type := (nat -> option error) -> httpRequest -> fetchResult.

Definition browserUserAgent : string :=
  "Mozilla/5.0 (Windows NT 10.0; Win64; x64) AppleWebKit/537.36 (KHTML, like Gecko) Chrome/120.0.0.0 Safari/537.36".

Definition fetchRequest (urlStr : string) : httpRequest :=
  {| hr_Method := "GET"; hr_URL := urlStr;
     hr_Header :=
       [("User-Agent", browserUserAgent);
        ("Accept", "text/html,application/xhtml+xml,application/xml;q=0.9,*/*;q=0.8");
        ("Accept-Language", "en-US,en;q=0.9")];
     hr_Body := None |}.

(** The part of [fetchURLContent] after the status check: the body as it is
    for a content type that is not HTML, and cleaned Markdown otherwise. *)
Definition readContent (contentType : string) (body : Body) : outcome string :=
  if negb (strings_Contains contentType "text/html")
     && negb (strings_Contains contentType "application/xhtml") then
    match io_ReadAll body with
    | inl err => Fail (Errorf_w "failed to read response body: " err)
    | inr text => Ret text
    end
  else
    match goquery_NewDocumentFromReader body with
    | inl err => Fail (Errorf_w "failed to parse HTML: " err)
    | inr doc =>
        match doc_Html (removeAll "script, style, nav, footer, header, aside" doc) with
        | inl err => Fail (Errorf_w "failed to serialize HTML: " err)
        | inr html =>
            match conv_ConvertString html with
            | inl err => Fail (Errorf_w "failed to convert to Markdown: " err)
            | inr markdown => Ret (cleanMarkdown markdown)
            end
        end
    end.


(** [fetchURLContent]: the result and the events of the call. *)
Definition fetchURLContent (send : fetchWorld) (urlStr : string)
  : outcome string * list event :=
  match url_Parse urlStr with
  | inl err => (Fail (Errorf_w "invalid URL: " err), [])
  | inr parsedURL =>
      if negb (String.eqb (url_Scheme parsedURL) "http")
         && negb (String.eqb (url_Scheme parsedURL) "https") then
        (Fail (Opaque ("unsupported URL scheme: " ++ url_Scheme parsedURL
                       ++ " (only http and https are supported)")%string), [])
      else
        let tr := [EvDebug "fetching URL" [("url", LString urlStr)]] in
        match http_NewRequestErr "GET" urlStr with
        | Some err => (Fail (Errorf_w "failed to create request: " err), tr)
        | None =>
            let tr' := tr ++ [EvHTTP (fetchRequest urlStr)] in
            match send checkRedirect (fetchRequest urlStr) with
            | FetchErr err => (Fail (Errorf_w "HTTP request failed: " err), tr')
            | FetchResp code status contentType body =>
                if negb (code =? 200) then
                  (Fail (Opaque ("HTTP " ++ strconv_Itoa code ++ ": " ++ status)%string), tr')
                else (readContent contentType body, tr')
            end
        end
  end.

(** [handleWebRead] on the value of [request.Params.Arguments], with the
    events of the fetch. The log lines of the handler are left out. *)
Definition handleWebRead (send : fetchWorld) (arguments : any)
  : outcome CallToolResult * list event :=
  match arguments with
  | AMap args =>
      match asString (mapIndex args "url") with
      | None => (Ret (NewToolResultError "url is required"), [])
      | Some u =>
          if String.eqb u "" then (Ret (NewToolResultError "url is required"), [])
          else
            match fetchURLContent send u with
            | (Ret content, tr) => (Ret (NewToolResultText content), tr)
            | (Fail err, tr) =>
                (Ret (NewToolResultError ("failed to fetch URL: " ++ Error err)%string), tr)
            | (Panic, tr) => (Panic, tr)
            | (OutOfFuel, tr) => (OutOfFuel, tr)
            end
      end
  | _ => (Ret (NewToolResultError "invalid arguments format"), [])
  end.

End WebRead.

(** Stand-ins for the library of [fetchURLContent], to run the model: the
    scheme of a URL is its text before the first colon, a body is its text,
    a document is its HTML, no element is removed, and the converter leaves
    the text as it is. *)
Fixpoint beforeColon (s : string) : option string :=
  match s with
  | EmptyString => None
  | String a r =>
      if Ascii.eqb a ":" then Some EmptyString
      else match beforeColon r with
           | Some p => Some (String a p)
           | None => None
           end
  end.

Definition exFetcher : @Fetcher exLibrary :=
  {| url_Scheme := fun u : @url exLibrary =>
                     match beforeColon u with Some p => p | None => EmptyString end;
     Body := string;
     io_ReadAll := fun b => inr b;
     document := string;
     goquery_NewDocumentFromReader := fun b => inr b;
     removeAll := fun _ d => d;
     doc_Html := fun d => inr d;
     conv_ConvertString := fun html => inr html |}.

(** A site that answers 200 with a page, and one that answers 201. *)
Definition exSendPage : @fetchWorld exLibrary exFetcher :=
  fun _ _ => @FetchResp exLibrary exFetcher
               200 "200 OK" "text/html; charset=utf-8" "   # Title   "%string.


(** A line that is not empty. *)
Definition nonEmpty (l : Reader.bytes) : bool := negb (Reader.isEmpty l).


(** * Properties *)

Section Properties.

Context {lib : Library} {codec : Codec}.

(** ** Machine arithmetic *)

Lemma wrap64_id (z : Z) : inInt64 z -> wrap64 z = z.
Proof.
  unfold inInt64, minInt64, maxInt64, wrap64. intros H.
  rewrite Z.mod_small; lia.
Qed.

Lemma time_Sub_nonneg (t u : Z) : u <= t -> 0 <= time_Sub t u <= maxInt64.
Proof.
  unfold time_Sub, minInt64, maxInt64. lia.
Qed.

Lemma time_Sub_small (t u d : Z) : 0 < d -> t - u < d -> time_Sub t u < d.
Proof.
  unfold time_Sub, minInt64, maxInt64. lia.
Qed.

Lemma time_Sub_range (t u : Z) : inInt64 (time_Sub t u).
Proof.
  unfold inInt64, time_Sub, minInt64, maxInt64. lia.
Qed.

(** ** The rate limiter *)

(** The quotient the refill computes is the floor of the elapsed time over
    the interval, whenever the clock has not gone back. *)
Lemma tokensToAdd_floor (rl : rateLimiter) (now : Z) :
  0 < refillRate rl -> lastRefill rl <= now ->
  tokensToAdd rl now = time_Sub now (lastRefill rl) / refillRate rl.
Proof.
  intros Hr Hn. unfold tokensToAdd.
  pose proof (time_Sub_nonneg now (lastRefill rl) Hn) as [H0 H1].
  rewrite Z.quot_div_nonneg by lia.
  apply wrap64_id. unfold inInt64, minInt64. unfold maxInt64 in *.
  split.
  - pose proof (Z.div_pos (time_Sub now (lastRefill rl)) (refillRate rl) H0 Hr). lia.
  - assert (time_Sub now (lastRefill rl) / refillRate rl <= time_Sub now (lastRefill rl)).
    { apply Z.div_le_upper_bound; nia. }
    lia.
Qed.

(** No token is due while less than one interval has gone by. *)
Lemma tokensToAdd_none (rl : rateLimiter) (now : Z) :
  0 < refillRate rl -> now - lastRefill rl < refillRate rl ->
  tokensToAdd rl now <= 0.
Proof.
  intros Hr Hn. unfold tokensToAdd.
  pose proof (time_Sub_small now (lastRefill rl) (refillRate rl) Hr Hn) as Hs.
  pose proof (time_Sub_range now (lastRefill rl)) as [Hlo Hhi].
  destruct (Z_le_gt_dec 0 (time_Sub now (lastRefill rl))) as [Hp|Hneg].
  - rewrite Z.quot_small by lia. reflexivity.
  - assert (Hq : Z.quot (time_Sub now (lastRefill rl)) (refillRate rl) <= 0).
    { apply Z.quot_le_upper_bound; lia. }
    assert (Hq' : time_Sub now (lastRefill rl)
                  <= Z.quot (time_Sub now (lastRefill rl)) (refillRate rl)).
    { rewrite <- (Z.opp_involutive (time_Sub now (lastRefill rl))).
      rewrite Z.quot_opp_l by lia.
      assert (Z.quot (- time_Sub now (lastRefill rl)) (refillRate rl)
              <= - time_Sub now (lastRefill rl)).
      { rewrite Z.quot_div_nonneg by lia. apply Z.div_le_upper_bound; nia. }
      lia. }
    rewrite wrap64_id; [exact Hq|]. unfold inInt64. unfold maxInt64 in *. lia.
Qed.

(** C1, as the code has it: with a positive interval and a clock that has not
    gone back, the refill computes k, the floor of the elapsed time over the
    interval. When k is at least 1 the token count becomes the smaller of
    maxTokens and tokens + k, and the last-refill timestamp becomes the
    current time: the whole elapsed time is consumed and the fraction of an
    interval is dropped. When k is 0 the limiter is left as it was. *)
Theorem refill_adds_floor_and_resets_clock (rl : rateLimiter) (now : Z) :
  0 < refillRate rl ->
  lastRefill rl <= now ->
  inInt64 (tokens rl + time_Sub now (lastRefill rl) / refillRate rl) ->
  refill rl now =
    Some (if 0 <? time_Sub now (lastRefill rl) / refillRate rl
          then {| tokens := Z.min (maxTokens rl)
                              (tokens rl + time_Sub now (lastRefill rl) / refillRate rl);
                  maxTokens := maxTokens rl;
                  refillRate := refillRate rl;
                  lastRefill := now |}
          else rl).
Proof.
  intros Hr Hn Hfit. unfold refill.
  replace (refillRate rl =? 0) with false by (symmetry; apply Z.eqb_neq; lia).
  cbv zeta. rewrite (tokensToAdd_floor rl now Hr Hn).
  destruct (0 <? time_Sub now (lastRefill rl) / refillRate rl); [|reflexivity].
  rewrite (wrap64_id _ Hfit). reflexivity.
Qed.

Lemma refill_not_due (rl : rateLimiter) (now : Z) :
  0 < refillRate rl -> now - lastRefill rl < refillRate rl ->
  refill rl now = Some rl.
Proof.
  intros Hr Hn. unfold refill.
  replace (refillRate rl =? 0) with false by (symmetry; apply Z.eqb_neq; lia).
  cbv zeta. pose proof (tokensToAdd_none rl now Hr Hn) as Hk.
  replace (0 <? tokensToAdd rl now) with false by (symmetry; apply Z.ltb_ge; exact Hk).
  reflexivity.
Qed.

(** A caller that finds no token at passes i to i + n, and whose [select]
    takes the timer until pass i + n takes the cancellation, gets the error
    of the context and leaves the limiter as it found it. *)
Lemma wait_cancelled (env : waitEnv) (err : error) (rl : rateLimiter) :
  0 < refillRate rl ->
  tokens rl <= 0 ->
  forall (n i fuel : nat),
    (forall j, (i <= j <= i + n)%nat -> clock env j - lastRefill rl < refillRate rl) ->
    (forall j, (i <= j < i + n)%nat -> selectAt env j = TimerFired) ->
    selectAt env (i + n) = CtxDone err ->
    (n < fuel)%nat ->
    wait fuel env i rl = (Fail err, rl).
Proof.
  intros Hr Ht. induction n as [|n IH]; intros i fuel Hclock Htimer Hdone Hfuel.
  - destruct fuel as [|fuel]; [lia|]. cbn [wait].
    rewrite (refill_not_due rl (clock env i) Hr) by (apply Hclock; lia).
    replace (0 <? tokens rl) with false by (symmetry; apply Z.ltb_ge; exact Ht).
    rewrite Nat.add_0_r in Hdone. rewrite Hdone. reflexivity.
  - destruct fuel as [|fuel]; [lia|]. cbn [wait].
    rewrite (refill_not_due rl (clock env i) Hr) by (apply Hclock; lia).
    replace (0 <? tokens rl) with false by (symmetry; apply Z.ltb_ge; exact Ht).
    rewrite (Htimer i) by lia.
    apply IH.
    + intros j Hj. apply Hclock. lia.
    + intros j Hj. apply Htimer. lia.
    + rewrite <- Hdone. f_equal. lia.
    + lia.
Qed.

(** C7: the limiter has no token, no refill interval goes by while the caller
    waits, the [select] takes the timer at passes 0 to n - 1 and the
    cancellation at pass n. Then [wait] returns the error of the context and
    the limiter, its token count included, is as before; [Search] returns an
    error that is [ErrTimeout] wrapping that error, and nothing was sent: the
    trace of the call is empty. *)
Theorem cancelled_wait_consumes_nothing
  (c : Client) (w : world) (req : SearchRequest) (err : error) (n fuel : nat) :
  0 < refillRate (limiter c) ->
  tokens (limiter c) <= 0 ->
  (forall j, (j <= n)%nat ->
     clock (w_env w) j - lastRefill (limiter c) < refillRate (limiter c)) ->
  (forall j, (j < n)%nat -> selectAt (w_env w) j = TimerFired) ->
  selectAt (w_env w) n = CtxDone err ->
  (n < fuel)%nat ->
  wait fuel (w_env w) 0 (limiter c) = (Fail err, limiter c)
  /\ tokens (snd (wait fuel (w_env w) 0 (limiter c))) = tokens (limiter c)
  /\ result (Search fuel c w req) = Fail (Errorf_ww ErrTimeout (Some err))
  /\ errors_Is (Errorf_ww ErrTimeout (Some err)) STimeout = true
  /\ trace (Search fuel c w req) = []
  /\ limiterAfter (Search fuel c w req) = limiter c.
Proof.
  intros Hr Ht Hclock Htimer Hdone Hfuel.
  assert (Hw : wait fuel (w_env w) 0 (limiter c) = (Fail err, limiter c)).
  { apply (wait_cancelled (w_env w) err (limiter c) Hr Ht n 0 fuel).
    - intros j Hj. apply Hclock. lia.
    - intros j Hj. apply Htimer. lia.
    - exact Hdone.
    - exact Hfuel. }
  unfold Search. rewrite Hw. cbn. repeat split; reflexivity.
Qed.

(** ** The retry loop *)

Lemma oneAttempt_events (logMsg : string) (req : httpRequest) (a : nat) (tr : list event) :
  (if 0 <? Z.of_nat a
   then tr ++ [EvDebug logMsg [("attempt", LInt (Z.of_nat a))];
               EvSleep (wrap64 (Z.of_nat a * second))]
   else tr) ++ [EvHTTP req]
  = tr ++ oneAttempt logMsg req a.
Proof.
  destruct a as [|a].
  - reflexivity.
  - replace (0 <? Z.of_nat (S a)) with true by (symmetry; apply Z.ltb_lt; lia).
    rewrite <- app_assoc. reflexivity.
Qed.

(** [rem] attempts in a row, from attempt [a] on, that fail with an error
    that is not one of the context: the loop makes them all, and goes on
    with attempt [a + rem]. *)
Lemma retryLoop_skip (c : Client) (w : world) (req : httpRequest) (logMsg : string)
  (cause : nat -> error) :
  http_NewRequestErr (hr_Method req) (hr_URL req) = None ->
  MaxRetries (config c) < maxInt64 ->
  forall (rem a fuel : nat) (lastErr : option error) (tr : list event),
    (forall j, (a <= j < a + rem)%nat ->
       readResponse (w_Do w j req) = inl (cause j) /\ isContextError (cause j) = false) ->
    Z.of_nat (a + rem) <= MaxRetries (config c) + 1 ->
    retryLoop (rem + fuel) c (fun calls => doRequest c w calls req) logMsg
              (Z.of_nat a) lastErr a tr
    = retryLoop fuel c (fun calls => doRequest c w calls req) logMsg
                (Z.of_nat (a + rem)) (lastErrAfter cause lastErr a rem) (a + rem)%nat
                (tr ++ attemptsTrace logMsg req a rem).
Proof.
  intros Hnew Hmax. induction rem as [|rem IH]; intros a fuel lastErr tr Hfail Hle.
  - cbn [lastErrAfter attemptsTrace seq flat_map Nat.add].
    rewrite Nat.add_0_r, app_nil_r. reflexivity.
  - cbn [Nat.add retryLoop].
    replace (Z.of_nat a <=? MaxRetries (config c)) with true
      by (symmetry; apply Z.leb_le; lia).
    unfold doRequest at 1. rewrite Hnew.
    destruct (Hfail a) as [Hresp Hctx]; [lia|].
    rewrite Hresp, Hctx.
    rewrite oneAttempt_events.
    rewrite wrap64_id by (unfold inInt64, minInt64; unfold maxInt64 in *; lia).
    replace (Z.of_nat a + 1) with (Z.of_nat (S a)) by lia.
    rewrite IH.
    + replace (S a + rem)%nat with (a + S rem)%nat by lia.
      f_equal.
      * destruct rem as [|rem]; cbn [lastErrAfter]; [rewrite Nat.add_0_r; reflexivity|].
        f_equal. f_equal. lia.
      * rewrite <- app_assoc. f_equal.
    + intros j Hj. apply Hfail. lia.
    + lia.
Qed.

Lemma requestsSent_app (t u : list event) :
  requestsSent (t ++ u) = (requestsSent t + requestsSent u)%nat.
Proof.
  induction t as [|e t IH]; [reflexivity|].
  destruct e; cbn [app requestsSent]; rewrite IH; reflexivity.
Qed.

Lemma sleeps_app (t u : list event) : sleeps (t ++ u) = sleeps t ++ sleeps u.
Proof.
  induction t as [|e t IH]; [reflexivity|].
  destruct e; cbn [app sleeps]; rewrite IH; reflexivity.
Qed.

Lemma requestsSent_attempts (logMsg : string) (req : httpRequest) (count from : nat) :
  requestsSent (attemptsTrace logMsg req from count) = count.
Proof.
  unfold attemptsTrace. revert from.
  induction count as [|count IH]; intros from; [reflexivity|].
  cbn [seq flat_map]. rewrite requestsSent_app, IH.
  destruct from; reflexivity.
Qed.

Lemma sleeps_attempts_later (logMsg : string) (req : httpRequest) (count from : nat) :
  sleeps (attemptsTrace logMsg req (S from) count)
  = map (fun k => wrap64 (Z.of_nat k * second)) (seq (S from) count).
Proof.
  unfold attemptsTrace. revert from.
  induction count as [|count IH]; intros from; [reflexivity|].
  cbn [seq flat_map map]. rewrite sleeps_app, IH. reflexivity.
Qed.

Lemma sleeps_attempts (logMsg : string) (req : httpRequest) (count : nat) :
  sleeps (attemptsTrace logMsg req 0 (S count))
  = map (fun k => wrap64 (Z.of_nat k * second)) (seq 1 count).
Proof.
  unfold attemptsTrace. cbn [seq flat_map]. rewrite sleeps_app.
  apply (sleeps_attempts_later logMsg req count 0).
Qed.

Lemma map_seconds (count : nat) (bound : Z) :
  Z.of_nat count <= bound -> bound * second <= maxInt64 ->
  map (fun k => wrap64 (Z.of_nat k * second)) (seq 1 count)
  = map (fun k => Z.of_nat k * second) (seq 1 count).
Proof.
  intros Hc Hb. apply map_ext_in. intros k Hk. apply in_seq in Hk.
  apply wrap64_id. unfold inInt64, minInt64, second in *. unfold maxInt64 in *. lia.
Qed.

(** The loop after every attempt has failed: it leaves with the last error
    wrapped in [ErrRequestFailed]. *)
Lemma retryLoop_exhausted (c : Client) (w : world) (req : httpRequest) (logMsg : string)
  (cause : nat -> error) (fuel : nat) (tr : list event) :
  http_NewRequestErr (hr_Method req) (hr_URL req) = None ->
  0 <= MaxRetries (config c) < maxInt64 ->
  (forall j, (j <= Z.to_nat (MaxRetries (config c)))%nat ->
     readResponse (w_Do w j req) = inl (cause j) /\ isContextError (cause j) = false) ->
  (Z.to_nat (MaxRetries (config c)) + 2 <= fuel)%nat ->
  retryLoop fuel c (fun calls => doRequest c w calls req) logMsg 0 None 0%nat tr
  = (Fail (Errorf_ww ErrRequestFailed (Some (cause (Z.to_nat (MaxRetries (config c)))))),
     tr ++ attemptsTrace logMsg req 0 (S (Z.to_nat (MaxRetries (config c))))).
Proof.
  intros Hnew [Hm0 Hm1] Hfail Hfuel.
  set (n := Z.to_nat (MaxRetries (config c))) in *.
  replace fuel with (S n + S (fuel - S n - 1))%nat by lia.
  change 0 with (Z.of_nat 0) at 1.
  rewrite (retryLoop_skip c w req logMsg cause Hnew Hm1 (S n) 0).
  - cbn [Nat.add lastErrAfter retryLoop].
    replace (Z.of_nat (S n) <=? MaxRetries (config c)) with false
      by (symmetry; apply Z.leb_gt; lia).
    reflexivity.
  - intros j Hj. apply Hfail. lia.
  - lia.
Qed.

(** The loop when attempt [k] fails with an error of the context after [k]
    attempts that failed otherwise: it leaves at once with that error. *)
Lemma retryLoop_cancelled (c : Client) (w : world) (req : httpRequest) (logMsg : string)
  (cause : nat -> error) (k fuel : nat) (tr : list event) :
  http_NewRequestErr (hr_Method req) (hr_URL req) = None ->
  MaxRetries (config c) < maxInt64 ->
  Z.of_nat k <= MaxRetries (config c) ->
  (forall j, (j < k)%nat ->
     readResponse (w_Do w j req) = inl (cause j) /\ isContextError (cause j) = false) ->
  readResponse (w_Do w k req) = inl (cause k) ->
  isContextError (cause k) = true ->
  (k < fuel)%nat ->
  retryLoop fuel c (fun calls => doRequest c w calls req) logMsg 0 None 0%nat tr
  = (Fail (cause k), tr ++ attemptsTrace logMsg req 0 (S k)).
Proof.
  intros Hnew Hm1 Hk Hfail Hresp Hctx Hfuel.
  replace fuel with (k + S (fuel - k - 1))%nat by lia.
  change 0 with (Z.of_nat 0) at 1.
  rewrite (retryLoop_skip c w req logMsg cause Hnew Hm1 k 0).
  - cbn [Nat.add retryLoop].
    replace (Z.of_nat k <=? MaxRetries (config c)) with true
      by (symmetry; apply Z.leb_le; lia).
    unfold doRequest. rewrite Hnew, Hresp, Hctx.
    rewrite oneAttempt_events.
    f_equal. rewrite <- app_assoc. f_equal.
    unfold attemptsTrace. rewrite seq_S, flat_map_app. cbn [flat_map Nat.add].
    rewrite app_nil_r. reflexivity.
  - intros j Hj. apply Hfail. lia.
  - lia.
Qed.

Lemma readResponse_status_500 (body : string) :
  readResponse (DoResp 500 body) = inl (Opaque ("HTTP 500: " ++ body)%string).
Proof. reflexivity. Qed.

(** C5: a token is granted, the URL is built and the request can be made;
    every one of the MaxRetries + 1 attempts fails with an error that is
    neither a cancellation nor a passed deadline. Then [Search] sends
    exactly MaxRetries + 1 requests, sleeps k seconds before retry number k
    and not before the first attempt, and returns [ErrRequestFailed]
    wrapping the error of the last attempt; when the last answer was a
    status 500, the message is that of [ErrRequestFailed] followed by
    HTTP 500 and the body. *)
Theorem search_exhausts_retries
  (c : Client) (w : world) (req : SearchRequest) (fuel : nat)
  (rl' : rateLimiter) (apiURL : string) (cause : nat -> error) :
  0 <= MaxRetries (config c) ->
  MaxRetries (config c) * second <= maxInt64 ->
  wait fuel (w_env w) 0 (limiter c) = (Ret tt, rl') ->
  buildSearchURL c (applyDefaults req) = Ret apiURL ->
  http_NewRequestErr "GET" apiURL = None ->
  (forall j, (j <= Z.to_nat (MaxRetries (config c)))%nat ->
     readResponse (w_Do w j (getRequest c apiURL)) = inl (cause j)
     /\ isContextError (cause j) = false) ->
  (Z.to_nat (MaxRetries (config c)) + 2 <= fuel)%nat ->
  result (Search fuel c w req)
    = Fail (Errorf_ww ErrRequestFailed (Some (cause (Z.to_nat (MaxRetries (config c))))))
  /\ errors_Is (Errorf_ww ErrRequestFailed (Some (cause (Z.to_nat (MaxRetries (config c))))))
               SRequestFailed = true
  /\ trace (Search fuel c w req)
      = EvDebug "performing search" (logFields (applyDefaults req))
        :: attemptsTrace "retrying search request" (getRequest c apiURL) 0
             (S (Z.to_nat (MaxRetries (config c))))
  /\ requestsSent (trace (Search fuel c w req)) = Z.to_nat (MaxRetries (config c) + 1)
  /\ sleeps (trace (Search fuel c w req))
      = map (fun k => Z.of_nat k * second) (seq 1 (Z.to_nat (MaxRetries (config c))))
  /\ (forall body,
        w_Do w (Z.to_nat (MaxRetries (config c))) (getRequest c apiURL) = DoResp 500 body ->
        Error (Errorf_ww ErrRequestFailed (Some (cause (Z.to_nat (MaxRetries (config c))))))
        = ("search request failed: HTTP 500: " ++ body)%string).
Proof.
  intros Hm0 Hsec Hwait Hurl Hnew Hfail Hfuel.
  assert (Hm1 : MaxRetries (config c) < maxInt64)
    by (unfold second, maxInt64 in *; lia).
  assert (Hrun : Search fuel c w req
                 = mkRun (Fail (Errorf_ww ErrRequestFailed
                                  (Some (cause (Z.to_nat (MaxRetries (config c)))))))
                         (EvDebug "performing search" (logFields (applyDefaults req))
                          :: attemptsTrace "retrying search request" (getRequest c apiURL) 0
                               (S (Z.to_nat (MaxRetries (config c)))))
                         rl').
  { unfold Search. rewrite Hwait, Hurl. unfold doSearchRequest.
    rewrite (retryLoop_exhausted c w (getRequest c apiURL) "retrying search request"
               cause fuel _ Hnew (conj Hm0 Hm1) Hfail Hfuel).
    reflexivity. }
  rewrite Hrun. cbn [result trace].
  split; [reflexivity|]. split; [reflexivity|]. split; [reflexivity|].
  split; [|split].
  - cbn [requestsSent]. rewrite requestsSent_attempts. lia.
  - cbn [sleeps]. rewrite sleeps_attempts.
    apply (map_seconds _ (MaxRetries (config c))); [lia | exact Hsec].
  - intros body Hbody.
    destruct (Hfail (Z.to_nat (MaxRetries (config c)))) as [Hresp _]; [lia|].
    rewrite Hbody, readResponse_status_500 in Hresp.
    injection Hresp as Hcause. rewrite <- Hcause. reflexivity.
Qed.

(** C6: in [Search] and in [SearchJSON] alike, when attempt number k fails
    with an error that is a cancellation or a passed deadline, after k
    attempts that failed otherwise, the call returns that very error; the
    trace ends with the request of attempt k, so k + 1 requests were sent
    and k sleeps made, and none of the attempts k + 1 to MaxRetries
    happens. *)
Theorem context_error_stops_retries :
  (forall (c : Client) (w : world) (req : SearchRequest) (fuel : nat)
          (rl' : rateLimiter) (apiURL : string) (cause : nat -> error) (k : nat),
     MaxRetries (config c) < maxInt64 ->
     Z.of_nat k <= MaxRetries (config c) ->
     wait fuel (w_env w) 0 (limiter c) = (Ret tt, rl') ->
     buildSearchURL c (applyDefaults req) = Ret apiURL ->
     http_NewRequestErr "GET" apiURL = None ->
     (forall j, (j < k)%nat ->
        readResponse (w_Do w j (getRequest c apiURL)) = inl (cause j)
        /\ isContextError (cause j) = false) ->
     readResponse (w_Do w k (getRequest c apiURL)) = inl (cause k) ->
     isContextError (cause k) = true ->
     (k < fuel)%nat ->
     result (Search fuel c w req) = Fail (cause k)
     /\ trace (Search fuel c w req)
         = EvDebug "performing search" (logFields (applyDefaults req))
           :: attemptsTrace "retrying search request" (getRequest c apiURL) 0 (S k)
     /\ requestsSent (trace (Search fuel c w req)) = S k
     /\ List.length (sleeps (trace (Search fuel c w req))) = k)
  /\
  (forall (c : Client) (w : world) (req : SearchRequest) (fuel : nat)
          (rl' : rateLimiter) (baseURL apiURL : url) (body : string)
          (cause : nat -> error) (k : nat),
     MaxRetries (config c) < maxInt64 ->
     Z.of_nat k <= MaxRetries (config c) ->
     wait fuel (w_env w) 0 (limiter c) = (Ret tt, rl') ->
     url_Parse (BaseURL (config c)) = inr baseURL ->
     searchEndpoint baseURL = Ret apiURL ->
     json_Marshal (toAPIRequest (applyDefaults req)) = inr body ->
     http_NewRequestErr "POST" (url_String apiURL) = None ->
     (forall j, (j < k)%nat ->
        readResponse (w_Do w j (postRequest c (url_String apiURL) body)) = inl (cause j)
        /\ isContextError (cause j) = false) ->
     readResponse (w_Do w k (postRequest c (url_String apiURL) body)) = inl (cause k) ->
     isContextError (cause k) = true ->
     (k < fuel)%nat ->
     result (SearchJSON fuel c w req) = Fail (cause k)
     /\ trace (SearchJSON fuel c w req)
         = EvDebug "performing JSON search" (logFields (applyDefaults req))
           :: attemptsTrace "retrying JSON search request"
                (postRequest c (url_String apiURL) body) 0 (S k)
     /\ requestsSent (trace (SearchJSON fuel c w req)) = S k
     /\ List.length (sleeps (trace (SearchJSON fuel c w req))) = k).
Proof.
  split.
  - intros c w req fuel rl' apiURL cause k Hm1 Hk Hwait Hurl Hnew Hfail Hresp Hctx Hfuel.
    assert (Hrun : Search fuel c w req
                   = mkRun (Fail (cause k))
                       (EvDebug "performing search" (logFields (applyDefaults req))
                        :: attemptsTrace "retrying search request"
                             (getRequest c apiURL) 0 (S k))
                       rl').
    { unfold Search. rewrite Hwait, Hurl. unfold doSearchRequest.
      rewrite (retryLoop_cancelled c w (getRequest c apiURL) "retrying search request"
                 cause k fuel _ Hnew Hm1 Hk Hfail Hresp Hctx Hfuel).
      reflexivity. }
    rewrite Hrun. cbn [result trace requestsSent sleeps].
    rewrite requestsSent_attempts, sleeps_attempts, length_map, length_seq.
    repeat split; reflexivity.
  - intros c w req fuel rl' baseURL apiURL body cause k
           Hm1 Hk Hwait Hparse Hend Hbody Hnew Hfail Hresp Hctx Hfuel.
    assert (Hrun : SearchJSON fuel c w req
                   = mkRun (Fail (cause k))
                       (EvDebug "performing JSON search" (logFields (applyDefaults req))
                        :: attemptsTrace "retrying JSON search request"
                             (postRequest c (url_String apiURL) body) 0 (S k))
                       rl').
    { unfold SearchJSON. rewrite Hwait, Hparse, Hend, Hbody. unfold doSearchJSONRequest.
      rewrite (retryLoop_cancelled c w (postRequest c (url_String apiURL) body)
                 "retrying JSON search request"
                 cause k fuel _ Hnew Hm1 Hk Hfail Hresp Hctx Hfuel).
      reflexivity. }
    rewrite Hrun. cbn [result trace requestsSent sleeps].
    rewrite requestsSent_attempts, sleeps_attempts, length_map, length_seq.
    repeat split; reflexivity.
Qed.

(** ** The limit of a request *)

(** The events so far are only ever extended by the loop. *)
Lemma retryLoop_trace (c : Client)
  (attemptOnce : nat -> (error + SearchResponse) * list event * nat) (logMsg : string)
  (fuel : nat) :
  forall (attempt : Z) (lastErr : option error) (calls : nat) (tr : list event),
    retryLoop fuel c attemptOnce logMsg attempt lastErr calls tr
    = (fst (retryLoop fuel c attemptOnce logMsg attempt lastErr calls []),
       tr ++ snd (retryLoop fuel c attemptOnce logMsg attempt lastErr calls [])).
Proof.
  induction fuel as [|fuel IH]; intros attempt lastErr calls tr.
  - cbn. rewrite app_nil_r. reflexivity.
  - cbn [retryLoop].
    destruct (attempt <=? MaxRetries (config c)).
    2: { cbn. rewrite app_nil_r. reflexivity. }
    set (pre := if 0 <? attempt
                then [EvDebug logMsg [("attempt", LInt attempt)];
                      EvSleep (wrap64 (attempt * second))]
                else []).
    replace (if 0 <? attempt
             then tr ++ [EvDebug logMsg [("attempt", LInt attempt)];
                         EvSleep (wrap64 (attempt * second))]
             else tr) with (tr ++ pre)
      by (unfold pre; destruct (0 <? attempt); [reflexivity | apply app_nil_r]).
    replace (if 0 <? attempt
             then [] ++ [EvDebug logMsg [("attempt", LInt attempt)];
                         EvSleep (wrap64 (attempt * second))]
             else []) with pre
      by (unfold pre; destruct (0 <? attempt); reflexivity).
    destruct (attemptOnce calls) as [[[err|resp] evs] calls'].
    + destruct (isContextError err).
      * cbn. rewrite app_assoc. reflexivity.
      * rewrite (IH _ _ _ ((tr ++ pre) ++ evs)), (IH _ _ _ (pre ++ evs)). cbn.
        rewrite !app_assoc. reflexivity.
    + cbn. rewrite app_assoc. reflexivity.
Qed.

Lemma buildSearchURL_withLimit (c : Client) (req : SearchRequest) (limit : Z) :
  buildSearchURL c (withLimit req limit) = buildSearchURL c req.
Proof. reflexivity. Qed.

Lemma toAPIRequest_withLimit (req : SearchRequest) (limit : Z) :
  toAPIRequest (withLimit req limit) = toAPIRequest req.
Proof. reflexivity. Qed.

Lemma Search_withLimit (fuel : nat) (c : Client) (w : world) (req : SearchRequest)
  (limit : Z) :
  observable (Search fuel c w (withLimit req limit)) = observable (Search fuel c w req).
Proof.
  unfold observable, Search.
  destruct (wait fuel (w_env w) 0 (limiter c)) as [[u|e| |] rl]; try reflexivity.
  change (buildSearchURL c (applyDefaults (withLimit req limit)))
    with (buildSearchURL c (applyDefaults req)).
  destruct (buildSearchURL c (applyDefaults req)) as [apiURL|e| |]; try reflexivity.
  rewrite (retryLoop_trace c _ _ fuel 0 None 0%nat
             [EvDebug "performing search" (logFields (applyDefaults (withLimit req limit)))]).
  rewrite (retryLoop_trace c _ _ fuel 0 None 0%nat
             [EvDebug "performing search" (logFields (applyDefaults req))]).
  reflexivity.
Qed.

Lemma SearchJSON_withLimit (fuel : nat) (c : Client) (w : world) (req : SearchRequest)
  (limit : Z) :
  observable (SearchJSON fuel c w (withLimit req limit))
  = observable (SearchJSON fuel c w req).
Proof.
  unfold observable, SearchJSON.
  destruct (wait fuel (w_env w) 0 (limiter c)) as [[u|e| |] rl]; try reflexivity.
  destruct (url_Parse (BaseURL (config c))) as [e|baseURL]; [reflexivity|].
  destruct (searchEndpoint baseURL) as [apiURL|e| |]; try reflexivity.
  change (toAPIRequest (applyDefaults (withLimit req limit)))
    with (toAPIRequest (applyDefaults req)).
  destruct (json_Marshal (toAPIRequest (applyDefaults req))) as [e|body]; [reflexivity|].
  rewrite (retryLoop_trace c _ _ fuel 0 None 0%nat
             [EvDebug "performing JSON search"
                (logFields (applyDefaults (withLimit req limit)))]).
  rewrite (retryLoop_trace c _ _ fuel 0 None 0%nat
             [EvDebug "performing JSON search" (logFields (applyDefaults req))]).
  reflexivity.
Qed.

(** C2: for two requests that differ in [Limit] only, [buildSearchURL] gives
    the same URL, the value marshalled into the body of the POST is the
    same, and [Search] and [SearchJSON] return the same result after sending
    the same requests; the response has one result for each result of the
    payload, whatever the limit. *)
Theorem limit_never_reaches_the_backend
  (fuel : nat) (c : Client) (w : world) (req : SearchRequest) (limit : Z) :
  buildSearchURL c (withLimit req limit) = buildSearchURL c req
  /\ buildSearchURL c (applyDefaults (withLimit req limit))
      = buildSearchURL c (applyDefaults req)
  /\ json_Marshal (toAPIRequest (applyDefaults (withLimit req limit)))
      = json_Marshal (toAPIRequest (applyDefaults req))
  /\ observable (Search fuel c w (withLimit req limit)) = observable (Search fuel c w req)
  /\ observable (SearchJSON fuel c w (withLimit req limit))
      = observable (SearchJSON fuel c w req)
  /\ (forall payload : APIResponse,
        len (Results (toSearchResponse payload)) = len (api_Results payload)
        /\ elems (Results (toSearchResponse payload))
            = map toSearchResult (elems (api_Results payload))).
Proof.
  split; [apply buildSearchURL_withLimit|].
  split; [apply (buildSearchURL_withLimit c (applyDefaults req))|].
  split; [f_equal; apply (toAPIRequest_withLimit (applyDefaults req))|].
  split; [apply Search_withLimit|]. split; [apply SearchJSON_withLimit|].
  intros payload. split; [|reflexivity].
  cbn. rewrite length_map. destruct (api_Results payload); reflexivity.
Qed.

(** ** The normalizer *)

(** What [toSearchResponse] does with each sequence: [Results] is made anew,
    never nil, with one converted result for each result of the payload, in
    order; each of the other sequences is the very slice of the payload, nil
    when the payload has none. A nil slice has length 0 and a loop over it
    runs no step. *)
Lemma toSearchResponse_sequences (r : APIResponse) :
  isNil (Results (toSearchResponse r)) = false
  /\ elems (Results (toSearchResponse r)) = map toSearchResult (elems (api_Results r))
  /\ Answers (toSearchResponse r) = api_Answers r
  /\ Corrections (toSearchResponse r) = api_Corrections r
  /\ Suggestions (toSearchResponse r) = api_Suggestions r
  /\ Infoboxes (toSearchResponse r) = api_Infoboxes r
  /\ UnresponsiveEngines (toSearchResponse r) = api_UnresponsiveEngines r
  /\ (api_Results r = None -> Results (toSearchResponse r) = Some [])
  /\ (forall (A : Type) (s : slice A), isNil s = true -> len s = 0%nat /\ elems s = []).
Proof.
  repeat split; try reflexivity.
  - intros H. cbn. rewrite H. reflexivity.
  - destruct s; [discriminate | reflexivity].
  - destruct s; [discriminate | reflexivity].
Qed.

(** ** The defaults *)

Lemma Search_logs_defaults (fuel : nat) (c : Client) (w : world) (req : SearchRequest)
  (rl' : rateLimiter) :
  wait fuel (w_env w) 0 (limiter c) = (Ret tt, rl') ->
  exists rest,
    trace (Search fuel c w req)
    = EvDebug "performing search" (logFields (applyDefaults req)) :: rest.
Proof.
  intros Hwait. unfold Search. rewrite Hwait.
  destruct (buildSearchURL c (applyDefaults req)) as [apiURL|e| |];
    try (eexists; reflexivity).
  rewrite retryLoop_trace. eexists. reflexivity.
Qed.

Lemma SearchJSON_logs_defaults (fuel : nat) (c : Client) (w : world) (req : SearchRequest)
  (rl' : rateLimiter) :
  wait fuel (w_env w) 0 (limiter c) = (Ret tt, rl') ->
  exists rest,
    trace (SearchJSON fuel c w req)
    = EvDebug "performing JSON search" (logFields (applyDefaults req)) :: rest.
Proof.
  intros Hwait. unfold SearchJSON. rewrite Hwait.
  destruct (url_Parse (BaseURL (config c))) as [e|baseURL]; [eexists; reflexivity|].
  destruct (searchEndpoint baseURL) as [apiURL|e| |]; try (eexists; reflexivity).
  destruct (json_Marshal (toAPIRequest (applyDefaults req))) as [e|body];
    [eexists; reflexivity|].
  rewrite retryLoop_trace. eexists. reflexivity.
Qed.

(** C4: the limit [Search] and [SearchJSON] go on with is 5 when the given
    one is not positive, 20 when it is above 20 and the given one otherwise,
    so it lies between 1 and 20; the page is 1 when the given one is not
    positive and the given one otherwise, so it is at least 1. Both calls
    log these values once the limiter has granted a token. *)
Theorem applyDefaults_clamps (req : SearchRequest) :
  req_Limit (applyDefaults req)
    = (if req_Limit req <=? 0 then 5 else if 20 <? req_Limit req then 20 else req_Limit req)
  /\ 1 <= req_Limit (applyDefaults req) <= 20
  /\ req_Page (applyDefaults req) = (if req_Page req <=? 0 then 1 else req_Page req)
  /\ 1 <= req_Page (applyDefaults req)
  /\ req_Limit (applyDefaults (withLimit req 0)) = 5
  /\ req_Limit (applyDefaults (withLimit req 25)) = 20
  /\ req_Limit (applyDefaults (withLimit req (-3))) = 5
  /\ (forall fuel c w rl',
        wait fuel (w_env w) 0 (limiter c) = (Ret tt, rl') ->
        (exists rest,
           trace (Search fuel c w req)
           = EvDebug "performing search" (logFields (applyDefaults req)) :: rest)
        /\ (exists rest,
              trace (SearchJSON fuel c w req)
              = EvDebug "performing JSON search" (logFields (applyDefaults req)) :: rest)).
Proof.
  assert (Hl : req_Limit (applyDefaults req)
               = (if req_Limit req <=? 0 then 5
                  else if 20 <? req_Limit req then 20 else req_Limit req)).
  { cbn. destruct (req_Limit req <=? 0); reflexivity. }
  assert (Hp : req_Page (applyDefaults req)
               = (if req_Page req <=? 0 then 1 else req_Page req)) by reflexivity.
  split; [exact Hl|]. split.
  { rewrite Hl. destruct (Z.leb_spec (req_Limit req) 0); [lia|].
    destruct (Z.ltb_spec 20 (req_Limit req)); lia. }
  split; [exact Hp|]. split.
  { rewrite Hp. destruct (Z.leb_spec (req_Page req) 0); lia. }
  split; [reflexivity|]. split; [reflexivity|]. split; [reflexivity|].
  intros fuel c w rl' Hwait. split.
  - apply (Search_logs_defaults fuel c w req rl' Hwait).
  - apply (SearchJSON_logs_defaults fuel c w req rl' Hwait).
Qed.

(** ** The published date *)

Lemma tryFormats_skip (pre rest : list string) (dateStr : string) :
  Forall (fails dateStr) pre ->
  tryFormats (pre ++ rest) dateStr = tryFormats rest dateStr.
Proof.
  induction 1 as [|layout pre Hfail _ IH]; [reflexivity|].
  cbn [app tryFormats]. unfold fails in Hfail. rewrite Hfail. exact IH.
Qed.

(** The loop over the layouts returns the parse of the first layout that
    accepts the string, and nothing when none does. *)
Lemma tryFormats_first (fs : list string) (dateStr : string) :
  match tryFormats fs dateStr with
  | Some t =>
      exists pre layout post,
        fs = pre ++ layout :: post
        /\ Forall (fails dateStr) pre
        /\ time_Parse layout dateStr = Some t
  | None => Forall (fails dateStr) fs
  end.
Proof.
  induction fs as [|layout fs IH]; cbn [tryFormats].
  - constructor.
  - destruct (time_Parse layout dateStr) as [t|] eqn:Hparse.
    + exists [], layout, fs. repeat split; [constructor | exact Hparse].
    + destruct (tryFormats fs dateStr) as [t|].
      * destruct IH as (pre & l & post & Hfs & Hpre & Hl).
        exists (layout :: pre), l, post. rewrite Hfs.
        repeat split; [constructor; assumption | exact Hl].
      * constructor; assumption.
Qed.

Lemma parsePublishedDate_result (dateStr : string) (t : Time) :
  parsePublishedDate dateStr = Some t <->
  dateStr <> ""
  /\ exists pre layout post,
       formats = pre ++ layout :: post
       /\ Forall (fails dateStr) pre
       /\ time_Parse layout dateStr = Some t.
Proof.
  unfold parsePublishedDate. destruct (String.eqb_spec dateStr "") as [He|Hne].
  - split; [discriminate | intros [H _]; contradiction].
  - split.
    + intros H. split; [exact Hne|].
      pose proof (tryFormats_first formats dateStr) as Hf. rewrite H in Hf. exact Hf.
    + intros [_ (pre & layout & post & Hfs & Hpre & Hl)].
      rewrite Hfs, (tryFormats_skip pre _ dateStr Hpre).
      cbn [tryFormats]. rewrite Hl. reflexivity.
Qed.

Lemma parsePublishedDate_absent (dateStr : string) :
  parsePublishedDate dateStr = None <->
  dateStr = "" \/ Forall (fails dateStr) formats.
Proof.
  unfold parsePublishedDate. destruct (String.eqb_spec dateStr "") as [He|Hne].
  - split; [intros _; left; exact He | reflexivity].
  - split.
    + intros H. right.
      pose proof (tryFormats_first formats dateStr) as Hf. rewrite H in Hf. exact Hf.
    + intros [He|Hall]; [contradiction|].
      rewrite <- (app_nil_r formats), (tryFormats_skip formats [] dateStr Hall).
      reflexivity.
Qed.

(** ** The web_search tool *)

(** C10, as the code has it: when the arguments are a map in which the query
    is absent, not a string, or the empty string, the handler returns the
    tool error "query is required" without calling the client; when the
    arguments are not a map at all it returns the tool error "invalid
    arguments format". In no case does it return an error of its own. *)
Theorem missing_query_is_a_tool_error (fuel : nat) (c : Client) (w : world) :
  (forall args,
     asString (mapIndex args "query") = None
     \/ asString (mapIndex args "query") = Some "" ->
     handleWebSearch fuel c w (AMap args)
     = (Ret (NewToolResultError "query is required"), None))
  /\ (forall arguments,
        (forall args, arguments <> AMap args) ->
        handleWebSearch fuel c w arguments
        = (Ret (NewToolResultError "invalid arguments format"), None))
  /\ (forall arguments e, fst (handleWebSearch fuel c w arguments) <> Fail e).
Proof.
  split; [|split].
  - intros args [H|H]; unfold handleWebSearch; rewrite H; reflexivity.
  - intros arguments Hmap.
    destruct arguments; try reflexivity. exfalso. apply (Hmap v). reflexivity.
  - intros arguments e. unfold handleWebSearch.
    destruct arguments; try discriminate.
    destruct (asString (mapIndex v "query")) as [query|]; [|discriminate].
    destruct (String.eqb query ""); [discriminate|].
    destruct (result (Search fuel c w (requestOf query v))); try discriminate.
    destruct (json_MarshalIndent (formatSearchResults a)); discriminate.
Qed.

End Properties.

(** ** The published date, on concrete strings *)

Lemma string_app_assoc (a b c : string) : ((a ++ b) ++ c = a ++ (b ++ c))%string.
Proof.
  induction a as [|x a IH]; [reflexivity|]. cbn. f_equal. exact IH.
Qed.

(** What [time.Parse] reads of a value, it reads from the front. *)
Lemma cutspace_suffix (s : string) : exists p, s = (p ++ GoTime.cutspace s)%string.
Proof.
  induction s as [|a s IH]; [exists EmptyString; reflexivity|].
  cbn [GoTime.cutspace].
  destruct (Ascii.eqb_spec a " ") as [->|Hne].
  - destruct IH as (p & Hp). exists (String " " p). cbn. f_equal. exact Hp.
  - exists EmptyString.
    destruct a as [[] [] [] [] [] [] [] []]; try reflexivity. contradiction Hne. reflexivity.
Qed.

Lemma leadingDigits_suffix (s : string) :
  s = (fst (GoTime.leadingDigits s) ++ snd (GoTime.leadingDigits s))%string.
Proof.
  induction s as [|a s IH]; [reflexivity|]. cbn [GoTime.leadingDigits].
  destruct (GoTime.isDigit a); [|reflexivity].
  destruct (GoTime.leadingDigits s) as [d rest]. cbn [fst snd] in *. cbn. f_equal. exact IH.
Qed.

Lemma getnum_suffix (s : string) (fixed : bool) (n : Z) (r : string) :
  GoTime.getnum s fixed = Some (n, r) -> exists p, s = (p ++ r)%string.
Proof.
  unfold GoTime.getnum. destruct s as [|a [|b s]]; [discriminate| |].
  - destruct (GoTime.isDigit a && negb fixed); [|discriminate].
    intros H. injection H as _ <-. exists (String a EmptyString). reflexivity.
  - destruct (GoTime.isDigit a); [|discriminate].
    destruct (GoTime.isDigit b).
    + intros H. injection H as _ <-. exists (String a (String b EmptyString)). reflexivity.
    + destruct fixed; [discriminate|].
      intros H. injection H as _ <-. exists (String a EmptyString). reflexivity.
Qed.

(** An element that is not the zone reads from the front of the value and
    leaves the zone of the time as it is. *)
Lemma step_suffix (c : GoTime.chunk) (t t' : Time) (value v' : string) :
  c <> GoTime.ColonTZ ->
  GoTime.step c t value = Some (t', v') ->
  (exists p, value = (p ++ v')%string) /\ ZoneOffset t' = ZoneOffset t.
Proof.
  intros Hc H. destruct c; cbn [GoTime.step] in H; try contradiction.
  - destruct (GoTime.skip c value) as [v|] eqn:Hskip; [|discriminate].
    injection H as <- <-. split; [|reflexivity].
    unfold GoTime.skip in Hskip. destruct value as [|d v0].
    + destruct (Ascii.eqb c " "); [|discriminate].
      injection Hskip as <-. exists EmptyString. reflexivity.
    + destruct (Ascii.eqb c " ").
      * destruct (Ascii.eqb d " "); [|discriminate].
        injection Hskip as <-. apply cutspace_suffix.
      * destruct (Ascii.eqb c d); [|discriminate].
        injection Hskip as <-. exists (String d EmptyString). reflexivity.
  - destruct value as [|a [|b [|c [|d r]]]]; try discriminate.
    destruct (GoTime.isDigit a && GoTime.isDigit b && GoTime.isDigit c && GoTime.isDigit d);
      [|discriminate].
    injection H as <- <-. split; [|reflexivity].
    exists (String a (String b (String c (String d EmptyString)))). reflexivity.
  - destruct (GoTime.getnum value true) as [[m r]|] eqn:Hn; [|discriminate].
    destruct ((m <=? 0) || (12 <? m)); [discriminate|].
    injection H as <- <-. split; [exact (getnum_suffix _ _ _ _ Hn) | reflexivity].
  - destruct (GoTime.getnum value true) as [[m r]|] eqn:Hn; [|discriminate].
    injection H as <- <-. split; [exact (getnum_suffix _ _ _ _ Hn) | reflexivity].
  - destruct (GoTime.getnum value false) as [[m r]|] eqn:Hn; [|discriminate].
    destruct (24 <=? m); [discriminate|].
    injection H as <- <-. split; [exact (getnum_suffix _ _ _ _ Hn) | reflexivity].
  - destruct (GoTime.getnum value true) as [[m r]|] eqn:Hn; [|discriminate].
    destruct (60 <=? m); [discriminate|].
    injection H as <- <-. split; [exact (getnum_suffix _ _ _ _ Hn) | reflexivity].
  - destruct (GoTime.getnum value true) as [[m r]|] eqn:Hn; [|discriminate].
    destruct (60 <=? m); [discriminate|].
    destruct (getnum_suffix _ _ _ _ Hn) as (p & Hp).
    destruct r as [|q [|d r']].
    + injection H as <- <-. split; [exists p; exact Hp | reflexivity].
    + injection H as <- <-. split; [exists p; exact Hp | reflexivity].
    + destruct ((Ascii.eqb q "." || Ascii.eqb q ",") && GoTime.isDigit d).
      * pose proof (leadingDigits_suffix (String d r')) as Hl.
        destruct (GoTime.leadingDigits (String d r')) as [ds rest].
        cbn [fst snd] in Hl. injection H as <- <-. split; [|reflexivity].
        exists (p ++ String q ds)%string. rewrite Hp, Hl.
        rewrite string_app_assoc. reflexivity.
      * injection H as <- <-. split; [exists p; exact Hp | reflexivity].
Qed.

(** A run over elements without the zone, followed by more elements: where
    the first part leaves the value and the time. *)
Lemma run_prefix (cs cs' : list GoTime.chunk) :
  ~ In GoTime.ColonTZ cs ->
  forall (t : Time) (value : string) (t' : Time),
    GoTime.run (cs ++ cs') t value = Some t' ->
    exists t1 v1 p,
      value = (p ++ v1)%string
      /\ ZoneOffset t1 = ZoneOffset t
      /\ forall cs'', GoTime.run (cs ++ cs'') t value = GoTime.run cs'' t1 v1.
Proof.
  induction cs as [|c cs IH]; intros Hin t value t' H.
  - exists t, value, EmptyString. repeat split; reflexivity.
  - cbn [app GoTime.run] in H.
    destruct (GoTime.step c t value) as [[t2 v2]|] eqn:Hstep; [|discriminate].
    destruct (step_suffix c t t2 value v2) as ((p & Hp) & Hz);
      [intros ->; apply Hin; left; reflexivity | exact Hstep |].
    destruct (IH (fun Hc => Hin (or_intror Hc)) t2 v2 t' H) as (t1 & v1 & p1 & Hv & Hz1 & Hrun).
    exists t1, v1, (p ++ p1)%string. split; [|split].
    + rewrite Hp, Hv. symmetry. apply string_app_assoc.
    + rewrite Hz1. exact Hz.
    + intros cs''. cbn [app GoTime.run]. rewrite Hstep. apply Hrun.
Qed.

(** The layout with the literal Z accepts no string that RFC 3339 does not
    accept, and gives the same time. *)
Lemma Parse_Z_shadowed (dateStr : string) (t : Time) :
  GoTime.Parse layoutNoZone dateStr = Some t ->
  GoTime.Parse time_RFC3339 dateStr = Some t.
Proof.
  unfold GoTime.Parse.
  change (GoTime.chunks layoutNoZone)
    with (Some ([GoTime.LongYear; GoTime.Lit "-"; GoTime.ZeroMonth; GoTime.Lit "-";
                 GoTime.ZeroDay; GoTime.Lit "T"; GoTime.HourOfDay; GoTime.Lit ":";
                 GoTime.ZeroMinute; GoTime.Lit ":"; GoTime.ZeroSecond]
                ++ [GoTime.Lit "Z"])).
  change (GoTime.chunks time_RFC3339)
    with (Some ([GoTime.LongYear; GoTime.Lit "-"; GoTime.ZeroMonth; GoTime.Lit "-";
                 GoTime.ZeroDay; GoTime.Lit "T"; GoTime.HourOfDay; GoTime.Lit ":";
                 GoTime.ZeroMinute; GoTime.Lit ":"; GoTime.ZeroSecond]
                ++ [GoTime.ColonTZ])).
  cbv iota beta.
  set (cs := [GoTime.LongYear; GoTime.Lit "-"; GoTime.ZeroMonth; GoTime.Lit "-";
              GoTime.ZeroDay; GoTime.Lit "T"; GoTime.HourOfDay; GoTime.Lit ":";
              GoTime.ZeroMinute; GoTime.Lit ":"; GoTime.ZeroSecond]).
  destruct (GoTime.run (cs ++ [GoTime.Lit "Z"]) (mkTime 0 1 1 0 0 0 0 0) dateStr)
    as [tz|] eqn:Hrun; [|discriminate].
  assert (Hno : ~ In GoTime.ColonTZ cs) by (cbn; intuition discriminate).
  destruct (run_prefix cs [GoTime.Lit "Z"] Hno _ _ _ Hrun) as (t1 & v1 & p & _ & Hz & Hcs).
  rewrite (Hcs [GoTime.Lit "Z"]) in Hrun. rewrite (Hcs [GoTime.ColonTZ]).
  cbn [GoTime.run GoTime.step GoTime.skip] in Hrun.
  destruct v1 as [|d v1]; [discriminate|].
  change (GoTime.skip "Z" (String d v1))
    with (if Ascii.eqb "Z" d then Some v1 else None) in Hrun.
  destruct (Ascii.eqb_spec "Z"%char d) as [<-|Hne]; [|discriminate].
  destruct v1; [|discriminate]. injection Hrun as <-.
  change (GoTime.run [GoTime.ColonTZ] t1 "Z")
    with (Some (mkTime (Year t1) (Month t1) (Day t1) (Hour t1) (Minute t1) (Second t1)
                  (Nanosecond t1) 0)).
  change (ZoneOffset t1 = 0) in Hz. destruct t1 as [y mo da h mi se ns zo].
  cbn [ZoneOffset Year Month Day Hour Minute Second Nanosecond] in *. subst zo.
  exact (fun H => H).
Qed.

(** A string that RFC 3339 accepts ends in a zone: Z, or a sign and an
    offset in hours and minutes. *)
Lemma Parse_RFC3339_zone (dateStr : string) (t : Time) :
  GoTime.Parse time_RFC3339 dateStr = Some t ->
  exists body z,
    dateStr = (body ++ z)%string /\ GoTime.zone z = Some (ZoneOffset t, EmptyString).
Proof.
  unfold GoTime.Parse.
  change (GoTime.chunks time_RFC3339)
    with (Some ([GoTime.LongYear; GoTime.Lit "-"; GoTime.ZeroMonth; GoTime.Lit "-";
                 GoTime.ZeroDay; GoTime.Lit "T"; GoTime.HourOfDay; GoTime.Lit ":";
                 GoTime.ZeroMinute; GoTime.Lit ":"; GoTime.ZeroSecond]
                ++ [GoTime.ColonTZ])).
  cbv iota beta.
  set (cs := [GoTime.LongYear; GoTime.Lit "-"; GoTime.ZeroMonth; GoTime.Lit "-";
              GoTime.ZeroDay; GoTime.Lit "T"; GoTime.HourOfDay; GoTime.Lit ":";
              GoTime.ZeroMinute; GoTime.Lit ":"; GoTime.ZeroSecond]).
  destruct (GoTime.run (cs ++ [GoTime.ColonTZ]) (mkTime 0 1 1 0 0 0 0 0) dateStr)
    as [tz|] eqn:Hrun; [|discriminate].
  assert (Hno : ~ In GoTime.ColonTZ cs) by (cbn; intuition discriminate).
  destruct (run_prefix cs [GoTime.ColonTZ] Hno _ _ _ Hrun) as (t1 & v1 & p & Hp & _ & Hcs).
  rewrite (Hcs [GoTime.ColonTZ]) in Hrun.
  cbn [GoTime.run GoTime.step] in Hrun.
  destruct (GoTime.zone v1) as [[off r]|] eqn:Hzone; [|discriminate].
  destruct r; [|discriminate]. injection Hrun as <-.
  cbn [Day Month Year ZoneOffset].
  destruct ((Day t1 <? 1) || (GoTime.daysIn (Month t1) (Year t1) <? Day t1));
    [discriminate|].
  intros H. injection H as <-. exists p, v1. split; [exact Hp | exact Hzone].
Qed.

(** C8, as the code has it: [parsePublishedDate] gives nothing for the empty
    string and otherwise tries four layouts in order: RFC 3339, which is a
    timestamp that ends in a zone, Z or an offset; the same timestamp
    followed by the letter Z; date and time with a space between them; the
    date alone. Its result is the parse of the first layout that accepts
    the string, and it is absent exactly when the string is empty or no
    layout accepts it. With the library's parser the second layout never
    decides, since RFC 3339 accepts what it accepts and gives the same
    time; so a string that is parsed ends in a zone, or is a date and a time
    with a space, or a date. A timestamp without a zone is accepted by no
    layout. The two strings of the specification that hold a date give the
    year 2024, and the empty string and not-a-date give nothing. *)
Theorem parsePublishedDate_first_of_four :
  (forall (lib : Library) (dateStr : string),
     formats = ["2006-01-02T15:04:05Z07:00"; "2006-01-02T15:04:05Z";
                "2006-01-02 15:04:05"; "2006-01-02"]
     /\ parsePublishedDate "" = None
     /\ (forall t,
           parsePublishedDate dateStr = Some t <->
           dateStr <> ""
           /\ exists pre layout post,
                formats = pre ++ layout :: post
                /\ Forall (fails dateStr) pre
                /\ time_Parse layout dateStr = Some t)
     /\ (parsePublishedDate dateStr = None <->
         dateStr = "" \/ Forall (fails dateStr) formats))
  /\ (forall (dateStr : string) (t : Time),
        GoTime.Parse "2006-01-02T15:04:05Z" dateStr = Some t ->
        GoTime.Parse "2006-01-02T15:04:05Z07:00" dateStr = Some t)
  /\ (forall (dateStr : string) (t : Time),
        @parsePublishedDate exLibrary dateStr = Some t ->
        (exists body z,
           dateStr = (body ++ z)%string
           /\ GoTime.zone z = Some (ZoneOffset t, EmptyString))
        \/ GoTime.Parse "2006-01-02 15:04:05" dateStr = Some t
        \/ GoTime.Parse "2006-01-02" dateStr = Some t)
  /\ @parsePublishedDate exLibrary "2024-01-15T10:30:00" = None
  /\ (exists t, @parsePublishedDate exLibrary "2024-01-15T10:30:00Z" = Some t
                /\ Year t = 2024)
  /\ (exists t, @parsePublishedDate exLibrary "2024-01-15" = Some t /\ Year t = 2024)
  /\ @parsePublishedDate exLibrary "" = None
  /\ @parsePublishedDate exLibrary "not-a-date" = None.
Proof.
  split.
  { intros lib dateStr. split; [reflexivity|]. split; [reflexivity|]. split.
    - intros t. apply parsePublishedDate_result.
    - apply parsePublishedDate_absent. }
  split; [exact Parse_Z_shadowed|].
  split.
  { intros dateStr t H. unfold parsePublishedDate in H.
    destruct (String.eqb dateStr ""); [discriminate|].
    cbn [formats tryFormats] in H. change (@time_Parse exLibrary) with GoTime.Parse in H.
    destruct (GoTime.Parse time_RFC3339 dateStr) as [t1|] eqn:H1.
    { injection H as ->. left. apply Parse_RFC3339_zone. exact H1. }
    destruct (GoTime.Parse layoutNoZone dateStr) as [t2|] eqn:H2.
    { rewrite (Parse_Z_shadowed _ _ H2) in H1. discriminate. }
    destruct (GoTime.Parse layoutSpace dateStr) as [t3|] eqn:H3.
    { injection H as ->. right. left. exact H3. }
    right. right.
    destruct (GoTime.Parse layoutDate dateStr) as [t4|] eqn:H4; [|discriminate].
    injection H as ->. exact H4. }
  split; [vm_compute; reflexivity|].
  split; [eexists; split; [vm_compute; reflexivity | reflexivity]|].
  split; [eexists; split; [vm_compute; reflexivity | reflexivity]|].
  split; vm_compute; reflexivity.
Qed.

(** ** The Markdown cleaner *)

Section TrimLemmas.

Variable ps : list Reader.bytes.
Hypothesis ps_nonempty : Forall (fun p => p <> []) ps.

Lemma stripPrefix_Some (p s r : Reader.bytes) :
  Reader.stripPrefix p s = Some r <-> s = p ++ r.
Proof.
  revert s. induction p as [|c p IH]; intros s; cbn [Reader.stripPrefix app].
  - split; [intros H; injection H as ->; reflexivity | intros ->; reflexivity].
  - destruct s as [|d s]; [split; discriminate|].
    destruct (Ascii.eqb_spec c d) as [->|Hne].
    + rewrite IH. split; [intros ->; reflexivity | intros H; injection H as ->; reflexivity].
    + split; [discriminate | intros H; injection H as H _; congruence].
Qed.

Lemma stripOne_Some (qs : list Reader.bytes) (s r : Reader.bytes) :
  Reader.stripOne qs s = Some r -> exists p, In p qs /\ s = p ++ r.
Proof.
  induction qs as [|q qs IH]; cbn [Reader.stripOne]; [discriminate|].
  destruct (Reader.stripPrefix q s) as [r'|] eqn:Hq.
  - intros H. injection H as ->. exists q. split; [left; reflexivity|].
    apply stripPrefix_Some. exact Hq.
  - intros H. destruct (IH H) as (p & Hin & Hs). exists p. split; [right|]; assumption.
Qed.

Lemma stripOne_None (qs : list Reader.bytes) (s : Reader.bytes) :
  Reader.stripOne qs s = None -> forall p r, In p qs -> s <> p ++ r.
Proof.
  induction qs as [|q qs IH]; cbn [Reader.stripOne]; intros H p r Hin Hs; [contradiction|].
  destruct (Reader.stripPrefix q s) as [r'|] eqn:Hq; [discriminate|].
  destruct Hin as [->|Hin].
  - apply (stripPrefix_Some p s r) in Hs. congruence.
  - exact (IH H p r Hin Hs).
Qed.

Lemma stripOne_nil (qs : list Reader.bytes) :
  Forall (fun p => p <> []) qs -> Reader.stripOne qs [] = None.
Proof.
  induction 1 as [|p qs Hp _ IH]; [reflexivity|].
  cbn [Reader.stripOne]. destruct p as [|c p]; [contradiction | exact IH].
Qed.

(** What is trimmed is a suffix of the string. *)
Lemma trimLeftWith_suffix (fuel : nat) (s : Reader.bytes) :
  exists pre, s = pre ++ Reader.trimLeftWith ps fuel s.
Proof.
  revert s. induction fuel as [|fuel IH]; intros s; cbn [Reader.trimLeftWith].
  - exists []. reflexivity.
  - destruct (Reader.stripOne ps s) as [r|] eqn:Hs; [|exists []; reflexivity].
    destruct (stripOne_Some ps s r Hs) as (p & _ & ->).
    destruct (IH r) as (pre & Hr). exists (p ++ pre).
    rewrite <- app_assoc. f_equal. exact Hr.
Qed.

(** With fuel for every byte, no pattern is left at the front. *)
Lemma trimLeftWith_done (fuel : nat) (s : Reader.bytes) :
  (List.length s <= fuel)%nat ->
  Reader.stripOne ps (Reader.trimLeftWith ps fuel s) = None.
Proof.
  revert s. induction fuel as [|fuel IH]; intros s Hlen; cbn [Reader.trimLeftWith].
  - destruct s as [|c s]; [|cbn in Hlen; lia].
    apply stripOne_nil. exact ps_nonempty.
  - destruct (Reader.stripOne ps s) as [r|] eqn:Hs; [|exact Hs].
    apply IH. destruct (stripOne_Some ps s r Hs) as (p & Hin & ->).
    pose proof (proj1 (Forall_forall _ ps) ps_nonempty p Hin) as Hp.
    destruct p as [|c p]; [contradiction|].
    rewrite length_app in Hlen. cbn in Hlen. lia.
Qed.

Lemma trimLeftWith_fixed (fuel : nat) (s : Reader.bytes) :
  Reader.stripOne ps s = None -> Reader.trimLeftWith ps fuel s = s.
Proof.
  intros H. destruct fuel; cbn [Reader.trimLeftWith]; [reflexivity|].
  rewrite H. reflexivity.
Qed.

End TrimLemmas.

Lemma spaces_nonempty : Forall (fun p : Reader.bytes => p <> []) Reader.spaces.
Proof. repeat constructor; discriminate. Qed.

Lemma rev_spaces_nonempty :
  Forall (fun p : Reader.bytes => p <> []) (map (@rev ascii) Reader.spaces).
Proof. repeat constructor; discriminate. Qed.

Lemma trimLeft_suffix (s : Reader.bytes) : exists pre, s = pre ++ Reader.trimLeft s.
Proof. apply trimLeftWith_suffix. Qed.

Lemma trimRight_prefix (s : Reader.bytes) : exists post, s = Reader.trimRight s ++ post.
Proof.
  unfold Reader.trimRight.
  destruct (trimLeftWith_suffix (map (@rev ascii) Reader.spaces) (List.length s) (rev s))
    as (pre & H).
  exists (rev pre). rewrite <- rev_app_distr, <- H. symmetry. apply rev_involutive.
Qed.

(** The trimmed string is a piece of the string it was cut from. *)
Lemma TrimSpace_infix (s : Reader.bytes) :
  exists pre post, s = pre ++ Reader.TrimSpace s ++ post.
Proof.
  unfold Reader.TrimSpace.
  destruct (trimLeft_suffix s) as (pre & Hl).
  destruct (trimRight_prefix (Reader.trimLeft s)) as (post & Hr).
  exists pre, post. rewrite <- Hr. exact Hl.
Qed.

Lemma TrimSpace_subset (s : Reader.bytes) (c : ascii) :
  In c (Reader.TrimSpace s) -> In c s.
Proof.
  intros H. destruct (TrimSpace_infix s) as (pre & post & Hs).
  rewrite Hs. apply in_or_app. right. apply in_or_app. left. exact H.
Qed.

(** Trimming a trimmed string changes nothing: no white space is left at
    either end. *)
Lemma TrimSpace_idempotent (s : Reader.bytes) :
  Reader.TrimSpace (Reader.TrimSpace s) = Reader.TrimSpace s.
Proof.
  unfold Reader.TrimSpace.
  set (y := Reader.trimLeft s). set (t := Reader.trimRight y).
  assert (Hy : Reader.stripOne Reader.spaces y = None).
  { apply (trimLeftWith_done Reader.spaces spaces_nonempty). apply le_n. }
  assert (Ht : Reader.stripOne (map (@rev ascii) Reader.spaces) (rev t) = None).
  { unfold t, Reader.trimRight. rewrite rev_involutive.
    apply (trimLeftWith_done _ rev_spaces_nonempty). rewrite length_rev. apply le_n. }
  assert (Hleft : Reader.trimLeft t = t).
  { apply trimLeftWith_fixed.
    destruct (Reader.stripOne Reader.spaces t) as [r|] eqn:Hs; [|reflexivity].
    exfalso. destruct (stripOne_Some Reader.spaces t r Hs) as (p & Hin & Hp).
    destruct (trimRight_prefix y) as (post & Hpost). fold t in Hpost.
    apply (stripOne_None Reader.spaces y Hy p (r ++ post) Hin).
    rewrite Hpost, Hp, <- app_assoc. reflexivity. }
  rewrite Hleft. unfold Reader.trimRight at 1.
  rewrite (trimLeftWith_fixed _ _ _ Ht). apply rev_involutive.
Qed.

(** *** Lines *)

Lemma Split_nonempty (s : Reader.bytes) : Reader.Split s <> [].
Proof.
  induction s as [|c s IH]; cbn [Reader.Split]; [discriminate|].
  destruct (Ascii.eqb c Reader.newline); [discriminate|].
  destruct (Reader.Split s); [contradiction | discriminate].
Qed.

Lemma Split_noNewline (s : Reader.bytes) : Forall noNewline (Reader.Split s).
Proof.
  induction s as [|c s IH]; cbn [Reader.Split].
  - constructor; [intros []|constructor].
  - destruct (Ascii.eqb_spec c Reader.newline) as [->|Hne].
    + constructor; [intros []|exact IH].
    + destruct (Reader.Split s) as [|l ls] eqn:Hsp; [contradiction (Split_nonempty s Hsp)|].
      inversion IH as [|? ? Hl Hls]; subst.
      constructor; [|exact Hls].
      intros [Hc|Hin]; [congruence | exact (Hl Hin)].
Qed.

Lemma Split_app_newline (l s : Reader.bytes) :
  noNewline l -> Reader.Split (l ++ Reader.newline :: s) = l :: Reader.Split s.
Proof.
  induction l as [|c l IH]; intros Hl; cbn [app Reader.Split].
  - rewrite Ascii.eqb_refl. reflexivity.
  - destruct (Ascii.eqb_spec c Reader.newline) as [->|Hne];
      [exfalso; apply Hl; left; reflexivity|].
    rewrite IH; [reflexivity|]. intros Hin. apply Hl. right. exact Hin.
Qed.

Lemma Split_line (l : Reader.bytes) : noNewline l -> Reader.Split l = [l].
Proof.
  induction l as [|c l IH]; intros Hl; cbn [Reader.Split]; [reflexivity|].
  destruct (Ascii.eqb_spec c Reader.newline) as [->|Hne];
    [exfalso; apply Hl; left; reflexivity|].
  rewrite IH; [reflexivity|]. intros Hin. apply Hl. right. exact Hin.
Qed.

(** Splitting what was joined gives the lines back. *)
Lemma Split_Join (ls : list Reader.bytes) :
  ls <> [] -> Forall noNewline ls -> Reader.Split (Reader.Join ls) = ls.
Proof.
  induction ls as [|l ls IH]; intros Hne Hall; [contradiction|].
  inversion Hall as [|? ? Hl Hls]; subst.
  destruct ls as [|l2 ls].
  - cbn [Reader.Join]. apply Split_line. exact Hl.
  - change (Reader.Join (l :: l2 :: ls)) with (l ++ Reader.newline :: Reader.Join (l2 :: ls)).
    rewrite (Split_app_newline l _ Hl), IH; [reflexivity | discriminate | exact Hls].
Qed.

(** *** The three loops *)

Lemma fold_keepLine (lines : list Reader.bytes) :
  forall (emptyCount : Z) (cleaned : list Reader.bytes),
    snd (fold_left Reader.keepLine lines (emptyCount, cleaned))
    = cleaned ++ collapse emptyCount lines.
Proof.
  induction lines as [|line lines IH]; intros emptyCount cleaned;
    cbn [fold_left collapse snd].
  - symmetry. apply app_nil_r.
  - unfold Reader.keepLine at 2.
    destruct (Reader.isEmpty (Reader.TrimSpace line)).
    + destruct (emptyCount + 1 <=? 2); rewrite IH; [|reflexivity].
      rewrite <- app_assoc. reflexivity.
    + rewrite IH, <- app_assoc. reflexivity.
Qed.

Lemma collapse_okRuns (lines : list Reader.bytes) :
  forall emptyCount, 0 <= emptyCount -> okRuns (Z.to_nat (2 - emptyCount)) (collapse emptyCount lines).
Proof.
  induction lines as [|line lines IH]; intros n Hn; cbn [collapse]; [exact I|].
  destruct (Reader.isEmpty (Reader.TrimSpace line)) eqn:He.
  - destruct (Z.leb_spec (n + 1) 2) as [Hle|Hgt].
    + cbn [okRuns Reader.isEmpty].
      replace (Z.to_nat (2 - n)) with (S (Z.to_nat (2 - (n + 1)))) by lia.
      apply IH. lia.
    + replace (Z.to_nat (2 - n)) with (Z.to_nat (2 - (n + 1))) by lia.
      apply IH. lia.
  - cbn [okRuns]. rewrite He. apply (IH 0). lia.
Qed.

Lemma okRuns_no_triple (pre post : list Reader.bytes) :
  forall k, (k <= 2)%nat -> ~ okRuns k (pre ++ [[]; []; []] ++ post).
Proof.
  induction pre as [|l pre IH]; intros k Hk H.
  - cbn in H. destruct k as [|[|[|k]]]; try exact H. lia.
  - cbn [app okRuns] in H. destruct (Reader.isEmpty l).
    + destruct k as [|k]; [exact H|]. apply (IH k); [lia | exact H].
    + apply (IH 2%nat); [lia | exact H].
Qed.

Lemma dropLeadingEmpty_suffix (ls : list Reader.bytes) :
  exists pre, ls = pre ++ Reader.dropLeadingEmpty ls.
Proof.
  induction ls as [|l ls IH]; cbn [Reader.dropLeadingEmpty]; [exists []; reflexivity|].
  destruct (Reader.isEmpty l); [|exists []; reflexivity].
  destruct IH as (pre & H). exists (l :: pre). cbn [app]. f_equal. exact H.
Qed.

Lemma dropLeadingEmpty_head (ls : list Reader.bytes) :
  match Reader.dropLeadingEmpty ls with
  | [] => True
  | l :: _ => l <> []
  end.
Proof.
  induction ls as [|l ls IH]; cbn [Reader.dropLeadingEmpty]; [exact I|].
  destruct l; cbn [Reader.isEmpty]; [exact IH | discriminate].
Qed.

Lemma dropTrailingEmpty_prefix (ls : list Reader.bytes) :
  exists post, ls = Reader.dropTrailingEmpty ls ++ post.
Proof.
  unfold Reader.dropTrailingEmpty.
  destruct (dropLeadingEmpty_suffix (rev ls)) as (pre & H).
  exists (rev pre). rewrite <- rev_app_distr, <- H. symmetry. apply rev_involutive.
Qed.

Lemma dropTrailingEmpty_last (ls : list Reader.bytes) :
  Reader.dropTrailingEmpty ls = [] \/ last (Reader.dropTrailingEmpty ls) [] <> [].
Proof.
  unfold Reader.dropTrailingEmpty.
  pose proof (dropLeadingEmpty_head (rev ls)) as H.
  destruct (Reader.dropLeadingEmpty (rev ls)) as [|l r]; [left; reflexivity|].
  right. cbn [rev]. rewrite last_last. exact H.
Qed.

(** The lines [cleanMarkdown] joins sit inside the lines the first loop
    keeps. *)
Lemma cleanLines_infix (markdown : Reader.bytes) :
  exists pre post,
    collapse 0 (Reader.Split markdown) = pre ++ Reader.cleanLines markdown ++ post.
Proof.
  unfold Reader.cleanLines. rewrite fold_keepLine. cbn [app].
  destruct (dropLeadingEmpty_suffix (collapse 0 (Reader.Split markdown))) as (pre & Hpre).
  destruct (dropTrailingEmpty_prefix
              (Reader.dropLeadingEmpty (collapse 0 (Reader.Split markdown))))
    as (post & Hpost).
  exists pre, post. rewrite <- Hpost. exact Hpre.
Qed.

(** Every line the first loop keeps is empty or a trimmed line of the input. *)
Lemma collapse_lines (lines : list Reader.bytes) :
  forall emptyCount,
    Forall (fun l => l = [] \/ exists l0, In l0 lines /\ l = Reader.TrimSpace l0)
           (collapse emptyCount lines).
Proof.
  induction lines as [|line lines IH]; intros n; cbn [collapse]; [constructor|].
  assert (Hrest : forall m,
            Forall (fun l => l = [] \/
                     exists l0, In l0 (line :: lines) /\ l = Reader.TrimSpace l0)
                   (collapse m lines)).
  { intros m. eapply Forall_impl; [|apply (IH m)].
    intros l [Hl|(l0 & Hin & Hl)]; [left; exact Hl|].
    right. exists l0. split; [right; exact Hin | exact Hl]. }
  destruct (Reader.isEmpty (Reader.TrimSpace line)).
  - destruct (n + 1 <=? 2); [constructor; [left; reflexivity|]|]; apply Hrest.
  - constructor; [|apply Hrest].
    right. exists line. split; [left; reflexivity | reflexivity].
Qed.

Lemma Forall_infix (A : Type) (P : A -> Prop) (pre mid post : list A) :
  Forall P (pre ++ mid ++ post) -> Forall P mid.
Proof.
  intros H. apply Forall_app in H. destruct H as [_ H].
  apply Forall_app in H. exact (proj1 H).
Qed.

Lemma cleanLines_lines (markdown : Reader.bytes) :
  Forall (fun l => l = [] \/
            exists l0, In l0 (Reader.Split markdown) /\ l = Reader.TrimSpace l0)
         (Reader.cleanLines markdown).
Proof.
  destruct (cleanLines_infix markdown) as (pre & post & H).
  apply (Forall_infix _ _ pre _ post). rewrite <- H. apply collapse_lines.
Qed.

Lemma cleanLines_noNewline (markdown : Reader.bytes) :
  Forall noNewline (Reader.cleanLines markdown).
Proof.
  eapply Forall_impl; [|apply cleanLines_lines].
  intros l [->|(l0 & Hin & ->)]; [intros []|].
  intros Hc. apply TrimSpace_subset in Hc.
  pose proof (Split_noNewline markdown) as Hall.
  rewrite Forall_forall in Hall. exact (Hall l0 Hin Hc).
Qed.

Lemma cleanLines_trimmed (markdown : Reader.bytes) :
  Forall (fun l => Reader.TrimSpace l = l) (Reader.cleanLines markdown).
Proof.
  eapply Forall_impl; [|apply cleanLines_lines].
  intros l [->|(l0 & _ & ->)]; [reflexivity | apply TrimSpace_idempotent].
Qed.

Lemma cleanLines_no_triple (markdown : Reader.bytes) (pre post : list Reader.bytes) :
  Reader.cleanLines markdown <> pre ++ [[]; []; []] ++ post.
Proof.
  intros H. destruct (cleanLines_infix markdown) as (pre0 & post0 & Hc).
  apply (okRuns_no_triple (pre0 ++ pre) (post ++ post0) 2 (le_n 2)).
  replace ((pre0 ++ pre) ++ [[]; []; []] ++ post ++ post0)
    with (pre0 ++ (pre ++ [[]; []; []] ++ post) ++ post0)
    by (rewrite <- !app_assoc; reflexivity).
  rewrite <- H, <- Hc. apply (collapse_okRuns (Reader.Split markdown) 0). lia.
Qed.

Lemma cleanLines_ends (markdown : Reader.bytes) :
  Reader.cleanLines markdown = []
  \/ (hd [] (Reader.cleanLines markdown) <> [] /\ last (Reader.cleanLines markdown) [] <> []).
Proof.
  unfold Reader.cleanLines.
  set (cleaned := snd (fold_left Reader.keepLine (Reader.Split markdown) (0, []))).
  destruct (dropTrailingEmpty_last (Reader.dropLeadingEmpty cleaned)) as [H|Hlast];
    [left; exact H|].
  destruct (Reader.dropTrailingEmpty (Reader.dropLeadingEmpty cleaned)) as [|l r] eqn:Hd;
    [left; reflexivity|].
  right. split; [|exact Hlast].
  destruct (dropTrailingEmpty_prefix (Reader.dropLeadingEmpty cleaned)) as (post & Hp).
  rewrite Hd in Hp. pose proof (dropLeadingEmpty_head cleaned) as Hh.
  rewrite Hp in Hh. exact Hh.
Qed.

Lemma filter_collapse (ls : list Reader.bytes) :
  forall n, filter nonEmpty (collapse n ls) = filter nonEmpty (map Reader.TrimSpace ls).
Proof.
  induction ls as [|l ls IH]; intros n; [reflexivity|].
  cbn [collapse map filter]. unfold nonEmpty at 2.
  destruct (Reader.isEmpty (Reader.TrimSpace l)) eqn:He; cbn [negb].
  - destruct (n + 1 <=? 2); [cbn [filter nonEmpty Reader.isEmpty negb]|]; apply IH.
  - cbn [filter]. unfold nonEmpty at 1. rewrite He. cbn [negb]. f_equal. apply IH.
Qed.

Lemma filter_dropLeadingEmpty (ls : list Reader.bytes) :
  filter nonEmpty (Reader.dropLeadingEmpty ls) = filter nonEmpty ls.
Proof.
  induction ls as [|l ls IH]; [reflexivity|].
  assert (Hn : nonEmpty l = negb (Reader.isEmpty l)) by reflexivity.
  cbn [Reader.dropLeadingEmpty]. destruct (Reader.isEmpty l) eqn:He.
  - rewrite IH. cbn [filter]. rewrite Hn. reflexivity.
  - reflexivity.
Qed.

Lemma filter_rev_lines (f : Reader.bytes -> bool) (ls : list Reader.bytes) :
  filter f (rev ls) = rev (filter f ls).
Proof.
  induction ls as [|l ls IH]; [reflexivity|]. cbn [rev filter].
  rewrite filter_app, IH. cbn [filter]. destruct (f l); [reflexivity | apply app_nil_r].
Qed.

Lemma filter_dropTrailingEmpty (ls : list Reader.bytes) :
  filter nonEmpty (Reader.dropTrailingEmpty ls) = filter nonEmpty ls.
Proof.
  unfold Reader.dropTrailingEmpty.
  rewrite filter_rev_lines, filter_dropLeadingEmpty, filter_rev_lines.
  apply rev_involutive.
Qed.

(** The lines of text of the cleaned lines are those of the input, trimmed. *)
Lemma cleanLines_text (markdown : Reader.bytes) :
  filter nonEmpty (Reader.cleanLines markdown)
  = filter nonEmpty (map Reader.TrimSpace (Reader.Split markdown)).
Proof.
  unfold Reader.cleanLines. rewrite fold_keepLine. cbn [app].
  rewrite filter_dropTrailingEmpty, filter_dropLeadingEmpty. apply filter_collapse.
Qed.

(** The first loop caps each count of empty lines at two. *)
Lemma gapsFrom_collapse (ls : list Reader.bytes) :
  forall n : nat,
    gapsFrom (Nat.min 2 n) (collapse (Z.of_nat n) ls)
    = map (Nat.min 2) (gapsFrom n (map Reader.TrimSpace ls)).
Proof.
  induction ls as [|l ls IH]; intros n; [reflexivity|].
  cbn [collapse map gapsFrom].
  destruct (Reader.isEmpty (Reader.TrimSpace l)) eqn:He.
  - replace (Z.of_nat n + 1) with (Z.of_nat (S n)) by lia.
    destruct (Z.leb_spec (Z.of_nat (S n)) 2) as [Hle|Hgt].
    + cbn [gapsFrom Reader.isEmpty]. rewrite <- IH. f_equal. lia.
    + rewrite <- IH. f_equal. lia.
  - cbn [gapsFrom]. rewrite He. cbn [map]. f_equal. exact (IH 0%nat).
Qed.

Lemma gapsFrom_dropLeadingEmpty (ls : list Reader.bytes) :
  forall a b : nat,
    tl (gapsFrom a (Reader.dropLeadingEmpty ls)) = tl (gapsFrom b ls).
Proof.
  induction ls as [|l ls IH]; intros a b; [reflexivity|].
  cbn [Reader.dropLeadingEmpty gapsFrom].
  destruct (Reader.isEmpty l) eqn:He; [apply IH|].
  cbn [gapsFrom]. rewrite He. reflexivity.
Qed.

Lemma gapsFrom_blank (post : list Reader.bytes) :
  Forall (fun l => Reader.isEmpty l = true) post ->
  forall n, gapsFrom n post = [].
Proof.
  induction 1 as [|l post Hl _ IH]; intros n; [reflexivity|].
  cbn [gapsFrom]. rewrite Hl. apply IH.
Qed.

Lemma gapsFrom_app_blank (ls post : list Reader.bytes) :
  Forall (fun l => Reader.isEmpty l = true) post ->
  forall n, gapsFrom n (ls ++ post) = gapsFrom n ls.
Proof.
  intros Hpost. induction ls as [|l ls IH]; intros n; cbn [app gapsFrom].
  - apply gapsFrom_blank. exact Hpost.
  - destruct (Reader.isEmpty l); [apply IH | f_equal; apply IH].
Qed.

Lemma dropLeadingEmpty_blank (ls : list Reader.bytes) :
  exists pre,
    ls = pre ++ Reader.dropLeadingEmpty ls
    /\ Forall (fun l => Reader.isEmpty l = true) pre.
Proof.
  induction ls as [|l ls IH]; cbn [Reader.dropLeadingEmpty];
    [exists []; split; [reflexivity | constructor]|].
  destruct (Reader.isEmpty l) eqn:He; [|exists []; split; [reflexivity | constructor]].
  destruct IH as (pre & H & Hall). exists (l :: pre). split.
  - cbn [app]. f_equal. exact H.
  - constructor; assumption.
Qed.

Lemma gapsFrom_dropTrailingEmpty (ls : list Reader.bytes) (n : nat) :
  gapsFrom n (Reader.dropTrailingEmpty ls) = gapsFrom n ls.
Proof.
  unfold Reader.dropTrailingEmpty.
  destruct (dropLeadingEmpty_blank (rev ls)) as (pre & H & Hall).
  assert (Hls : ls = rev (Reader.dropLeadingEmpty (rev ls)) ++ rev pre).
  { rewrite <- rev_app_distr, <- H. symmetry. apply rev_involutive. }
  rewrite Hls at 2. symmetry. apply gapsFrom_app_blank.
  apply Forall_rev. exact Hall.
Qed.

(** Between two lines of text the cleaned lines have as many empty lines as
    the input has, and two when it has more. *)
Lemma cleanLines_gaps (markdown : Reader.bytes) :
  gaps (Reader.cleanLines markdown)
  = map (Nat.min 2) (gaps (map Reader.TrimSpace (Reader.Split markdown))).
Proof.
  unfold gaps, Reader.cleanLines. rewrite fold_keepLine. cbn [app].
  rewrite gapsFrom_dropTrailingEmpty.
  rewrite (gapsFrom_dropLeadingEmpty _ 0 0).
  pose proof (gapsFrom_collapse (Reader.Split markdown) 0) as H.
  cbn [Nat.min Z.of_nat] in H. rewrite H.
  destruct (gapsFrom 0 (map Reader.TrimSpace (Reader.Split markdown))); reflexivity.
Qed.

(** C9: the lines of the output of [cleanMarkdown] are the lines of the
    input with the white space around each of them trimmed, the runs of
    empty lines cut to two, and the empty lines at both ends of the document
    dropped. The lines of text are those of the input, trimmed, in their
    order, none dropped and none added; between two lines of text that
    follow each other there are as many empty lines as in the input, and two
    where the input has more, so that one or two empty lines stay as they
    are. Every line is left as it is by [TrimSpace], and is empty or the
    trimmed form of a line of the input; no three lines in a row are empty;
    and the document is empty, or its first and its last line are not. *)
Theorem cleanMarkdown_trims_and_collapses (markdown : string) :
  Forall (fun l => Reader.TrimSpace l = l) (outputLines markdown)
  /\ Forall (fun l => l = [] \/
               exists l0, In l0 (Reader.Split (list_ascii_of_string markdown))
                          /\ l = Reader.TrimSpace l0)
            (outputLines markdown)
  /\ (forall pre post, outputLines markdown <> pre ++ [[]; []; []] ++ post)
  /\ (cleanMarkdown markdown = ""
      \/ (hd [] (outputLines markdown) <> [] /\ last (outputLines markdown) [] <> []))
  /\ filter nonEmpty (outputLines markdown)
     = filter nonEmpty (map Reader.TrimSpace
                            (Reader.Split (list_ascii_of_string markdown)))
  /\ gaps (outputLines markdown)
     = map (Nat.min 2)
           (gaps (map Reader.TrimSpace (Reader.Split (list_ascii_of_string markdown)))).
Proof.
  unfold outputLines, cleanMarkdown.
  rewrite list_ascii_of_string_of_list_ascii.
  set (input := list_ascii_of_string markdown).
  rewrite <- (cleanLines_text input), <- (cleanLines_gaps input).
  unfold Reader.cleanBytes.
  destruct (Reader.cleanLines input) as [|l ls] eqn:Hlines.
  - cbn. repeat split.
    + repeat constructor.
    + repeat constructor.
    + intros pre post H. destruct pre as [|x [|y pre]]; discriminate H.
    + left. reflexivity.
  - rewrite Split_Join;
      [| discriminate | rewrite <- Hlines; apply cleanLines_noNewline].
    rewrite <- Hlines. repeat split.
    + apply cleanLines_trimmed.
    + apply cleanLines_lines.
    + apply cleanLines_no_triple.
    + right. destruct (cleanLines_ends input) as [H|H]; [congruence | exact H].
Qed.

(** * Concrete runs *)

(** ** The rate limiter *)

(** C1 fails as stated: 150 ms after the last refill, with an interval of
    100 ms, one token is added and the timestamp moves to the current time,
    150 ms, not to the 100 ms that one whole interval would give; the 50 ms
    left over are lost. *)
Lemma refill_drops_the_fraction :
  refill (limiter exClientEmpty) (150 * millisecond)
  = Some {| tokens := 1; maxTokens := 10;
            refillRate := 100 * millisecond; lastRefill := 150 * millisecond |}
  /\ 150 * millisecond
     <> lastRefill (limiter exClientEmpty)
        + (time_Sub (150 * millisecond) (lastRefill (limiter exClientEmpty))
           / refillRate (limiter exClientEmpty))
          * refillRate (limiter exClientEmpty).
Proof.
  split; [reflexivity | discriminate].
Qed.

Lemma refill_adds_floor_and_resets_clock_witness :
  refill (limiter exClientEmpty) (250 * millisecond)
  = Some {| tokens := 2; maxTokens := 10;
            refillRate := 100 * millisecond; lastRefill := 250 * millisecond |}.
Proof.
  apply (refill_adds_floor_and_resets_clock (limiter exClientEmpty) (250 * millisecond)).
  - reflexivity.
  - discriminate.
  - split; discriminate.
Defined.

(** C7 at work: the ten tokens are spent, the context is cancelled 50 ms
    after the last refill. *)
Lemma cancelled_wait_consumes_nothing_witness :
  wait 1 (w_env exWorldWaiting) 0 (limiter exClientEmpty)
    = (Fail context_Canceled, limiter exClientEmpty)
  /\ result (exSearch 1 exClientEmpty exWorldWaiting exRequest)
      = Fail (Wrapped "request timeout: context canceled" [ErrTimeout; context_Canceled])
  /\ trace (exSearch 1 exClientEmpty exWorldWaiting exRequest) = [].
Proof.
  pose proof (@cancelled_wait_consumes_nothing exLibrary exCodec
                exClientEmpty exWorldWaiting exRequest context_Canceled 0 1) as H.
  destruct H as (Hwait & _ & Hres & _ & Htrace & _).
  - reflexivity.
  - discriminate.
  - intros j _. reflexivity.
  - intros j Hj. inversion Hj.
  - reflexivity.
  - constructor.
  - split; [exact Hwait | split; [exact Hres | exact Htrace]].
Defined.

(** ** The retry loop *)

(** C5 at work: the default configuration, three retries, a backend that
    always answers 500. Four requests go out, the sleeps are of one, two and
    three seconds, and the error is [ErrRequestFailed] around the last
    answer. *)
Lemma search_exhausts_retries_witness :
  result (exSearch 5 exClient exWorld500 exRequest)
    = Fail (Wrapped "search request failed: HTTP 500: Internal Server Error"
                    [ErrRequestFailed; Opaque "HTTP 500: Internal Server Error"])
  /\ requestsSent (trace (exSearch 5 exClient exWorld500 exRequest)) = 4%nat
  /\ sleeps (trace (exSearch 5 exClient exWorld500 exRequest))
      = [1 * second; 2 * second; 3 * second].
Proof.
  pose proof (@search_exhausts_retries exLibrary exCodec
                exClient exWorld500 exRequest 5
                {| tokens := 9; maxTokens := 10;
                   refillRate := 100 * millisecond; lastRefill := 0 |}
                "https://searxng.example.com/search?format=json&q=test"
                (fun _ => Opaque "HTTP 500: Internal Server Error")) as H.
  destruct H as (Hres & _ & _ & Hsent & Hsleeps & _).
  - discriminate.
  - discriminate.
  - reflexivity.
  - reflexivity.
  - reflexivity.
  - intros j _. split; reflexivity.
  - apply le_n.
  - split; [exact Hres | split; [exact Hsent | exact Hsleeps]].
Defined.

(** C6 at work: the first attempt is answered with status 500, the second
    fails with a cancelled context. The call returns that error after two
    requests and one sleep, with two of its four attempts unused. *)
Lemma context_error_stops_retries_witness :
  (result (exSearch 5 exClient exWorldCancelled exRequest)
     = Fail (Wrapped "HTTP request failed: Get https://searxng.example.com/search: context canceled"
               [Wrapped "Get https://searxng.example.com/search: context canceled"
                        [context_Canceled]])
   /\ requestsSent (trace (exSearch 5 exClient exWorldCancelled exRequest)) = 2%nat
   /\ List.length (sleeps (trace (exSearch 5 exClient exWorldCancelled exRequest)))
       = 1%nat)
  /\ (requestsSent (trace (exSearchJSON 5 exClient exWorldCancelled exRequest)) = 2%nat
      /\ List.length (sleeps (trace (exSearchJSON 5 exClient exWorldCancelled exRequest)))
          = 1%nat).
Proof.
  pose (cause := fun j : nat =>
                   match j with
                   | O => Opaque "HTTP 500: Internal Server Error"
                   | S _ => Wrapped "HTTP request failed: Get https://searxng.example.com/search: context canceled"
                              [Wrapped "Get https://searxng.example.com/search: context canceled"
                                       [context_Canceled]]
                   end).
  pose (rl' := {| tokens := 9; maxTokens := 10;
                  refillRate := 100 * millisecond; lastRefill := 0 |}).
  split.
  - pose proof (proj1 (@context_error_stops_retries exLibrary exCodec)
                  exClient exWorldCancelled exRequest 5%nat rl'
                  "https://searxng.example.com/search?format=json&q=test"
                  cause 1%nat) as H.
    destruct H as (Hres & _ & Hsent & Hsleeps).
    + reflexivity.
    + discriminate.
    + reflexivity.
    + reflexivity.
    + reflexivity.
    + intros j Hj. destruct j as [|j]; [split; reflexivity|].
      apply Nat.succ_lt_mono in Hj. inversion Hj.
    + reflexivity.
    + reflexivity.
    + repeat constructor.
    + split; [exact Hres | split; [exact Hsent | exact Hsleeps]].
  - pose proof (proj2 (@context_error_stops_retries exLibrary exCodec)
                  exClient exWorldCancelled exRequest 5%nat rl'
                  "https://searxng.example.com" "https://searxng.example.com/search" "{}"
                  cause 1%nat) as H.
    destruct H as (_ & _ & Hsent & Hsleeps).
    + reflexivity.
    + discriminate.
    + reflexivity.
    + reflexivity.
    + reflexivity.
    + reflexivity.
    + reflexivity.
    + intros j Hj. destruct j as [|j]; [split; reflexivity|].
      apply Nat.succ_lt_mono in Hj. inversion Hj.
    + reflexivity.
    + reflexivity.
    + repeat constructor.
    + split; [exact Hsent | exact Hsleeps].
Defined.

(** ** The normalizer *)

(** C3, at a payload in which every sequence is missing, as a body without
    these keys decodes: [toSearchResponse] makes the results an empty slice
    that is not nil, and leaves the five other sequences nil, not empty. A
    call of [Search] that is answered with such a body returns a response
    whose suggestions, answers and corrections are nil, which the test of
    the repository on these three fields does not accept. *)
Theorem missing_sequences_stay_nil :
  Results (toSearchResponse exPayload) = Some []
  /\ Answers (toSearchResponse exPayload) = None
  /\ Corrections (toSearchResponse exPayload) = None
  /\ Suggestions (toSearchResponse exPayload) = None
  /\ Infoboxes (toSearchResponse exPayload) = None
  /\ UnresponsiveEngines (toSearchResponse exPayload) = None
  /\ Answers (toSearchResponse exPayload) <> Some []
  /\ exists resp,
       result (@Search exLibrary exCodecOK 5 exClient exWorld200 exRequest) = Ret resp
       /\ isNil (Suggestions resp) = true
       /\ isNil (Answers resp) = true
       /\ isNil (Corrections resp) = true.
Proof.
  repeat split; try reflexivity; try discriminate.
  eexists. repeat split; reflexivity.
Qed.

(** ** The published date *)

(** C8 fails as stated: a timestamp without a zone, the second of the
    formats the claim names, is accepted by none of the four layouts, while
    what the second layout accepts, the timestamp with the letter Z, is
    what RFC 3339 accepts already. *)
Lemma timestamp_without_zone_is_absent :
  @parsePublishedDate exLibrary "2024-01-15T10:30:00" = None
  /\ GoTime.Parse "2006-01-02T15:04:05Z07:00" "2024-01-15T10:30:00" = None
  /\ GoTime.Parse "2006-01-02T15:04:05Z" "2024-01-15T10:30:00" = None
  /\ GoTime.Parse "2006-01-02 15:04:05" "2024-01-15T10:30:00" = None
  /\ GoTime.Parse "2006-01-02" "2024-01-15T10:30:00" = None
  /\ GoTime.Parse "2006-01-02T15:04:05Z" "2024-01-15T10:30:00Z"
     = GoTime.Parse "2006-01-02T15:04:05Z07:00" "2024-01-15T10:30:00Z".
Proof.
  repeat split; vm_compute; reflexivity.
Qed.

(** ** The web_search tool *)

(** C10 fails as stated: a call without arguments has no query, and the
    handler answers "invalid arguments format". *)
Lemma no_arguments_is_another_tool_error :
  exHandleWebSearch 5 exClient exWorld500 ANil
    = (Ret (NewToolResultError "invalid arguments format"), None)
  /\ NewToolResultError "invalid arguments format"
     <> NewToolResultError "query is required".
Proof.
  split; [reflexivity | discriminate].
Qed.

(** C10 at work: an empty map, an empty query and a query that is a number. *)
Lemma missing_query_is_a_tool_error_witness :
  exHandleWebSearch 5 exClient exWorld500 (AMap [])
    = (Ret (NewToolResultError "query is required"), None)
  /\ exHandleWebSearch 5 exClient exWorld500 (AMap [("query", AString "")])
      = (Ret (NewToolResultError "query is required"), None)
  /\ exHandleWebSearch 5 exClient exWorld500 (AMap [("query", AInt 123)])
      = (Ret (NewToolResultError "query is required"), None).
Proof.
  pose proof (proj1 (@missing_query_is_a_tool_error exLibrary exCodec
                       5%nat exClient exWorld500)) as H.
  split; [|split].
  - apply H. left. reflexivity.
  - apply H. right. reflexivity.
  - apply H. left. reflexivity.
Defined.

(** ** Runs of the model *)

(** The URL of a request with filters: the parameters come out sorted by
    key, the page only because it is above 1. *)
Example buildSearchURL_with_filters :
  @buildSearchURL exLibrary exClient
    {| req_Query := "golang news"; req_Limit := 5; req_Page := 2;
       req_TimeRange := "day"; req_Category := "news"; req_Language := "";
       req_Engines := Some ["google"; "bing"] |}
  = Ret "https://searxng.example.com/search?category=news&engines=google&engines=bing&format=json&pageno=2&q=golang+news&time_range=day".
Proof. reflexivity. Qed.

(** The whole trace of the call against the backend that always answers
    500: the first request at once, then three retries, each after its log
    line and its sleep. *)
Example trace_of_exhausted_retries :
  trace (exSearch 5 exClient exWorld500 exRequest)
  = let q := getRequest exClient "https://searxng.example.com/search?format=json&q=test" in
    [EvDebug "performing search"
       [("query", LString "test"); ("limit", LInt 5); ("page", LInt 1)];
     EvHTTP q;
     EvDebug "retrying search request" [("attempt", LInt 1)]; EvSleep 1000000000; EvHTTP q;
     EvDebug "retrying search request" [("attempt", LInt 2)]; EvSleep 2000000000; EvHTTP q;
     EvDebug "retrying search request" [("attempt", LInt 3)]; EvSleep 3000000000; EvHTTP q].
Proof. reflexivity. Qed.

(** Ten callers in a row get a token at once from a fresh limiter; the
    eleventh finds none. *)
Example limiter_bursts_to_capacity :
  let env := {| clock := fun _ => 0; selectAt := fun _ => CtxDone context_Canceled |} in
  let take := fun rl => snd (wait 1 env 0 rl) in
  let spent := Nat.iter 10 take (newRateLimiter 10 (100 * millisecond) 0) in
  tokens spent = 0 /\ fst (wait 1 env 0 spent) = Fail context_Canceled.
Proof. split; reflexivity. Qed.

(** A document with white space around its lines and long runs of empty
    lines, cleaned. *)
Example cleanMarkdown_document :
  cleanMarkdown (String.concat (String (ascii_of_nat 10) EmptyString)
                   [""; "  # Title  "; " "; "text  here  "; ""; ""; " "; "";
                    "more"; "last "; ""; ""])
  = String.concat (String (ascii_of_nat 10) EmptyString)
      ["# Title"; ""; "text  here"; ""; ""; "more"; "last"].
Proof. reflexivity. Qed.

(** What [time.Parse] makes of a timestamp with a zone and a fraction of a
    second, and of a day that the month does not have. *)
Example time_Parse_with_zone :
  GoTime.Parse time_RFC3339 "2024-01-15T10:30:00.25+02:00"
  = Some (mkTime 2024 1 15 10 30 0 250000000 7200)
  /\ GoTime.Parse layoutDate "2024-02-30" = None.
Proof. split; reflexivity. Qed.

(** * Further properties *)

(** ** The rate limiter, call after call *)

Lemma tokensToAdd_quot (rl : rateLimiter) (now : Z) :
  0 < refillRate rl ->
  tokensToAdd rl now = Z.quot (time_Sub now (lastRefill rl)) (refillRate rl).
Proof.
  intros Hr. unfold tokensToAdd. apply wrap64_id.
  pose proof (time_Sub_range now (lastRefill rl)) as [Hlo Hhi].
  set (e := time_Sub now (lastRefill rl)) in *.
  unfold inInt64. destruct (Z_le_gt_dec 0 e) as [Hp|Hn].
  - rewrite Z.quot_div_nonneg by lia.
    pose proof (Z.div_pos e (refillRate rl) Hp Hr).
    assert (e / refillRate rl <= e) by (apply Z.div_le_upper_bound; nia).
    unfold minInt64 in *. lia.
  - assert (Hq : Z.quot e (refillRate rl) = - ((- e) / refillRate rl)).
    { rewrite <- (Z.opp_involutive e) at 1. rewrite Z.quot_opp_l by lia.
      rewrite Z.quot_div_nonneg by lia. reflexivity. }
    rewrite Hq.
    pose proof (Z.div_pos (- e) (refillRate rl) ltac:(lia) Hr).
    assert (- e / refillRate rl <= - e) by (apply Z.div_le_upper_bound; nia).
    unfold maxInt64 in *. lia.
Qed.

(** A refill never takes tokens away and keeps the limiter in order. *)
Lemma refill_ok (rl : rateLimiter) (now : Z) :
  limiterOK rl ->
  exists rl1,
    refill rl now = Some rl1
    /\ limiterOK rl1
    /\ tokens rl <= tokens rl1
    /\ maxTokens rl1 = maxTokens rl
    /\ refillRate rl1 = refillRate rl.
Proof.
  intros ((Hr & Hr') & Ht & Hcap). unfold refill.
  replace (refillRate rl =? 0) with false by (symmetry; apply Z.eqb_neq; lia).
  cbv zeta. destruct (Z.ltb_spec 0 (tokensToAdd rl now)) as [Hk|Hk].
  2: { exists rl. repeat split; try assumption; lia. }
  rewrite (tokensToAdd_quot rl now Hr) in *.
  pose proof (time_Sub_range now (lastRefill rl)) as [Hlo Hhi].
  set (e := time_Sub now (lastRefill rl)) in *.
  assert (He : 0 <= e).
  { destruct (Z_le_gt_dec 0 e) as [H|H]; [exact H|].
    assert (Z.quot e (refillRate rl) <= 0) by (apply Z.quot_le_upper_bound; lia). lia. }
  rewrite Z.quot_div_nonneg in * by lia.
  assert (Hle : e / refillRate rl <= maxInt64 / refillRate rl)
    by (apply Z.div_le_mono; lia).
  rewrite wrap64_id by (unfold inInt64, minInt64; lia).
  eexists. split; [reflexivity|]. cbn [tokens maxTokens refillRate].
  unfold limiterOK. cbn [tokens maxTokens refillRate]. repeat split; lia.
Qed.

(** X1: whatever a call of [wait] observes and however it ends, it leaves
    the token count between 0 and the capacity. *)
Theorem wait_keeps_tokens_in_range (fuel : nat) (env : waitEnv) :
  forall (i : nat) (rl : rateLimiter),
    limiterOK rl ->
    limiterOK (snd (wait fuel env i rl))
    /\ maxTokens (snd (wait fuel env i rl)) = maxTokens rl
    /\ refillRate (snd (wait fuel env i rl)) = refillRate rl.
Proof.
  induction fuel as [|fuel IH]; intros i rl Hok; cbn [wait].
  - split; [exact Hok | split; reflexivity].
  - destruct (refill_ok rl (clock env i) Hok) as (rl1 & Hrf & Hok1 & Hmono & Hmax & Hrate).
    rewrite Hrf. destruct (Z.ltb_spec 0 (tokens rl1)) as [Hpos|Hzero].
    + cbn [snd maxTokens refillRate]. destruct Hok1 as (Hr & Ht & Hcap).
      split; [|split; assumption].
      unfold limiterOK. cbn [tokens maxTokens refillRate].
      repeat split; try assumption; lia.
    + destruct (selectAt env i).
      * destruct (IH (S i) rl1 Hok1) as (H1 & H2 & H3).
        split; [exact H1 | split; congruence].
      * cbn [snd]. split; [exact Hok1 | split; assumption].
Qed.

Lemma wait_keeps_tokens_in_range_witness :
  limiterOK (snd (wait 3 (w_env exWorldWaiting) 0 (limiter exClientEmpty))).
Proof.
  apply (wait_keeps_tokens_in_range 3 (w_env exWorldWaiting) 0 (limiter exClientEmpty)).
  unfold limiterOK. cbn. repeat split; discriminate.
Defined.

(** A caller that finds a token takes it in its first pass. *)
Lemma wait_takes_token (env : waitEnv) (i : nat) (rl : rateLimiter) :
  limiterOK rl -> 0 < tokens rl ->
  exists rl1,
    wait 1 env i rl = (Ret tt, rl1)
    /\ limiterOK rl1
    /\ tokens rl - 1 <= tokens rl1.
Proof.
  intros Hok Hpos. cbn [wait].
  destruct (refill_ok rl (clock env i) Hok) as (rl1 & Hrf & Hok1 & Hmono & Hmax & Hrate).
  rewrite Hrf.
  replace (0 <? tokens rl1) with true by (symmetry; apply Z.ltb_lt; lia).
  eexists. split; [reflexivity|].
  destruct Hok1 as (Hr & Ht & Hcap). cbn [tokens]. split; [|lia].
  unfold limiterOK. cbn [tokens maxTokens refillRate].
  repeat split; try assumption; lia.
Qed.

(** X2: a limiter that holds n tokens serves n calls in a row without making
    any of them wait, whatever the clock shows. *)
Theorem burst_up_to_tokens (envs : list waitEnv) :
  forall rl : rateLimiter,
    limiterOK rl ->
    Z.of_nat (List.length envs) <= tokens rl ->
    fst (waitEach envs rl) = repeat (Ret tt) (List.length envs)
    /\ tokens rl - Z.of_nat (List.length envs) <= tokens (snd (waitEach envs rl)).
Proof.
  induction envs as [|env envs IH]; intros rl Hok Hn.
  - cbn. split; [reflexivity | lia].
  - cbn [List.length] in Hn. cbn [waitEach List.length repeat].
    destruct (wait_takes_token env 0 rl Hok ltac:(lia)) as (rl1 & Hw & Hok1 & Hge).
    rewrite Hw. destruct (IH rl1 Hok1 ltac:(lia)) as [Hfst Hsnd].
    destruct (waitEach envs rl1) as [os rl2]. cbn [fst snd] in *.
    split; [rewrite Hfst; reflexivity | lia].
Qed.

Lemma burst_up_to_tokens_witness :
  fst (waitEach (repeat (w_env exWorldWaiting) 10) (limiter exClient))
  = repeat (Ret tt) 10.
Proof.
  apply (burst_up_to_tokens (repeat (w_env exWorldWaiting) 10) (limiter exClient)).
  - unfold limiterOK. cbn. repeat split; discriminate.
  - discriminate.
Defined.

(** X3: a caller that finds the limiter empty waits for the timer, and when
    the clock then shows that one interval or more has gone by since the
    last refill, it gets a token in its second pass: the limiter is refilled
    with the whole intervals gone by, up to the capacity, one token is
    taken, and the refill is stamped with the time of that pass. *)
Theorem token_after_one_interval (env : waitEnv) (rl : rateLimiter) :
  limiterOK rl ->
  tokens rl = 0 ->
  0 < maxTokens rl ->
  clock env 0 - lastRefill rl < refillRate rl ->
  selectAt env 0 = TimerFired ->
  lastRefill rl + refillRate rl <= clock env 1 ->
  wait 2 env 0 rl
  = (Ret tt,
     {| tokens := Z.min (maxTokens rl)
                    (time_Sub (clock env 1) (lastRefill rl) / refillRate rl) - 1;
        maxTokens := maxTokens rl;
        refillRate := refillRate rl;
        lastRefill := clock env 1 |})
  /\ 0 <= Z.min (maxTokens rl)
            (time_Sub (clock env 1) (lastRefill rl) / refillRate rl) - 1.
Proof.
  intros Hok Ht Hmax Hearly Htimer Hlate.
  destruct Hok as ((Hr & Hr') & Hrange & Hcap).
  assert (Hk : 1 <= time_Sub (clock env 1) (lastRefill rl) / refillRate rl).
  { apply Z.div_le_lower_bound; [exact Hr|].
    unfold time_Sub, minInt64. unfold maxInt64 in *. lia. }
  assert (Hfit : inInt64 (tokens rl + time_Sub (clock env 1) (lastRefill rl) / refillRate rl)).
  { pose proof (time_Sub_range (clock env 1) (lastRefill rl)) as [_ Hhi].
    assert (time_Sub (clock env 1) (lastRefill rl) / refillRate rl
            <= maxInt64 / refillRate rl) by (apply Z.div_le_mono; lia).
    unfold inInt64, minInt64. lia. }
  split; [|lia].
  cbn [wait]. rewrite (refill_not_due rl (clock env 0) Hr Hearly).
  rewrite Ht. cbn [Z.ltb Z.compare]. rewrite Htimer.
  assert (Hrefill : refill rl (clock env 1)
          = Some {| tokens := Z.min (maxTokens rl)
                                (time_Sub (clock env 1) (lastRefill rl) / refillRate rl);
                    maxTokens := maxTokens rl;
                    refillRate := refillRate rl;
                    lastRefill := clock env 1 |}).
  { unfold refill.
    replace (refillRate rl =? 0) with false by (symmetry; apply Z.eqb_neq; lia).
    cbv zeta. rewrite (tokensToAdd_floor rl (clock env 1) Hr) by lia.
    replace (0 <? time_Sub (clock env 1) (lastRefill rl) / refillRate rl) with true
      by (symmetry; apply Z.ltb_lt; lia).
    rewrite (wrap64_id _ Hfit), Ht. reflexivity. }
  rewrite Hrefill. cbn [tokens maxTokens refillRate lastRefill].
  replace (0 <? Z.min (maxTokens rl)
                  (time_Sub (clock env 1) (lastRefill rl) / refillRate rl)) with true
    by (symmetry; apply Z.ltb_lt; lia).
  reflexivity.
Qed.

Lemma token_after_one_interval_witness :
  wait 2 {| clock := fun i => Z.of_nat i * (250 * millisecond);
            selectAt := fun _ => TimerFired |} 0 (limiter exClientEmpty)
  = (Ret tt, {| tokens := 1; maxTokens := 10;
                refillRate := 100 * millisecond; lastRefill := 250 * millisecond |}).
Proof.
  apply (token_after_one_interval
           {| clock := fun i => Z.of_nat i * (250 * millisecond);
              selectAt := fun _ => TimerFired |} (limiter exClientEmpty)).
  - unfold limiterOK. cbn. repeat split; discriminate.
  - reflexivity.
  - reflexivity.
  - reflexivity.
  - reflexivity.
  - discriminate.
Defined.

(** X4: the only error [wait] returns is the one the context gave it: when a
    call ends with an error, the [select] of one of its passes took the
    cancellation with that very error. *)
Theorem wait_fails_only_on_cancellation (fuel : nat) (env : waitEnv) :
  forall (i : nat) (rl rl' : rateLimiter) (err : error),
    wait fuel env i rl = (Fail err, rl') ->
    exists j, (i <= j < i + fuel)%nat /\ selectAt env j = CtxDone err.
Proof.
  induction fuel as [|fuel IH]; intros i rl rl' err H; cbn [wait] in H; [discriminate|].
  destruct (refill rl (clock env i)) as [rl1|]; [|discriminate].
  destruct (0 <? tokens rl1); [discriminate|].
  destruct (selectAt env i) as [|e] eqn:Hsel.
  - destruct (IH (S i) rl1 rl' err H) as (j & Hj & Hs). exists j. split; [lia | exact Hs].
  - injection H as He _. subst e. exists i. split; [lia | exact Hsel].
Qed.

Lemma wait_fails_only_on_cancellation_witness :
  exists j, (0 <= j < 0 + 1)%nat
            /\ selectAt (w_env exWorldWaiting) j = CtxDone context_Canceled.
Proof.
  apply (wait_fails_only_on_cancellation 1 (w_env exWorldWaiting) 0
           (limiter exClientEmpty) (limiter exClientEmpty) context_Canceled).
  reflexivity.
Defined.

Lemma refill_keeps_rate (rl rl1 : rateLimiter) (now : Z) :
  refill rl now = Some rl1 -> refillRate rl1 = refillRate rl.
Proof.
  unfold refill. destruct (refillRate rl =? 0); [discriminate|]. cbv zeta.
  destruct (0 <? tokensToAdd rl now); intros H; injection H as <-; reflexivity.
Qed.

(** X5: [wait] panics exactly when the refill interval is zero, by the
    division of its first pass; with any other interval no pass panics. *)
Theorem wait_panics_iff_zero_interval (fuel : nat) (env : waitEnv) :
  forall (i : nat) (rl : rateLimiter),
    (refillRate rl = 0 -> fst (wait (S fuel) env i rl) = Panic)
    /\ (refillRate rl <> 0 -> fst (wait fuel env i rl) <> Panic).
Proof.
  intros i rl. split.
  - intros H. cbn [wait]. unfold refill. rewrite H. reflexivity.
  - revert i rl. induction fuel as [|fuel IH]; intros i rl H; cbn [wait]; [discriminate|].
    destruct (refill rl (clock env i)) as [rl1|] eqn:Hrf.
    + destruct (0 <? tokens rl1); [discriminate|].
      destruct (selectAt env i); [|discriminate].
      apply IH. rewrite (refill_keeps_rate rl rl1 _ Hrf). exact H.
    + unfold refill in Hrf. destruct (Z.eqb_spec (refillRate rl) 0); [contradiction|].
      cbv zeta in Hrf. destruct (0 <? tokensToAdd rl (clock env i)); discriminate.
Qed.

(** ** The retry loop, whatever the backend does *)

Section ClientMore.

Context {lib : Library} {codec : Codec}.

Lemma requests_app (t u : list event) : requests (t ++ u) = requests t ++ requests u.
Proof.
  induction t as [|e t IH]; [reflexivity|].
  destruct e; cbn [app requests]; rewrite IH; reflexivity.
Qed.

(** The loop when attempt [k] succeeds after [k] attempts that failed. *)
Lemma retryLoop_succeeds (c : Client) (w : world) (req : httpRequest) (logMsg : string)
  (cause : nat -> error) (resp : SearchResponse) (k fuel : nat) (tr : list event) :
  http_NewRequestErr (hr_Method req) (hr_URL req) = None ->
  MaxRetries (config c) < maxInt64 ->
  Z.of_nat k <= MaxRetries (config c) ->
  (forall j, (j < k)%nat ->
     readResponse (w_Do w j req) = inl (cause j) /\ isContextError (cause j) = false) ->
  readResponse (w_Do w k req) = inr resp ->
  (k < fuel)%nat ->
  retryLoop fuel c (fun calls => doRequest c w calls req) logMsg 0 None 0%nat tr
  = (Ret resp, tr ++ attemptsTrace logMsg req 0 (S k)).
Proof.
  intros Hnew Hm1 Hk Hfail Hresp Hfuel.
  replace fuel with (k + S (fuel - k - 1))%nat by lia.
  change 0 with (Z.of_nat 0) at 1.
  rewrite (retryLoop_skip c w req logMsg cause Hnew Hm1 k 0).
  - cbn [Nat.add retryLoop].
    replace (Z.of_nat k <=? MaxRetries (config c)) with true
      by (symmetry; apply Z.leb_le; lia).
    unfold doRequest. rewrite Hnew, Hresp.
    rewrite oneAttempt_events.
    f_equal. rewrite <- app_assoc. f_equal.
    unfold attemptsTrace. rewrite seq_S, flat_map_app. cbn [flat_map Nat.add].
    rewrite app_nil_r. reflexivity.
  - intros j Hj. apply Hfail. lia.
  - lia.
Qed.

(** X6: when the first k attempts fail with errors that are not of the
    context and attempt k is answered with a status from 200 to 299 and a
    body that decodes, [Search] returns the normalized payload and no error:
    k + 1 requests were sent, and the sleeps before the k retries were of 1
    to k seconds. *)
Theorem search_succeeds_after_retries
  (c : Client) (w : world) (req : SearchRequest) (fuel : nat)
  (rl' : rateLimiter) (apiURL : string) (cause : nat -> error) (k : nat)
  (status : Z) (body : string) (payload : APIResponse) :
  MaxRetries (config c) * second <= maxInt64 ->
  Z.of_nat k <= MaxRetries (config c) ->
  wait fuel (w_env w) 0 (limiter c) = (Ret tt, rl') ->
  buildSearchURL c (applyDefaults req) = Ret apiURL ->
  http_NewRequestErr "GET" apiURL = None ->
  (forall j, (j < k)%nat ->
     readResponse (w_Do w j (getRequest c apiURL)) = inl (cause j)
     /\ isContextError (cause j) = false) ->
  w_Do w k (getRequest c apiURL) = DoResp status body ->
  200 <= status < 300 ->
  json_Decode body = inr payload ->
  (k < fuel)%nat ->
  result (Search fuel c w req) = Ret (toSearchResponse payload)
  /\ requestsSent (trace (Search fuel c w req)) = S k
  /\ sleeps (trace (Search fuel c w req)) = map (fun n => Z.of_nat n * second) (seq 1 k).
Proof.
  intros Hsec Hk Hwait Hurl Hnew Hfail Hdo Hstatus Hdec Hfuel.
  assert (Hm1 : MaxRetries (config c) < maxInt64)
    by (unfold second, maxInt64 in *; lia).
  assert (Hresp : readResponse (w_Do w k (getRequest c apiURL))
                  = inr (toSearchResponse payload)).
  { rewrite Hdo. unfold readResponse.
    replace (status <? 200) with false by (symmetry; apply Z.ltb_ge; lia).
    replace (300 <=? status) with false by (symmetry; apply Z.leb_gt; lia).
    cbn [orb]. rewrite Hdec. reflexivity. }
  assert (Hrun : Search fuel c w req
                 = mkRun (Ret (toSearchResponse payload))
                     (EvDebug "performing search" (logFields (applyDefaults req))
                      :: attemptsTrace "retrying search request"
                           (getRequest c apiURL) 0 (S k))
                     rl').
  { unfold Search. rewrite Hwait, Hurl. unfold doSearchRequest.
    rewrite (retryLoop_succeeds c w (getRequest c apiURL) "retrying search request"
               cause _ k fuel _ Hnew Hm1 Hk Hfail Hresp Hfuel).
    reflexivity. }
  rewrite Hrun. cbn [result trace requestsSent sleeps].
  rewrite requestsSent_attempts, sleeps_attempts.
  split; [reflexivity|]. split; [reflexivity|].
  apply (map_seconds _ (MaxRetries (config c))); [lia | exact Hsec].
Qed.

(** An attempt adds no event, or the request it sends. *)
Lemma doRequest_events (c : Client) (w : world) (calls : nat) (req : httpRequest) :
  snd (fst (doRequest c w calls req)) = []
  \/ snd (fst (doRequest c w calls req)) = [EvHTTP req].
Proof.
  unfold doRequest.
  destruct (http_NewRequestErr (hr_Method req) (hr_URL req)); [left | right]; reflexivity.
Qed.

(** The loop from attempt [a] on: it sends the same request at most once
    for each attempt that is left, sleeps at most once before each attempt
    after the first, and has returned by then. *)
Lemma retryLoop_bounded (c : Client) (w : world) (req : httpRequest) (logMsg : string) :
  MaxRetries (config c) < maxInt64 ->
  forall (fuel : nat) (a : Z) (lastErr : option error) (calls : nat) (tr : list event),
    0 <= a ->
    exists n,
      Z.of_nat n <= Z.max 0 (MaxRetries (config c) + 1 - a)
      /\ requests (snd (retryLoop fuel c (fun calls => doRequest c w calls req)
                           logMsg a lastErr calls tr))
         = requests tr ++ repeat req n
      /\ (List.length (sleeps (snd (retryLoop fuel c (fun calls => doRequest c w calls req)
                                      logMsg a lastErr calls tr)))
          <= List.length (sleeps tr)
             + Z.to_nat (MaxRetries (config c) + 1 - Z.max a 1))%nat
      /\ ((Z.to_nat (MaxRetries (config c) + 1 - a) < fuel)%nat ->
          fst (retryLoop fuel c (fun calls => doRequest c w calls req)
                 logMsg a lastErr calls tr) <> OutOfFuel).
Proof.
  intros Hm1. induction fuel as [|fuel IH]; intros a lastErr calls tr Ha.
  - exists 0%nat. cbn [retryLoop snd fst repeat]. rewrite app_nil_r.
    repeat split; [lia | lia | lia].
  - cbn [retryLoop]. destruct (Z.leb_spec a (MaxRetries (config c))) as [Hle|Hgt].
    2: { exists 0%nat. cbn [snd fst repeat]. rewrite app_nil_r.
         repeat split; [lia | lia | discriminate]. }
    set (tr1 := if 0 <? a
                then tr ++ [EvDebug logMsg [("attempt", LInt a)];
                            EvSleep (wrap64 (a * second))]
                else tr).
    assert (Hreq1 : requests tr1 = requests tr).
    { unfold tr1. destruct (0 <? a); [|reflexivity].
      rewrite requests_app. cbn. apply app_nil_r. }
    assert (Hsl1 : (List.length (sleeps tr1)
                    <= List.length (sleeps tr) + (if (0 <? a)%Z then 1 else 0))%nat).
    { unfold tr1. destruct (0 <? a); [|lia].
      rewrite sleeps_app, length_app. cbn. lia. }
    assert (Hwrap : wrap64 (a + 1) = a + 1)
      by (apply wrap64_id; unfold inInt64, minInt64; unfold maxInt64 in *; lia).
    destruct (doRequest_events c w calls req) as [Hev|Hev];
      destruct (doRequest c w calls req) as [[r evs] calls'] eqn:Hd;
      cbn [fst snd] in Hev; subst evs.
    + assert (Hsl : (List.length (sleeps (tr1 ++ []))
                     <= List.length (sleeps tr) + (if (0 <? a)%Z then 1 else 0))%nat)
        by (rewrite app_nil_r; exact Hsl1).
      assert (Hrq : requests (tr1 ++ []) = requests tr)
        by (rewrite app_nil_r; exact Hreq1).
      destruct r as [err|resp]; [destruct (isContextError err)|].
      * exists 0%nat. cbn [snd fst repeat]. rewrite Hrq, app_nil_r.
        repeat split; [lia | | discriminate].
        destruct (Z.ltb_spec 0 a); lia.
      * rewrite Hwrap.
        destruct (IH (a + 1) (Some err) calls' (tr1 ++ []) ltac:(lia))
          as (n & Hn & Hr & Hs & Hf).
        exists n. rewrite Hr, Hrq.
        repeat split; [lia | | intros Hfuel; apply Hf; lia].
        destruct (Z.ltb_spec 0 a); lia.
      * exists 0%nat. cbn [snd fst repeat]. rewrite Hrq, app_nil_r.
        repeat split; [lia | | discriminate].
        destruct (Z.ltb_spec 0 a); lia.
    + assert (Hrq : requests (tr1 ++ [EvHTTP req]) = requests tr ++ [req])
        by (rewrite requests_app, Hreq1; reflexivity).
      assert (Hsl : (List.length (sleeps (tr1 ++ [EvHTTP req]))
                     <= List.length (sleeps tr) + (if (0 <? a)%Z then 1 else 0))%nat)
        by (rewrite sleeps_app, app_nil_r; exact Hsl1).
      destruct r as [err|resp]; [destruct (isContextError err)|].
      * exists 1%nat. cbn [snd fst repeat]. rewrite Hrq.
        repeat split; [lia | | discriminate].
        destruct (Z.ltb_spec 0 a); lia.
      * rewrite Hwrap.
        destruct (IH (a + 1) (Some err) calls' (tr1 ++ [EvHTTP req]) ltac:(lia))
          as (n & Hn & Hr & Hs & Hf).
        exists (S n). rewrite Hr, Hrq, <- app_assoc.
        repeat split; [lia | | intros Hfuel; apply Hf; lia].
        destruct (Z.ltb_spec 0 a); lia.
      * exists 1%nat. cbn [snd fst repeat]. rewrite Hrq.
        repeat split; [lia | | discriminate].
        destruct (Z.ltb_spec 0 a); lia.
Qed.

(** [buildSearchURL] returns a URL or an error, or panics. *)
Lemma searchEndpoint_outcome (c : Client) (req : SearchRequest) :
  (exists u, buildSearchURL c req = Ret u)
  \/ (exists e, buildSearchURL c req = Fail e)
  \/ buildSearchURL c req = Panic.
Proof.
  unfold buildSearchURL, searchEndpoint.
  destruct (url_Parse (BaseURL (config c))) as [e|baseURL]; [right; left; eexists; reflexivity|].
  destruct (url_Parse "/search"); [right; right | left; eexists]; reflexivity.
Qed.

Lemma requestsSent_length (tr : list event) :
  requestsSent tr = List.length (requests tr).
Proof.
  induction tr as [|e tr IH]; [reflexivity|].
  destruct e; cbn [requestsSent requests List.length]; rewrite IH; reflexivity.
Qed.

(** What the two calls have in common once the loop is reached. *)
Lemma loop_run_bounded (c : Client) (w : world) (req : httpRequest) (logMsg : string)
  (fuel : nat) (first : event) :
  MaxRetries (config c) < maxInt64 ->
  (requestsSent (snd (retryLoop fuel c (fun calls => doRequest c w calls req)
                        logMsg 0 None 0%nat [first]))
   <= requestsSent [first] + Z.to_nat (MaxRetries (config c) + 1))%nat
  /\ (requests [first] = [] ->
      Forall (eq req)
        (requests (snd (retryLoop fuel c (fun calls => doRequest c w calls req)
                          logMsg 0 None 0%nat [first]))))
  /\ (List.length (sleeps (snd (retryLoop fuel c (fun calls => doRequest c w calls req)
                                  logMsg 0 None 0%nat [first])))
      <= List.length (sleeps [first]) + Z.to_nat (MaxRetries (config c)))%nat.
Proof.
  intros Hm1.
  destruct (retryLoop_bounded c w req logMsg Hm1 fuel 0 None 0%nat [first] (Z.le_refl 0))
    as (n & Hn & Hr & Hs & _).
  rewrite !requestsSent_length, Hr, length_app, repeat_length.
  split; [lia|]. split; [|lia].
  intros Hfirst. rewrite Hfirst. cbn [app]. apply Forall_forall.
  intros q Hq. symmetry. exact (repeat_spec _ _ _ Hq).
Qed.

(** The requests and sleeps of one call of [Search]. *)
Lemma Search_bounded (fuel : nat) (c : Client) (w : world) (req : SearchRequest) :
  MaxRetries (config c) < maxInt64 ->
  (requestsSent (trace (Search fuel c w req))
   <= Z.to_nat (MaxRetries (config c) + 1))%nat
  /\ (List.length (sleeps (trace (Search fuel c w req)))
      <= Z.to_nat (MaxRetries (config c)))%nat
  /\ Forall (fun q => buildSearchURL c (applyDefaults req) = Ret (hr_URL q)
                      /\ q = getRequest c (hr_URL q))
            (requests (trace (Search fuel c w req))).
Proof.
  intros Hm1. unfold Search.
  destruct (wait fuel (w_env w) 0 (limiter c)) as [[u|e| |] rl];
    try (cbn; repeat split; try lia; constructor).
  destruct (buildSearchURL c (applyDefaults req)) as [apiURL|e| |] eqn:Hurl;
    try (cbn; repeat split; try lia; constructor).
  unfold doSearchRequest.
  destruct (loop_run_bounded c w (getRequest c apiURL) "retrying search request" fuel
              (EvDebug "performing search" (logFields (applyDefaults req))) Hm1)
    as (H1 & H2 & H3).
  destruct (retryLoop fuel c (fun calls => doRequest c w calls (getRequest c apiURL))
              "retrying search request" 0 None 0%nat
              [EvDebug "performing search" (logFields (applyDefaults req))]) as [r tr].
  cbn [snd trace requestsSent sleeps requests List.length Nat.add] in *.
  split; [exact H1|]. split; [exact H3|].
  eapply Forall_impl; [|exact (H2 eq_refl)].
  intros q <-. split; reflexivity.
Qed.

(** X7: whatever the backend answers, [Search] and [SearchJSON] send at most
    MaxRetries + 1 requests and sleep at most MaxRetries times; all the
    requests of one call of [Search] are the same GET of the URL that
    [buildSearchURL] gave. *)
Theorem never_more_than_retries_plus_one
  (fuel : nat) (c : Client) (w : world) (req : SearchRequest) :
  MaxRetries (config c) < maxInt64 ->
  (requestsSent (trace (Search fuel c w req))
   <= Z.to_nat (MaxRetries (config c) + 1))%nat
  /\ (List.length (sleeps (trace (Search fuel c w req)))
      <= Z.to_nat (MaxRetries (config c)))%nat
  /\ Forall (fun q => buildSearchURL c (applyDefaults req) = Ret (hr_URL q)
                      /\ q = getRequest c (hr_URL q))
            (requests (trace (Search fuel c w req)))
  /\ (requestsSent (trace (SearchJSON fuel c w req))
      <= Z.to_nat (MaxRetries (config c) + 1))%nat
  /\ (List.length (sleeps (trace (SearchJSON fuel c w req)))
      <= Z.to_nat (MaxRetries (config c)))%nat.
Proof.
  intros Hm1.
  destruct (Search_bounded fuel c w req Hm1) as (H1 & H2 & H3).
  split; [exact H1|]. split; [exact H2|]. split; [exact H3|].
  unfold SearchJSON.
  destruct (wait fuel (w_env w) 0 (limiter c)) as [[u|e| |] rl]; try (cbn; split; lia).
  destruct (url_Parse (BaseURL (config c))) as [e|baseURL]; [cbn; split; lia|].
  destruct (searchEndpoint baseURL) as [apiURL|e| |]; try (cbn; split; lia).
  destruct (json_Marshal (toAPIRequest (applyDefaults req))) as [e|body];
    [cbn; split; lia|].
  unfold doSearchJSONRequest.
  destruct (loop_run_bounded c w (postRequest c (url_String apiURL) body)
              "retrying JSON search request" fuel
              (EvDebug "performing JSON search" (logFields (applyDefaults req))) Hm1)
    as (H4 & _ & H5).
  destruct (retryLoop fuel c
              (fun calls => doRequest c w calls (postRequest c (url_String apiURL) body))
              "retrying JSON search request" 0 None 0%nat
              [EvDebug "performing JSON search" (logFields (applyDefaults req))]) as [r tr].
  cbn [snd trace requestsSent sleeps List.length Nat.add] in *.
  split; [exact H4 | exact H5].
Qed.

(** X8: once [wait] has returned, [Search] returns as well: the loop needs
    no more than MaxRetries + 2 passes, whatever the backend answers. *)
Theorem search_returns
  (fuel : nat) (c : Client) (w : world) (req : SearchRequest) :
  MaxRetries (config c) < maxInt64 ->
  (Z.to_nat (MaxRetries (config c) + 1) < fuel)%nat ->
  fst (wait fuel (w_env w) 0 (limiter c)) <> OutOfFuel ->
  result (Search fuel c w req) <> OutOfFuel
  /\ result (SearchJSON fuel c w req) <> OutOfFuel.
Proof.
  intros Hm1 Hfuel Hwait.
  assert (Hloop : forall (q : httpRequest) (logMsg : string) (tr : list event),
            fst (retryLoop fuel c (fun calls => doRequest c w calls q) logMsg
                   0 None 0%nat tr) <> OutOfFuel).
  { intros q logMsg tr.
    destruct (retryLoop_bounded c w q logMsg Hm1 fuel 0 None 0%nat tr (Z.le_refl 0))
      as (n & _ & _ & _ & Hf).
    apply Hf. rewrite Z.sub_0_r. exact Hfuel. }
  split.
  - unfold Search.
    destruct (wait fuel (w_env w) 0 (limiter c)) as [[u|e| |] rl];
      cbn [fst] in Hwait; try discriminate; [|contradiction].
    destruct (searchEndpoint_outcome c (applyDefaults req)) as [(u' & Hu)|[(e & Hu)|Hu]];
      rewrite Hu; try discriminate.
    unfold doSearchRequest.
    pose proof (Hloop (getRequest c u') "retrying search request"
                  [EvDebug "performing search" (logFields (applyDefaults req))]) as H.
    destruct (retryLoop fuel c (fun calls => doRequest c w calls (getRequest c u'))
                "retrying search request" 0 None 0%nat
                [EvDebug "performing search" (logFields (applyDefaults req))]) as [r tr].
    exact H.
  - unfold SearchJSON.
    destruct (wait fuel (w_env w) 0 (limiter c)) as [[u|e| |] rl];
      cbn [fst] in Hwait; try discriminate; [|contradiction].
    destruct (url_Parse (BaseURL (config c))) as [e|baseURL]; [discriminate|].
    unfold searchEndpoint.
    destruct (url_Parse "/search") as [e|searchPath]; [discriminate|].
    destruct (json_Marshal (toAPIRequest (applyDefaults req))) as [e|body];
      [discriminate|].
    unfold doSearchJSONRequest.
    pose proof (Hloop (postRequest c (url_String (url_ResolveReference baseURL searchPath))
                         body)
                  "retrying JSON search request"
                  [EvDebug "performing JSON search" (logFields (applyDefaults req))]) as H.
    destruct (retryLoop fuel c
                (fun calls => doRequest c w calls
                   (postRequest c (url_String (url_ResolveReference baseURL searchPath))
                      body))
                "retrying JSON search request" 0 None 0%nat
                [EvDebug "performing JSON search" (logFields (applyDefaults req))])
      as [r tr].
    exact H.
Qed.

(** One attempt: no request when it cannot be built, and otherwise the
    request and the reading of its answer. *)
Lemma doRequest_cases (c : Client) (w : world) (calls : nat) (req : httpRequest) :
  (exists e, doRequest c w calls req = (inl e, [], calls))
  \/ doRequest c w calls req = (readResponse (w_Do w calls req), [EvHTTP req], S calls).
Proof.
  unfold doRequest.
  destruct (http_NewRequestErr (hr_Method req) (hr_URL req));
    [left; eexists; reflexivity | right; reflexivity].
Qed.

(** A response the loop returns is the reading of the answer to the last
    request it sent, which is the last event of the call. *)
Lemma retryLoop_result_read (c : Client) (w : world) (req : httpRequest) (logMsg : string)
  (resp : SearchResponse) :
  forall (fuel : nat) (a : Z) (lastErr : option error) (calls : nat) (tr : list event),
    calls = requestsSent tr ->
    fst (retryLoop fuel c (fun calls => doRequest c w calls req) logMsg a lastErr calls tr)
    = Ret resp ->
    exists pre,
      snd (retryLoop fuel c (fun calls => doRequest c w calls req) logMsg a lastErr calls tr)
      = pre ++ [EvHTTP req]
      /\ readResponse (w_Do w (requestsSent pre) req) = inr resp.
Proof.
  induction fuel as [|fuel IH]; intros a lastErr calls tr Hcalls; cbn [retryLoop];
    [discriminate|].
  destruct (a <=? MaxRetries (config c)); [|discriminate].
  set (tr1 := if 0 <? a
              then tr ++ [EvDebug logMsg [("attempt", LInt a)];
                          EvSleep (wrap64 (a * second))]
              else tr).
  assert (Htr1 : requestsSent tr1 = calls).
  { unfold tr1. destruct (0 <? a); [|symmetry; exact Hcalls].
    rewrite requestsSent_app. cbn [requestsSent]. rewrite Nat.add_0_r.
    symmetry. exact Hcalls. }
  destruct (doRequest_cases c w calls req) as [[e Hd]|Hd]; rewrite Hd.
  - destruct (isContextError e); [discriminate|].
    apply IH. rewrite app_nil_r. symmetry. exact Htr1.
  - destruct (readResponse (w_Do w calls req)) as [err|r] eqn:Hread.
    + destruct (isContextError err); [discriminate|].
      apply IH. rewrite requestsSent_app, Htr1. cbn [requestsSent]. lia.
    + cbn [fst snd]. intros H. injection H as ->. exists tr1.
      split; [reflexivity|]. rewrite Htr1. exact Hread.
Qed.

Lemma readResponse_ok (r : httpResult) (resp : SearchResponse) :
  readResponse r = inr resp ->
  exists status body payload,
    r = DoResp status body
    /\ 200 <= status < 300
    /\ json_Decode body = inr payload
    /\ resp = toSearchResponse payload.
Proof.
  unfold readResponse. destruct r as [err|status body]; [discriminate|].
  destruct (Z.ltb_spec status 200) as [Hlo|Hlo]; [discriminate|].
  destruct (Z.leb_spec 300 status) as [Hhi|Hhi]; [discriminate|]. cbn [orb].
  destruct (json_Decode body) as [err|payload] eqn:Hdec; [discriminate|].
  intros Hr. injection Hr as <-. exists status, body, payload.
  repeat split; try lia; assumption.
Qed.

(** X9: [Search] returns a response only as the normal form of a payload the
    backend sent in answer to a request of this call: when [Search] returns
    a response, the last event of the call is a request, the GET of the URL
    that [buildSearchURL] gave, and the answer to that request, which the
    transport gave to the request with the number of the requests sent
    before it, had a status from 200 to 299 and a body that decoded to the
    payload. *)
Theorem search_result_comes_from_backend
  (fuel : nat) (c : Client) (w : world) (req : SearchRequest) (resp : SearchResponse) :
  result (Search fuel c w req) = Ret resp ->
  exists apiURL pre status body payload,
    buildSearchURL c (applyDefaults req) = Ret apiURL
    /\ trace (Search fuel c w req) = pre ++ [EvHTTP (getRequest c apiURL)]
    /\ w_Do w (requestsSent pre) (getRequest c apiURL) = DoResp status body
    /\ 200 <= status < 300
    /\ json_Decode body = inr payload
    /\ resp = toSearchResponse payload.
Proof.
  unfold Search.
  destruct (wait fuel (w_env w) 0 (limiter c)) as [[u|e| |] rl]; try discriminate.
  destruct (buildSearchURL c (applyDefaults req)) as [apiURL|e| |]; try discriminate.
  unfold doSearchRequest. intros Hres.
  destruct (retryLoop_result_read c w (getRequest c apiURL) "retrying search request" resp
              fuel 0 None 0%nat
              [EvDebug "performing search" (logFields (applyDefaults req))] eq_refl)
    as (pre & Htrace & Hj).
  { destruct (retryLoop fuel c (fun calls => doRequest c w calls (getRequest c apiURL))
                "retrying search request" 0 None 0%nat
                [EvDebug "performing search" (logFields (applyDefaults req))])
      as [r tr].
    exact Hres. }
  destruct (readResponse_ok _ _ Hj) as (status & body & payload & Hdo & Hs & Hd & Hr).
  exists apiURL, pre, status, body, payload.
  split; [reflexivity|]. split.
  - destruct (retryLoop fuel c (fun calls => doRequest c w calls (getRequest c apiURL))
                "retrying search request" 0 None 0%nat
                [EvDebug "performing search" (logFields (applyDefaults req))])
      as [r tr].
    exact Htrace.
  - repeat split; try assumption; lia.
Qed.

(** X10: with a negative MaxRetries the loop is not entered: once a token is
    granted and the URL built, [Search] sends nothing and returns
    [ErrRequestFailed] wrapping no cause, with the nil operand printed in
    its message. *)
Theorem negative_retries_send_nothing
  (fuel : nat) (c : Client) (w : world) (req : SearchRequest)
  (rl' : rateLimiter) (apiURL : string) :
  MaxRetries (config c) < 0 ->
  wait (S fuel) (w_env w) 0 (limiter c) = (Ret tt, rl') ->
  buildSearchURL c (applyDefaults req) = Ret apiURL ->
  result (Search (S fuel) c w req) = Fail (Wrapped "search request failed: %!w(<nil>)"
                                             [ErrRequestFailed])
  /\ requestsSent (trace (Search (S fuel) c w req)) = 0%nat
  /\ sleeps (trace (Search (S fuel) c w req)) = [].
Proof.
  intros Hneg Hwait Hurl. unfold Search. rewrite Hwait, Hurl. cbn [retryLoop].
  replace (0 <=? MaxRetries (config c)) with false by (symmetry; apply Z.leb_gt; lia).
  repeat split.
Qed.

(** X11: a client that [NewClient] returned has a base URL that parses, so
    [buildSearchURL] cannot fail on it with an error: the only way out
    besides a URL would be a failure to parse the constant path. *)
Theorem new_client_builds_urls (cfg : option Config) (now : Z) (c : Client)
  (req : SearchRequest) :
  NewClient cfg now = inr c ->
  (forall e, buildSearchURL c req <> Fail e)
  /\ limiter c = newRateLimiter 10 (100 * millisecond) now
  /\ config c = match cfg with Some given => given | None => DefaultConfig end.
Proof.
  unfold NewClient.
  destruct (url_Parse (BaseURL match cfg with Some c0 => c0 | None => DefaultConfig end))
    as [e|u] eqn:Hparse; [discriminate|].
  intros H. injection H as <-. cbn [config limiter].
  split; [|split; reflexivity].
  intros e. unfold buildSearchURL. cbn [config]. rewrite Hparse.
  unfold searchEndpoint. destruct (url_Parse "/search"); discriminate.
Qed.

(** X12: any status outside 200 to 299 is retried like a failure of the
    transport, a 404 as much as a 500: against a backend that answers every
    request with such a status, [Search] sends MaxRetries + 1 requests and
    returns [ErrRequestFailed] with the status and body of the last answer
    in its message. *)
Theorem every_bad_status_is_retried
  (c : Client) (w : world) (req : SearchRequest) (fuel : nat)
  (rl' : rateLimiter) (apiURL : string) (status : nat -> Z) (body : nat -> string) :
  0 <= MaxRetries (config c) < maxInt64 ->
  wait fuel (w_env w) 0 (limiter c) = (Ret tt, rl') ->
  buildSearchURL c (applyDefaults req) = Ret apiURL ->
  http_NewRequestErr "GET" apiURL = None ->
  (forall j, (j <= Z.to_nat (MaxRetries (config c)))%nat ->
     w_Do w j (getRequest c apiURL) = DoResp (status j) (body j)
     /\ (status j < 200 \/ 300 <= status j)) ->
  (Z.to_nat (MaxRetries (config c)) + 2 <= fuel)%nat ->
  requestsSent (trace (Search fuel c w req)) = Z.to_nat (MaxRetries (config c) + 1)
  /\ exists e,
       result (Search fuel c w req) = Fail e
       /\ errors_Is e SRequestFailed = true
       /\ Error e
          = ("search request failed: HTTP "
             ++ strconv_Itoa (status (Z.to_nat (MaxRetries (config c))))
             ++ ": " ++ body (Z.to_nat (MaxRetries (config c))))%string.
Proof.
  intros Hm Hwait Hurl Hnew Hbad Hfuel.
  assert (Hfail : forall j, (j <= Z.to_nat (MaxRetries (config c)))%nat ->
            readResponse (w_Do w j (getRequest c apiURL))
            = inl ((fun j => statusError (status j) (body j)) j)
            /\ isContextError ((fun j => statusError (status j) (body j)) j) = false).
  { intros j Hj. destruct (Hbad j Hj) as [Hdo Hs]. rewrite Hdo. split; [|reflexivity].
    unfold readResponse.
    replace ((status j <? 200) || (300 <=? status j)) with true; [reflexivity|].
    symmetry. apply orb_true_iff.
    destruct Hs; [left; apply Z.ltb_lt | right; apply Z.leb_le]; assumption. }
  unfold Search. rewrite Hwait, Hurl. unfold doSearchRequest.
  rewrite (retryLoop_exhausted c w (getRequest c apiURL) "retrying search request"
             (fun j => statusError (status j) (body j)) fuel _ Hnew Hm Hfail Hfuel).
  cbn [result trace requestsSent app]. rewrite requestsSent_attempts.
  split; [lia|]. eexists. split; [reflexivity|]. split; reflexivity.
Qed.

(** X13: a client with the configuration of the commands serve and search
    makes one attempt and no more: whatever the backend answers, a call of
    [Search] sends at most one request, never sleeps, and its request
    carries the Accept header alone, no User-Agent. *)
Theorem command_client_never_retries
  (fuel : nat) (c : Client) (w : world) (req : SearchRequest)
  (instanceURL : string) (timeout : Z) :
  config c = commandConfig instanceURL timeout ->
  (requestsSent (trace (Search fuel c w req)) <= 1)%nat
  /\ sleeps (trace (Search fuel c w req)) = []
  /\ Forall (fun q => hr_Header q = [("Accept", "application/json")])
            (requests (trace (Search fuel c w req))).
Proof.
  intros Hcfg.
  assert (Hm1 : MaxRetries (config c) < maxInt64) by (rewrite Hcfg; reflexivity).
  destruct (Search_bounded fuel c w req Hm1) as (H1 & H2 & H3).
  rewrite Hcfg in H1, H2. cbn in H1, H2.
  split; [exact H1|]. split.
  - destruct (sleeps (trace (Search fuel c w req))); [reflexivity | cbn in H2; lia].
  - eapply Forall_impl; [|exact H3].
    intros q [_ Hq]. rewrite Hq. unfold getRequest, headers. cbn [hr_Header].
    rewrite Hcfg. reflexivity.
Qed.


End ClientMore.

(** *** Runs *)

Lemma search_succeeds_after_retries_witness :
  result (@Search exLibrary exCodecOK 5 exClient exWorldRecovers exRequest)
    = Ret (toSearchResponse exPayload)
  /\ requestsSent (trace (@Search exLibrary exCodecOK 5 exClient exWorldRecovers exRequest))
     = 2%nat
  /\ sleeps (trace (@Search exLibrary exCodecOK 5 exClient exWorldRecovers exRequest))
     = [1 * second].
Proof.
  apply (@search_succeeds_after_retries exLibrary exCodecOK
           exClient exWorldRecovers exRequest 5
           {| tokens := 9; maxTokens := 10;
              refillRate := 100 * millisecond; lastRefill := 0 |}
           "https://searxng.example.com/search?format=json&q=test"
           (fun _ => Opaque "HTTP 500: Internal Server Error") 1 200 "{}" exPayload).
  - discriminate.
  - discriminate.
  - reflexivity.
  - reflexivity.
  - reflexivity.
  - intros j Hj. destruct j as [|j]; [split; reflexivity|].
    apply Nat.succ_lt_mono in Hj. inversion Hj.
  - reflexivity.
  - split; [discriminate | reflexivity].
  - reflexivity.
  - repeat constructor.
Defined.

Lemma never_more_than_retries_plus_one_witness :
  (requestsSent (trace (exSearch 5 exClient exWorld500 exRequest)) <= 4)%nat
  /\ (List.length (sleeps (trace (exSearch 5 exClient exWorld500 exRequest))) <= 3)%nat.
Proof.
  pose proof (@never_more_than_retries_plus_one exLibrary exCodec
                5 exClient exWorld500 exRequest eq_refl) as (H1 & H2 & _).
  split; [exact H1 | exact H2].
Defined.

Lemma search_returns_witness :
  result (exSearch 5 exClient exWorld500 exRequest) <> OutOfFuel.
Proof.
  apply (@search_returns exLibrary exCodec 5 exClient exWorld500 exRequest).
  - reflexivity.
  - repeat constructor.
  - discriminate.
Defined.

Lemma search_result_comes_from_backend_witness :
  exists apiURL pre status body payload,
    @buildSearchURL exLibrary exClient (applyDefaults exRequest) = Ret apiURL
    /\ trace (@Search exLibrary exCodecOK 5 exClient exWorldRecovers exRequest)
       = pre ++ [EvHTTP (getRequest exClient apiURL)]
    /\ w_Do exWorldRecovers (requestsSent pre) (getRequest exClient apiURL)
       = DoResp status body
    /\ 200 <= status < 300
    /\ @json_Decode exLibrary exCodecOK body = inr payload
    /\ toSearchResponse exPayload = toSearchResponse payload.
Proof.
  apply (@search_result_comes_from_backend exLibrary exCodecOK
           5 exClient exWorldRecovers exRequest (toSearchResponse exPayload)).
  reflexivity.
Defined.

Lemma negative_retries_send_nothing_witness :
  result (exSearch 1 exClientNoAttempt exWorld500 exRequest)
    = Fail (Wrapped "search request failed: %!w(<nil>)" [ErrRequestFailed])
  /\ requestsSent (trace (exSearch 1 exClientNoAttempt exWorld500 exRequest)) = 0%nat
  /\ sleeps (trace (exSearch 1 exClientNoAttempt exWorld500 exRequest)) = [].
Proof.
  apply (@negative_retries_send_nothing exLibrary exCodec
           0 exClientNoAttempt exWorld500 exRequest
           {| tokens := 9; maxTokens := 10;
              refillRate := 100 * millisecond; lastRefill := 0 |}
           "https://searxng.example.com/search?format=json&q=test").
  - reflexivity.
  - reflexivity.
  - reflexivity.
Defined.

Lemma new_client_builds_urls_witness :
  (forall e, @buildSearchURL exLibrary exClient exRequest <> Fail e)
  /\ limiter exClient = newRateLimiter 10 (100 * millisecond) 0
  /\ config exClient = DefaultConfig.
Proof.
  apply (@new_client_builds_urls exLibrary None 0 exClient exRequest).
  reflexivity.
Defined.

Lemma every_bad_status_is_retried_witness :
  requestsSent (trace (exSearch 5 exClient exWorld404 exRequest)) = 4%nat
  /\ exists e,
       result (exSearch 5 exClient exWorld404 exRequest) = Fail e
       /\ errors_Is e SRequestFailed = true
       /\ Error e = "search request failed: HTTP 404: Not Found".
Proof.
  apply (@every_bad_status_is_retried exLibrary exCodec
           exClient exWorld404 exRequest 5
           {| tokens := 9; maxTokens := 10;
              refillRate := 100 * millisecond; lastRefill := 0 |}
           "https://searxng.example.com/search?format=json&q=test"
           (fun _ => 404) (fun _ => "Not Found")).
  - split; [discriminate | reflexivity].
  - reflexivity.
  - reflexivity.
  - reflexivity.
  - intros j _. split; [reflexivity | right; discriminate].
  - apply le_n.
Defined.

Lemma command_client_never_retries_witness :
  (requestsSent (trace (exSearch 5 exCommandClient exWorld500 exRequest)) <= 1)%nat
  /\ sleeps (trace (exSearch 5 exCommandClient exWorld500 exRequest)) = []
  /\ Forall (fun q => hr_Header q = [("Accept", "application/json")])
            (requests (trace (exSearch 5 exCommandClient exWorld500 exRequest))).
Proof.
  apply (@command_client_never_retries exLibrary exCodec
           5 exCommandClient exWorld500 exRequest DefaultInstanceURL (30 * second)).
  reflexivity.
Defined.


(** ** The parameters of the search URL *)





(** ** The web_search tool, end to end *)

Section ServerMore.

Context {lib : Library} {codec : Codec}.

(** The run of [Search] against a backend that answers the first request
    with a status from 200 to 299 and a body that decodes. *)
Lemma Search_first_answer (c : Client) (w : world) (req : SearchRequest) (fuel : nat)
  (rl' : rateLimiter) (apiURL : string) (status : Z) (body : string)
  (payload : APIResponse) :
  wait (S fuel) (w_env w) 0 (limiter c) = (Ret tt, rl') ->
  buildSearchURL c (applyDefaults req) = Ret apiURL ->
  http_NewRequestErr "GET" apiURL = None ->
  0 <= MaxRetries (config c) ->
  w_Do w 0 (getRequest c apiURL) = DoResp status body ->
  200 <= status < 300 ->
  json_Decode body = inr payload ->
  Search (S fuel) c w req
  = mkRun (Ret (toSearchResponse payload))
          [EvDebug "performing search" (logFields (applyDefaults req));
           EvHTTP (getRequest c apiURL)]
          rl'.
Proof.
  intros Hwait Hurl Hnew Hm Hdo Hs Hdec.
  unfold Search. rewrite Hwait, Hurl. cbn [retryLoop].
  replace (0 <=? MaxRetries (config c)) with true by (symmetry; apply Z.leb_le; lia).
  unfold doSearchRequest, doRequest. cbn [getRequest hr_Method hr_URL].
  rewrite Hnew. fold (getRequest c apiURL). rewrite Hdo. unfold readResponse.
  replace (status <? 200) with false by (symmetry; apply Z.ltb_ge; lia).
  replace (300 <=? status) with false by (symmetry; apply Z.leb_gt; lia).
  cbn [orb]. rewrite Hdec. reflexivity.
Qed.

(** The run of [Search] against a backend that answers every request with a
    status outside 200 to 299. *)
Lemma Search_bad_status (c : Client) (w : world) (req : SearchRequest) (fuel : nat)
  (rl' : rateLimiter) (apiURL : string) (status : nat -> Z) (body : nat -> string) :
  0 <= MaxRetries (config c) < maxInt64 ->
  wait fuel (w_env w) 0 (limiter c) = (Ret tt, rl') ->
  buildSearchURL c (applyDefaults req) = Ret apiURL ->
  http_NewRequestErr "GET" apiURL = None ->
  (forall j, (j <= Z.to_nat (MaxRetries (config c)))%nat ->
     w_Do w j (getRequest c apiURL) = DoResp (status j) (body j)
     /\ (status j < 200 \/ 300 <= status j)) ->
  (Z.to_nat (MaxRetries (config c)) + 2 <= fuel)%nat ->
  Search fuel c w req
  = mkRun (Fail (Errorf_ww ErrRequestFailed
                   (Some (statusError (status (Z.to_nat (MaxRetries (config c))))
                                      (body (Z.to_nat (MaxRetries (config c))))))))
          (EvDebug "performing search" (logFields (applyDefaults req))
           :: attemptsTrace "retrying search request" (getRequest c apiURL) 0
                (S (Z.to_nat (MaxRetries (config c)))))
          rl'.
Proof.
  intros Hm Hwait Hurl Hnew Hbad Hfuel.
  assert (Hfail : forall j, (j <= Z.to_nat (MaxRetries (config c)))%nat ->
            readResponse (w_Do w j (getRequest c apiURL))
            = inl ((fun j => statusError (status j) (body j)) j)
            /\ isContextError ((fun j => statusError (status j) (body j)) j) = false).
  { intros j Hj. destruct (Hbad j Hj) as [Hdo Hs]. rewrite Hdo. split; [|reflexivity].
    unfold readResponse.
    replace ((status j <? 200) || (300 <=? status j)) with true; [reflexivity|].
    symmetry. apply orb_true_iff.
    destruct Hs; [left; apply Z.ltb_lt | right; apply Z.leb_le]; assumption. }
  unfold Search. rewrite Hwait, Hurl. unfold doSearchRequest.
  rewrite (retryLoop_exhausted c w (getRequest c apiURL) "retrying search request"
             (fun j => statusError (status j) (body j)) fuel _ Hnew Hm Hfail Hfuel).
  reflexivity.
Qed.

(** X15: what the tool shows of a payload. Each result of the payload
    becomes a map with its title, its URL and its content under the key
    snippet, and with the day of its published date when the date parsed
    and no such key when it did not; engine, category, score and the other
    fields are not shown. Of the response, suggestions, answers and
    corrections appear exactly when they are not empty, and infoboxes and
    unresponsive engines never. *)
Theorem tool_output_of_payload (payload : APIResponse) (r : APIResult) :
  (exists m,
     formatResult (toSearchResult r) = AMap m
     /\ mapIndex m "title" = AString (ar_Title r)
     /\ mapIndex m "url" = AString (ar_URL r)
     /\ mapIndex m "snippet" = AString (ar_Content r)
     /\ mapIndex m "published_date"
        = match parsePublishedDate (ar_PublishedDate r) with
          | Some t => AString (time_Format t "2006-01-02")
          | None => ANil
          end
     /\ mapIndex m "engine" = ANil
     /\ mapIndex m "category" = ANil
     /\ mapIndex m "score" = ANil)
  /\ (exists m,
        formatSearchResults (toSearchResponse payload) = AMap m
        /\ mapIndex m "query" = AString (api_Query payload)
        /\ mapIndex m "total_results"
           = AFloat64 (float64_of_int (api_NumberOfResults payload))
        /\ mapIndex m "results"
           = ASlice (map (fun x => formatResult (toSearchResult x))
                         (elems (api_Results payload)))
        /\ mapIndex m "suggestions"
           = (if (0 <? len (api_Suggestions payload))%nat
              then ASlice (map AString (elems (api_Suggestions payload))) else ANil)
        /\ mapIndex m "answers"
           = (if (0 <? len (api_Answers payload))%nat
              then ASlice (map AString (elems (api_Answers payload))) else ANil)
        /\ mapIndex m "corrections"
           = (if (0 <? len (api_Corrections payload))%nat
              then ASlice (map AString (elems (api_Corrections payload))) else ANil)
        /\ mapIndex m "infoboxes" = ANil
        /\ mapIndex m "unresponsive_engines" = ANil).
Proof.
  split.
  - eexists. split; [reflexivity|]. cbn [toSearchResult sr_PublishedDate].
    destruct (parsePublishedDate (ar_PublishedDate r)); repeat split; reflexivity.
  - eexists. split; [reflexivity|].
    unfold optionalStrings. cbn [toSearchResponse Suggestions Answers Corrections].
    destruct (0 <? len (api_Suggestions payload))%nat;
      destruct (0 <? len (api_Answers payload))%nat;
      destruct (0 <? len (api_Corrections payload))%nat;
      repeat split; try reflexivity;
      cbn; rewrite map_map; reflexivity.
Qed.

(** X16: the tool on a backend that keeps answering with a status outside
    200 to 299: the handler returns no error of its own but a tool error
    whose text is the prefix search failed, the message of
    [ErrRequestFailed], and the status and body of the last answer. *)
Theorem web_search_reports_bad_status
  (c : Client) (w : world) (args : list (string * any)) (query : string) (fuel : nat)
  (rl' : rateLimiter) (apiURL : string) (status : nat -> Z) (body : nat -> string) :
  asString (mapIndex args "query") = Some query ->
  query <> "" ->
  0 <= MaxRetries (config c) < maxInt64 ->
  wait fuel (w_env w) 0 (limiter c) = (Ret tt, rl') ->
  buildSearchURL c (applyDefaults (requestOf query args)) = Ret apiURL ->
  http_NewRequestErr "GET" apiURL = None ->
  (forall j, (j <= Z.to_nat (MaxRetries (config c)))%nat ->
     w_Do w j (getRequest c apiURL) = DoResp (status j) (body j)
     /\ (status j < 200 \/ 300 <= status j)) ->
  (Z.to_nat (MaxRetries (config c)) + 2 <= fuel)%nat ->
  fst (handleWebSearch fuel c w (AMap args))
  = Ret (NewToolResultError
           ("search failed: search request failed: HTTP "
            ++ strconv_Itoa (status (Z.to_nat (MaxRetries (config c))))
            ++ ": " ++ body (Z.to_nat (MaxRetries (config c))))%string).
Proof.
  intros Hq Hne Hm Hwait Hurl Hnew Hbad Hfuel.
  unfold handleWebSearch. rewrite Hq.
  replace (String.eqb query "") with false by (symmetry; apply String.eqb_neq; exact Hne).
  rewrite (Search_bad_status c w (requestOf query args) fuel rl' apiURL status body
             Hm Hwait Hurl Hnew Hbad Hfuel).
  reflexivity.
Qed.

(** X17: the tool on a backend that answers the first request with a status
    from 200 to 299 and a body that decodes: the handler returns, as a text
    that is no error, the indented JSON of what [formatSearchResults] makes
    of the normalized payload, after one request. *)
Theorem web_search_returns_formatted_payload
  (c : Client) (w : world) (args : list (string * any)) (query : string) (fuel : nat)
  (rl' : rateLimiter) (apiURL : string) (status : Z) (body text : string)
  (payload : APIResponse) :
  asString (mapIndex args "query") = Some query ->
  query <> "" ->
  0 <= MaxRetries (config c) ->
  wait (S fuel) (w_env w) 0 (limiter c) = (Ret tt, rl') ->
  buildSearchURL c (applyDefaults (requestOf query args)) = Ret apiURL ->
  http_NewRequestErr "GET" apiURL = None ->
  w_Do w 0 (getRequest c apiURL) = DoResp status body ->
  200 <= status < 300 ->
  json_Decode body = inr payload ->
  json_MarshalIndent (formatSearchResults (toSearchResponse payload)) = inr text ->
  fst (handleWebSearch (S fuel) c w (AMap args)) = Ret (NewToolResultText text)
  /\ IsError (NewToolResultText text) = false
  /\ exists r, snd (handleWebSearch (S fuel) c w (AMap args)) = Some r
               /\ requestsSent (trace r) = 1%nat.
Proof.
  intros Hq Hne Hm Hwait Hurl Hnew Hdo Hs Hdec Hjson.
  unfold handleWebSearch. rewrite Hq.
  replace (String.eqb query "") with false by (symmetry; apply String.eqb_neq; exact Hne).
  rewrite (Search_first_answer c w (requestOf query args) fuel rl' apiURL status body
             payload Hwait Hurl Hnew Hm Hdo Hs Hdec).
  cbn [result]. rewrite Hjson. cbn [fst snd].
  split; [reflexivity|]. split; [reflexivity|].
  eexists. split; reflexivity.
Qed.

End ServerMore.

Lemma web_search_reports_bad_status_witness :
  fst (exHandleWebSearch 5 exClient exWorld404 (AMap [("query", AString "test")]))
  = Ret (NewToolResultError "search failed: search request failed: HTTP 404: Not Found").
Proof.
  apply (@web_search_reports_bad_status exLibrary exCodec
           exClient exWorld404 [("query", AString "test")] "test" 5
           {| tokens := 9; maxTokens := 10;
              refillRate := 100 * millisecond; lastRefill := 0 |}
           "https://searxng.example.com/search?format=json&q=test"
           (fun _ => 404) (fun _ => "Not Found")).
  - reflexivity.
  - discriminate.
  - split; [discriminate | reflexivity].
  - reflexivity.
  - reflexivity.
  - reflexivity.
  - intros j _. split; [reflexivity | right; discriminate].
  - apply le_n.
Defined.

Lemma web_search_returns_formatted_payload_witness :
  fst (@handleWebSearch exLibrary exCodecOK 5 exClient exWorld200
         (AMap [("query", AString "test")]))
  = Ret (NewToolResultText "{}")
  /\ IsError (NewToolResultText "{}") = false
  /\ exists r, snd (@handleWebSearch exLibrary exCodecOK 5 exClient exWorld200
                      (AMap [("query", AString "test")])) = Some r
               /\ requestsSent (trace r) = 1%nat.
Proof.
  apply (@web_search_returns_formatted_payload exLibrary exCodecOK
           exClient exWorld200 [("query", AString "test")] "test" 4
           {| tokens := 9; maxTokens := 10;
              refillRate := 100 * millisecond; lastRefill := 0 |}
           "https://searxng.example.com/search?format=json&q=test"
           200 "{}" "{}" exPayload).
  - reflexivity.
  - discriminate.
  - discriminate.
  - reflexivity.
  - reflexivity.
  - reflexivity.
  - reflexivity.
  - split; [discriminate | reflexivity].
  - reflexivity.
  - reflexivity.
Defined.

(** ** The Markdown cleaner, once more *)

Lemma okRuns_mono (ls : list Reader.bytes) :
  forall k k', (k <= k')%nat -> okRuns k ls -> okRuns k' ls.
Proof.
  induction ls as [|l ls IH]; intros k k' Hk H; [exact I|].
  cbn [okRuns] in *. destruct (Reader.isEmpty l); [|exact H].
  destruct k as [|k]; [contradiction|]. destruct k' as [|k']; [lia|].
  apply (IH k k'); [lia | exact H].
Qed.

Lemma okRuns_app_l (ls post : list Reader.bytes) :
  forall k, okRuns k (ls ++ post) -> okRuns k ls.
Proof.
  induction ls as [|l ls IH]; intros k H; [exact I|].
  cbn [app okRuns] in *. destruct (Reader.isEmpty l); [|apply IH; exact H].
  destruct k as [|k]; [contradiction | apply IH; exact H].
Qed.

Lemma okRuns_app_r (pre ls : list Reader.bytes) :
  forall k, (k <= 2)%nat -> okRuns k (pre ++ ls) -> okRuns 2 ls.
Proof.
  induction pre as [|l pre IH]; intros k Hk H.
  - apply (okRuns_mono ls k 2 Hk H).
  - cbn [app okRuns] in H. destruct (Reader.isEmpty l).
    + destruct k as [|k]; [contradiction|]. apply (IH k); [lia | exact H].
    + apply (IH 2%nat); [lia | exact H].
Qed.

Lemma cleanLines_okRuns (markdown : Reader.bytes) : okRuns 2 (Reader.cleanLines markdown).
Proof.
  destruct (cleanLines_infix markdown) as (pre & post & H).
  apply (okRuns_app_l _ post). apply (okRuns_app_r pre _ 2 (le_n 2)).
  rewrite <- H. apply (collapse_okRuns (Reader.Split markdown) 0). lia.
Qed.

(** The first loop keeps every line of a list that is clean already. *)
Lemma collapse_clean (ls : list Reader.bytes) :
  forall (n : Z) (k : nat),
    Forall (fun l => Reader.TrimSpace l = l) ls ->
    okRuns k ls -> Z.of_nat k <= 2 - n -> 0 <= n ->
    collapse n ls = ls.
Proof.
  induction ls as [|l ls IH]; intros n k Htrim Hruns Hk Hn; [reflexivity|].
  inversion Htrim as [|? ? Hl Hls]; subst. cbn [collapse okRuns] in *. rewrite Hl.
  destruct l as [|c l]; cbn [Reader.isEmpty] in *.
  - destruct k as [|k]; [contradiction|].
    replace (n + 1 <=? 2) with true by (symmetry; apply Z.leb_le; lia).
    cbv iota. apply f_equal. apply (IH (n + 1) k); [exact Hls | exact Hruns | lia | lia].
  - apply f_equal. apply (IH 0 2%nat); [exact Hls | exact Hruns | lia | lia].
Qed.

Lemma dropLeadingEmpty_id (ls : list Reader.bytes) :
  hd [] ls <> [] -> Reader.dropLeadingEmpty ls = ls.
Proof.
  destruct ls as [|l ls]; [reflexivity|]. cbn [hd Reader.dropLeadingEmpty].
  destruct l; [contradiction | reflexivity].
Qed.

Lemma dropTrailingEmpty_id (ls : list Reader.bytes) :
  last ls [] <> [] -> Reader.dropTrailingEmpty ls = ls.
Proof.
  intros H. unfold Reader.dropTrailingEmpty.
  rewrite <- (rev_involutive ls) in H |- * at 2.
  destruct (rev ls) as [|x r]; [reflexivity|].
  cbn [rev] in H. rewrite last_last in H.
  rewrite dropLeadingEmpty_id by exact H. reflexivity.
Qed.

(** Cleaning what is clean changes nothing. *)
Lemma cleanBytes_idempotent (markdown : Reader.bytes) :
  Reader.cleanBytes (Reader.cleanBytes markdown) = Reader.cleanBytes markdown.
Proof.
  assert (Hc : Reader.cleanBytes markdown = Reader.Join (Reader.cleanLines markdown))
    by reflexivity.
  rewrite Hc.
  destruct (Reader.cleanLines markdown) as [|l ls] eqn:Hlines; [reflexivity|].
  unfold Reader.cleanBytes, Reader.cleanLines.
  rewrite Split_Join; [| discriminate | rewrite <- Hlines; apply cleanLines_noNewline].
  rewrite fold_keepLine. cbn [app].
  rewrite (collapse_clean (l :: ls) 0 2).
  - destruct (cleanLines_ends markdown) as [H|[Hhd Hlast]]; [congruence|].
    rewrite Hlines in Hhd, Hlast.
    rewrite dropLeadingEmpty_id by exact Hhd.
    rewrite dropTrailingEmpty_id by exact Hlast. reflexivity.
  - rewrite <- Hlines. apply cleanLines_trimmed.
  - rewrite <- Hlines. apply cleanLines_okRuns.
  - lia.
  - lia.
Qed.

(** X18: [cleanMarkdown] is idempotent: cleaning a document that was
    cleaned gives the same document. *)
Theorem cleanMarkdown_idempotent (markdown : string) :
  cleanMarkdown (cleanMarkdown markdown) = cleanMarkdown markdown.
Proof.
  unfold cleanMarkdown. rewrite list_ascii_of_string_of_list_ascii.
  rewrite cleanBytes_idempotent. reflexivity.
Qed.

(** X19: [cleanMarkdown] neither drops nor reorders text: the lines of the
    output that are not empty are the trimmed lines of the input that are
    not empty, in the same order. *)
Theorem cleanMarkdown_keeps_text (markdown : string) :
  filter nonEmpty (outputLines markdown)
  = filter nonEmpty (map Reader.TrimSpace
                         (Reader.Split (list_ascii_of_string markdown))).
Proof.
  unfold outputLines, cleanMarkdown. rewrite list_ascii_of_string_of_list_ascii.
  set (input := list_ascii_of_string markdown).
  assert (H : filter nonEmpty (Reader.cleanLines input)
              = filter nonEmpty (map Reader.TrimSpace (Reader.Split input))).
  { unfold Reader.cleanLines. rewrite fold_keepLine. cbn [app].
    rewrite filter_dropTrailingEmpty, filter_dropLeadingEmpty. apply filter_collapse. }
  rewrite <- H. unfold Reader.cleanBytes.
  destruct (Reader.cleanLines input) as [|l ls] eqn:Hlines; [reflexivity|].
  rewrite Split_Join; [reflexivity | discriminate |].
  rewrite <- Hlines. apply cleanLines_noNewline.
Qed.

(** ** The web_read tool *)

Section WebReadMore.

Context {lib : Library} {fetcher : Fetcher}.

(** [fetchURLContent] returns: it has no loop and nothing in it panics. *)
Lemma fetchURLContent_outcome (send : fetchWorld) (urlStr : string) :
  (exists text, fst (fetchURLContent send urlStr) = Ret text)
  \/ (exists err, fst (fetchURLContent send urlStr) = Fail err).
Proof.
  unfold fetchURLContent.
  destruct (url_Parse urlStr) as [err|parsedURL]; [right; eexists; reflexivity|].
  destruct (negb (String.eqb (url_Scheme parsedURL) "http")
            && negb (String.eqb (url_Scheme parsedURL) "https"));
    [right; eexists; reflexivity|].
  destruct (http_NewRequestErr "GET" urlStr); [right; eexists; reflexivity|].
  destruct (send checkRedirect (fetchRequest urlStr)) as [err|code status ct body];
    [right; eexists; reflexivity|].
  destruct (negb (code =? 200)); [right; eexists; reflexivity|].
  cbn [fst]. unfold readContent.
  destruct (negb (strings_Contains ct "text/html")
            && negb (strings_Contains ct "application/xhtml")).
  - destruct (io_ReadAll body); [right | left]; eexists; reflexivity.
  - destruct (goquery_NewDocumentFromReader body) as [e|doc];
      [right; eexists; reflexivity|].
    destruct (doc_Html _) as [e|html]; [right; eexists; reflexivity|].
    destruct (conv_ConvertString html); [right | left]; eexists; reflexivity.
Qed.


(** X21: [fetchURLContent] returns content only for an answer with status
    200, no other status from 200 to 299. When the content type names
    neither text/html nor application/xhtml the content is the body as it
    was read; otherwise it went through [cleanMarkdown], so that cleaning
    it again changes nothing. *)
Theorem fetch_content_needs_status_200
  (send : fetchWorld) (urlStr text : string) :
  fst (fetchURLContent send urlStr) = Ret text ->
  exists status contentType body,
    send checkRedirect (fetchRequest urlStr) = FetchResp 200 status contentType body
    /\ ((strings_Contains contentType "text/html" = false
         /\ strings_Contains contentType "application/xhtml" = false
         /\ io_ReadAll body = inr text)
        \/ ((strings_Contains contentType "text/html" = true
             \/ strings_Contains contentType "application/xhtml" = true)
            /\ cleanMarkdown text = text)).
Proof.
  unfold fetchURLContent.
  destruct (url_Parse urlStr) as [err|parsedURL]; [discriminate|].
  destruct (negb (String.eqb (url_Scheme parsedURL) "http")
            && negb (String.eqb (url_Scheme parsedURL) "https")); [discriminate|].
  destruct (http_NewRequestErr "GET" urlStr); [discriminate|].
  destruct (send checkRedirect (fetchRequest urlStr)) as [err|code status ct body];
    [discriminate|].
  destruct (code =? 200) eqn:Hcode; cbn [negb fst]; [|discriminate].
  apply Z.eqb_eq in Hcode. subst code. intros Hread.
  exists status, ct, body. split; [reflexivity|].
  unfold readContent in Hread.
  destruct (negb (strings_Contains ct "text/html")
            && negb (strings_Contains ct "application/xhtml")) eqn:Hct.
  - left. apply andb_true_iff in Hct. destruct Hct as [H1 H2].
    apply negb_true_iff in H1, H2.
    destruct (io_ReadAll body); [discriminate|].
    injection Hread as ->. auto.
  - right. split.
    + apply andb_false_iff in Hct.
      destruct Hct as [H|H]; apply negb_false_iff in H; auto.
    + destruct (goquery_NewDocumentFromReader body) as [e|doc]; [discriminate|].
      destruct (doc_Html _) as [e|html]; [discriminate|].
      destruct (conv_ConvertString html) as [e|markdown]; [discriminate|].
      injection Hread as <-.
      unfold cleanMarkdown. rewrite list_ascii_of_string_of_list_ascii.
      rewrite cleanBytes_idempotent. reflexivity.
Qed.

(** X22: [handleWebRead] never returns an error of its own: every failure
    is a tool result with the error flag. A result without the flag is the
    text [fetchURLContent] returned for the url argument, a string that is
    not empty. *)
Theorem web_read_always_answers (send : fetchWorld) (arguments : any) :
  exists r,
    fst (handleWebRead send arguments) = Ret r
    /\ (IsError r = false ->
        exists args u text,
          arguments = AMap args
          /\ asString (mapIndex args "url") = Some u
          /\ u <> ""
          /\ fst (fetchURLContent send u) = Ret text
          /\ r = NewToolResultText text).
Proof.
  unfold handleWebRead.
  destruct arguments as [| | | | | | args];
    try (eexists; split; [reflexivity | discriminate]).
  destruct (asString (mapIndex args "url")) as [u|] eqn:Hu;
    [| eexists; split; [reflexivity | discriminate]].
  destruct (String.eqb u "") eqn:Hne;
    [eexists; split; [reflexivity | discriminate]|].
  apply String.eqb_neq in Hne.
  pose proof (fetchURLContent_outcome send u) as Hout.
  destruct (fetchURLContent send u) as [o tr] eqn:Hfetch. cbn [fst] in Hout.
  destruct Hout as [[text ->]|[err ->]].
  - eexists. split; [reflexivity|]. intros _.
    exists args, u, text.
    split; [reflexivity|]. split; [exact Hu|]. split; [exact Hne|].
    split; [|reflexivity]. first [reflexivity | rewrite Hfetch; reflexivity].
  - eexists. split; [reflexivity | discriminate].
Qed.

(** X23: when the arguments are a map in which the url is absent, not a
    string, or the empty string, the handler answers with the tool error url
    is required; when the arguments are not a map at all, as in a call
    without arguments, it answers with the tool error invalid arguments
    format. In both cases [fetchURLContent] is not called: the call leaves
    no event. *)
Theorem web_read_requires_url (send : fetchWorld) :
  (forall args,
     asString (mapIndex args "url") = None
     \/ asString (mapIndex args "url") = Some "" ->
     handleWebRead send (AMap args)
     = (Ret (NewToolResultError "url is required"), []))
  /\ (forall arguments,
        (forall args, arguments <> AMap args) ->
        handleWebRead send arguments
        = (Ret (NewToolResultError "invalid arguments format"), [])).
Proof.
  split.
  - intros args [H|H]; unfold handleWebRead; rewrite H; reflexivity.
  - intros arguments Hmap.
    destruct arguments; try reflexivity. exfalso. apply (Hmap v). reflexivity.
Qed.

(** X24: a url whose scheme is neither http nor https is refused before any
    request: the handler answers with the tool error that names the scheme,
    and the call leaves no event. *)
Theorem web_read_refuses_other_schemes
  (send : fetchWorld) (args : list (string * any)) (u : string) (parsedURL : url) :
  asString (mapIndex args "url") = Some u ->
  u <> "" ->
  url_Parse u = inr parsedURL ->
  url_Scheme parsedURL <> "http" ->
  url_Scheme parsedURL <> "https" ->
  handleWebRead send (AMap args)
  = (Ret (NewToolResultError
            ("failed to fetch URL: unsupported URL scheme: " ++ url_Scheme parsedURL
             ++ " (only http and https are supported)")%string), []).
Proof.
  intros Hu Hne Hparse Hhttp Hhttps.
  unfold handleWebRead. rewrite Hu.
  replace (String.eqb u "") with false by (symmetry; apply String.eqb_neq; exact Hne).
  unfold fetchURLContent. rewrite Hparse.
  apply String.eqb_neq in Hhttp, Hhttps. rewrite Hhttp, Hhttps. reflexivity.
Qed.


End WebReadMore.

Lemma fetch_content_needs_status_200_witness :
  exists status contentType body,
    exSendPage checkRedirect (fetchRequest "https://example.com/page")
    = @FetchResp exLibrary exFetcher 200 status contentType body
    /\ ((strings_Contains contentType "text/html" = false
         /\ strings_Contains contentType "application/xhtml" = false
         /\ @io_ReadAll exLibrary exFetcher body = inr "# Title")
        \/ ((strings_Contains contentType "text/html" = true
             \/ strings_Contains contentType "application/xhtml" = true)
            /\ cleanMarkdown "# Title" = "# Title")).
Proof.
  apply (@fetch_content_needs_status_200 exLibrary exFetcher
           exSendPage "https://example.com/page" "# Title").
  reflexivity.
Defined.

Lemma web_read_requires_url_witness :
  @handleWebRead exLibrary exFetcher exSendPage (AMap [("url", AInt 7)])
  = (Ret (NewToolResultError "url is required"), [])
  /\ @handleWebRead exLibrary exFetcher exSendPage (AMap [("url", AString "")])
     = (Ret (NewToolResultError "url is required"), [])
  /\ @handleWebRead exLibrary exFetcher exSendPage ANil
     = (Ret (NewToolResultError "invalid arguments format"), []).
Proof.
  pose proof (@web_read_requires_url exLibrary exFetcher exSendPage) as [Hmap Hother].
  split; [|split].
  - apply Hmap. left. reflexivity.
  - apply Hmap. right. reflexivity.
  - apply Hother. intros args. discriminate.
Defined.

Lemma web_read_refuses_other_schemes_witness :
  @handleWebRead exLibrary exFetcher exSendPage
    (AMap [("url", AString "file:///etc/passwd")])
  = (Ret (NewToolResultError
            "failed to fetch URL: unsupported URL scheme: file (only http and https are supported)"),
     []).
Proof.
  apply (@web_read_refuses_other_schemes exLibrary exFetcher exSendPage
           [("url", AString "file:///etc/passwd")] "file:///etc/passwd"
           "file:///etc/passwd").
  - reflexivity.
  - discriminate.
  - reflexivity.
  - discriminate.
  - discriminate.
Defined.


(** ** The commands *)

(** X27: the command serve, from the flags to the server. The hook of the
    root command fails exactly when the instance URL is empty. The hook of
    serve lets the flags through exactly when the transport is stdio,
    whatever the port, or the transport is http and the port is from 1 to
    65535. When both hooks let the flags through, the client that [RunE]
    builds has the instance URL of the flag, which is not empty; its
    timeout is 30 seconds when the flag is 0 and the value of the flag
    otherwise, so never zero; it makes no retries; and the default branch
    of the switch, which serves stdio, is taken for the transport stdio
    alone, while HTTP is served on the port of the flag. *)
Theorem serve_runs_on_checked_flags {lib : Library}
  (flagInstanceURL : string) (flagTimeout : Z) (flagTransport : string) (flagPort : Z)
  (now : Z) :
  ((exists err, persistentPreRunE flagInstanceURL flagTimeout = inl err)
   <-> flagInstanceURL = "")
  /\ (servePreRunE flagTransport flagPort = None
      <-> flagTransport = "stdio"
          \/ (flagTransport = "http" /\ 1 <= flagPort <= 65535))
  /\ (forall (instanceURL : string) (timeout : Z) (client : Client) (mode : serving),
        persistentPreRunE flagInstanceURL flagTimeout = inr (instanceURL, timeout) ->
        servePreRunE flagTransport flagPort = None ->
        serveRunE instanceURL timeout now flagTransport flagPort = inr (client, mode) ->
        BaseURL (config client) = flagInstanceURL
        /\ flagInstanceURL <> ""
        /\ (flagTimeout = 0 -> Timeout (config client) = 30 * second)
        /\ (flagTimeout <> 0 -> Timeout (config client) = flagTimeout)
        /\ Timeout (config client) <> 0
        /\ MaxRetries (config client) = 0
        /\ ((flagTransport = "stdio" /\ mode = ServeStdio)
            \/ (flagTransport = "http"
                /\ mode = ServeHTTP (":" ++ strconv_Itoa flagPort)%string
                /\ 1 <= flagPort <= 65535))).
Proof.
  assert (Hserve : servePreRunE flagTransport flagPort = None
                   <-> flagTransport = "stdio"
                       \/ (flagTransport = "http" /\ 1 <= flagPort <= 65535)).
  { unfold servePreRunE.
    destruct (String.eqb_spec flagTransport "stdio") as [->|Hstdio].
    - cbn. split; [intros _; left; reflexivity | reflexivity].
    - destruct (String.eqb_spec flagTransport "http") as [->|Hhttp].
      + cbn [negb andb].
        destruct (Z.ltb_spec flagPort 1) as [Hlo|Hlo]; cbn [orb].
        * split; [discriminate | intros [H|[_ H]]; [discriminate H | lia]].
        * destruct (Z.ltb_spec 65535 flagPort) as [Hhi|Hhi].
          -- split; [discriminate | intros [H|[_ H]]; [discriminate H | lia]].
          -- split; [intros _; right; split; [reflexivity | lia] | reflexivity].
      + cbn [negb andb].
        split; [discriminate | intros [H|[H _]]; contradiction]. }
  split; [|split; [exact Hserve|]].
  - unfold persistentPreRunE.
    destruct (String.eqb_spec flagInstanceURL "") as [He|Hne].
    + split; [intros _; exact He | intros _; eexists; reflexivity].
    + split; [intros [err H]; discriminate H | intros H; contradiction].
  - unfold persistentPreRunE, serveRunE, NewClient.
    intros instanceURL timeout client mode Hroot Hpre Hrun.
    destruct (String.eqb flagInstanceURL "") eqn:Hu; [discriminate|].
    apply String.eqb_neq in Hu. injection Hroot as <- <-.
    cbn [commandConfig BaseURL] in Hrun.
    destruct (url_Parse flagInstanceURL); [discriminate|].
    injection Hrun as <- <-. cbn [config commandConfig BaseURL Timeout MaxRetries].
    split; [reflexivity|]. split; [exact Hu|].
    split; [intros ->; reflexivity|].
    split; [intros Ht; apply Z.eqb_neq in Ht; rewrite Ht; reflexivity|].
    split; [destruct (Z.eqb_spec flagTimeout 0); [discriminate | assumption]|].
    split; [reflexivity|].
    apply Hserve in Hpre. destruct Hpre as [->|[-> Hport]].
    + left. split; reflexivity.
    + right. split; [reflexivity|]. split; [reflexivity | exact Hport].
Qed.

Lemma serve_runs_on_checked_flags_witness :
  BaseURL (config exCommandClient) = DefaultInstanceURL
  /\ DefaultInstanceURL <> ""
  /\ (0 = 0 -> Timeout (config exCommandClient) = 30 * second)
  /\ (0 <> 0 -> Timeout (config exCommandClient) = 0)
  /\ Timeout (config exCommandClient) <> 0
  /\ MaxRetries (config exCommandClient) = 0
  /\ (("stdio" = "stdio" /\ ServeStdio = ServeStdio)
      \/ ("stdio" = "http"
          /\ ServeStdio = ServeHTTP (":" ++ strconv_Itoa 0)%string
          /\ 1 <= 0 <= 65535)).
Proof.
  apply (proj2 (proj2 (@serve_runs_on_checked_flags exLibrary
                         DefaultInstanceURL 0 "stdio" 0 0))
           DefaultInstanceURL (30 * second) exCommandClient ServeStdio).
  - reflexivity.
  - reflexivity.
  - reflexivity.
Defined.
